(** * Session manager of the BSL LSP bridge: a shallow embedding

    The development follows [cmd/lsp-session-manager]: the request-id codec
    ([JSONRPCID]), the framed codec ([writeMessage], [readLSPMessage]), the
    polling watcher ([PollingWatcher.checkForChanges]), the session manager
    ([SessionManager]: document registry, progress tracker, status, router)
    and the request broker ([sendRequest] against [readResponses]).

    Go values are modelled as follows.
    - [int], [int64]: [Z], with the two's-complement wrap-around written out
      ([wrap64]).
    - [[]byte] and strings that are processed byte by byte: [list ascii]
      ([bytes]); identifiers, map keys and method names: [string].
    - [map[K]V]: stdpp's [gmap K V]; a missing key reads as the zero value.
    - [float64]: the kernel's binary64 floats ([PrimFloat]).
    - an [error] result: the sum type [result]; a run-time panic is a
      separate outcome.
    - memory: [make] for a length that comes from the input is explicit in
      [readLSPMessageOn], where the process ends when the runtime does not
      have the memory; [readLSPMessage] is the reader where it has.
    - what the language or the system leaves open (the order of a [range]
      over a map, how long a sleep lasts beyond its period, when a timer
      fires) is an input of the model. *)

From Stdlib Require Import ZArith String Ascii List Lia Bool.
From Stdlib Require Import Floats.
From stdpp Require Import gmap strings list fin_maps.

Open Scope Z_scope.

(* ================================================================== *)
(** * Part I. Definitions *)
(* ================================================================== *)

(** ** Bytes, errors, results *)

Abbreviation bytes := (list ascii).

(** A string literal as its bytes. *)
Definition lit (s : string) : bytes := list_ascii_of_string s.

Definition code (c : ascii) : Z := Z.of_N (N_of_ascii c).

Definition ascii_of_code (z : Z) : ascii := ascii_of_N (Z.to_N z).

(** Go's [error] values that the modelled code produces or passes on. *)
Inductive goerr : Type :=
| io_EOF
| io_ErrUnexpectedEOF
| io_ErrClosedPipe
| strconv_ErrSyntax
| strconv_ErrRange
| json_Error
| context_DeadlineExceeded
| errorf (msg : string).

Inductive result (A : Type) : Type :=
| Ok (a : A)
| Err (e : goerr).
Arguments Ok {A} a.
Arguments Err {A} e.

(** A call that may also panic. *)
Inductive outcome (A : Type) : Type :=
| Ret (a : A)
| Fail (e : goerr)
| Panic.
Arguments Ret {A} a.
Arguments Fail {A} e.
Arguments Panic {A}.

Definition is_Ok {A} (r : result A) : bool :=
  match r with Ok _ => true | Err _ => false end.

(** ** 64-bit integers *)

Definition minInt64 : Z := - 2 ^ 63.
Definition maxInt64 : Z := 2 ^ 63 - 1.

(** The value of a 64-bit signed integer after an operation whose
    mathematical result is [z]. *)
Definition wrap64 (z : Z) : Z := (z + 2 ^ 63) mod 2 ^ 64 - 2 ^ 63.

Definition in_int64 (z : Z) : bool := (minInt64 <=? z) && (z <=? maxInt64).

(** ** package strings *)

Definition bytes_eqb (x y : bytes) : bool := bool_decide (x = y).

(** [asciiSpace]: tab, newline, vertical tab, form feed, carriage return,
    space. *)
Definition isAsciiSpace (c : ascii) : bool :=
  let n := code c in
  (n =? 9) || (n =? 10) || (n =? 11) || (n =? 12) || (n =? 13) || (n =? 32).

(** The UTF-8 encodings of the non-ASCII runes for which [unicode.IsSpace]
    holds: U+0085, U+00A0, U+1680, U+2000..U+200A, U+2028, U+2029, U+202F,
    U+205F, U+3000. [space2 c1 c2] and [space3 c1 c2 c3] recognise them in
    reading order. *)
Definition space2 (c1 c2 : ascii) : bool :=
  (code c1 =? 194) && ((code c2 =? 133) || (code c2 =? 160)).

Definition space3 (c1 c2 c3 : ascii) : bool :=
  ((code c1 =? 225) && (code c2 =? 154) && (code c3 =? 128))
  || ((code c1 =? 226) && (code c2 =? 128)
      && (((128 <=? code c3) && (code c3 <=? 138))
          || (code c3 =? 168) || (code c3 =? 169) || (code c3 =? 175)))
  || ((code c1 =? 226) && (code c2 =? 129) && (code c3 =? 159))
  || ((code c1 =? 227) && (code c2 =? 128) && (code c3 =? 128)).

(** [strings.TrimLeftFunc(s, unicode.IsSpace)]. *)
Fixpoint trimLeftSpace (s : bytes) : bytes :=
  match s with
  | c1 :: s1 =>
      if isAsciiSpace c1 then trimLeftSpace s1
      else
        match s1 with
        | c2 :: s2 =>
            if space2 c1 c2 then trimLeftSpace s2
            else
              match s2 with
              | c3 :: s3 => if space3 c1 c2 c3 then trimLeftSpace s3 else s
              | [] => s
              end
        | [] => s
        end
  | [] => []
  end.

(** The same scan over the reversed string: [r] holds the bytes of the
    string last byte first, so an encoded rune appears last byte first. *)
Fixpoint trimLeftSpaceRev (r : bytes) : bytes :=
  match r with
  | c1 :: r1 =>
      if isAsciiSpace c1 then trimLeftSpaceRev r1
      else
        match r1 with
        | c2 :: r2 =>
            if space2 c2 c1 then trimLeftSpaceRev r2
            else
              match r2 with
              | c3 :: r3 => if space3 c3 c2 c1 then trimLeftSpaceRev r3 else r
              | [] => r
              end
        | [] => r
        end
  | [] => []
  end.

(** [strings.TrimSpace]: leading and trailing white space removed. *)
Definition TrimSpace (s : bytes) : bytes :=
  rev (trimLeftSpaceRev (rev (trimLeftSpace s))).

Fixpoint HasPrefix (s prefix : bytes) : bool :=
  match prefix, s with
  | [], _ => true
  | p :: prefix', c :: s' => bool_decide (p = c) && HasPrefix s' prefix'
  | _ :: _, [] => false
  end.

Definition TrimPrefix (s prefix : bytes) : bytes :=
  if HasPrefix s prefix then drop (length prefix) s else s.

(** ** package strconv *)

Definition isDigit (c : ascii) : bool := (48 <=? code c) && (code c <=? 57).

(** The value of a run of decimal digits, most significant first; [None]
    when a byte is not a digit. *)
Fixpoint digitsValue (acc : Z) (s : bytes) : option Z :=
  match s with
  | [] => Some acc
  | c :: s' =>
      if isDigit c then digitsValue (acc * 10 + (code c - 48)) s' else None
  end.

(** [strconv.ParseInt(s, 10, 64)]: an optional sign, then one or more
    decimal digits; the value must fit 64 bits. *)
Definition ParseInt (s : bytes) : result Z :=
  let '(neg, ds) :=
    match s with
    | c :: s' =>
        if code c =? 45 then (true, s')
        else if code c =? 43 then (false, s')
        else (false, s)
    | [] => (false, [])
    end in
  match ds with
  | [] => Err strconv_ErrSyntax
  | _ :: _ =>
      match digitsValue 0 ds with
      | None => Err strconv_ErrSyntax
      | Some un =>
          let n := if neg then - un else un in
          if in_int64 n then Ok n else Err strconv_ErrRange
      end
  end.

(** [strconv.Atoi] on a platform whose [int] has 64 bits. *)
Definition Atoi (s : bytes) : result Z := ParseInt s.

Definition digitChar (d : Z) : ascii := ascii_of_code (48 + d).

(** The decimal digits of [n >= 0], written from the least significant
    digit backwards as [strconv.formatBits] does. [fuel] bounds the number
    of digits. *)
Fixpoint formatDigits (fuel : nat) (n : Z) (acc : bytes) : bytes :=
  match fuel with
  | O => acc
  | S fuel' =>
      let acc' := digitChar (n mod 10) :: acc in
      if n <? 10 then acc' else formatDigits fuel' (n / 10) acc'
  end.

(** [strconv.FormatInt(n, 10)], which is also [fmt.Sprintf] of the verb
    [%d] and [json.Marshal] of an integer. *)
Definition FormatInt (n : Z) : bytes :=
  if n <? 0
  then "-"%char :: formatDigits (S (Z.to_nat (Z.log2 (- n)))) (- n) []
  else formatDigits (S (Z.to_nat (Z.log2 n))) n [].

(** ** package bufio and io: a reader over the bytes still to come

    The reader is the sequence of bytes the peer sends before it closes the
    stream; reading past its end is [io.EOF]. *)

(** [reader.ReadString(delim)]: the bytes up to and including the first
    [delim], and the rest of the stream; when the stream ends first, the
    bytes read and [io.EOF]. *)
Fixpoint ReadString (delim : ascii) (r : bytes) : bytes * bytes * option goerr :=
  match r with
  | [] => ([], [], Some io_EOF)
  | c :: r' =>
      if bool_decide (c = delim) then ([c], r', None)
      else
        let '(line, rest, err) := ReadString delim r' in
        (c :: line, rest, err)
  end.

(** [io.ReadFull(reader, buf)] with [len(buf) = n]. *)
Definition ReadFull (n : nat) (r : bytes) : result (bytes * bytes) :=
  if (n <=? length r)%nat then Ok (take n r, drop n r)
  else
    match r with
    | [] => Err io_EOF
    | _ :: _ => Err io_ErrUnexpectedEOF
    end.

Definition newline : ascii := ascii_of_code 10.

(** ** package encoding/json, for the scalar values the id codec decodes

    [json.Unmarshal(data, &v)] accepts exactly one JSON value in [data],
    with white space around it. *)

Definition isJSONSpace (c : ascii) : bool :=
  let n := code c in (n =? 32) || (n =? 9) || (n =? 13) || (n =? 10).

Fixpoint dropJSONSpace (s : bytes) : bytes :=
  match s with
  | c :: s' => if isJSONSpace c then dropJSONSpace s' else s
  | [] => []
  end.

Definition trimJSONSpace (s : bytes) : bytes :=
  rev (dropJSONSpace (rev (dropJSONSpace s))).

(** The JSON grammar of a number without fraction or exponent: an optional
    minus sign, then [0] or a digit other than [0] followed by digits. *)
Definition isJSONInteger (s : bytes) : bool :=
  let ds := match s with
            | c :: s' => if code c =? 45 then s' else s
            | [] => []
            end in
  match ds with
  | [] => false
  | c :: ds' =>
      if code c =? 48 then bool_decide (ds' = [])
      else isDigit c && forallb isDigit ds'
  end.

(** [json.Unmarshal(data, &i)] for [var i int64]. The literal [null] leaves
    [i] at zero and is no error; a number must be an integer that fits
    64 bits; every other input is an error. *)
Definition jsonUnmarshalInt64 (data : bytes) : result Z :=
  let t := trimJSONSpace data in
  if bytes_eqb t (lit "null") then Ok 0
  else if isJSONInteger t then
    match ParseInt t with
    | Ok n => Ok n
    | Err _ => Err json_Error
    end
  else Err json_Error.

Definition hexValue (c : ascii) : option Z :=
  let n := code c in
  if (48 <=? n) && (n <=? 57) then Some (n - 48)
  else if (97 <=? n) && (n <=? 102) then Some (n - 87)
  else if (65 <=? n) && (n <=? 70) then Some (n - 55)
  else None.

(** [getu4]: the code unit written by four hexadecimal digits. *)
Definition getu4 (h1 h2 h3 h4 : ascii) : option Z :=
  match hexValue h1, hexValue h2, hexValue h3, hexValue h4 with
  | Some a, Some b', Some c, Some d => Some (((a * 16 + b') * 16 + c) * 16 + d)
  | _, _, _, _ => None
  end.

(** [utf8.EncodeRune]; a surrogate or a value above U+10FFFF is encoded as
    U+FFFD. *)
Definition encodeRune (r : Z) : bytes :=
  if r <? 128 then [ascii_of_code r]
  else if r <? 2048 then
    [ascii_of_code (192 + r / 64); ascii_of_code (128 + r mod 64)]
  else if ((55296 <=? r) && (r <=? 57343)) || (1114111 <? r) then
    [ascii_of_code 239; ascii_of_code 191; ascii_of_code 189]
  else if r <? 65536 then
    [ascii_of_code (224 + r / 4096); ascii_of_code (128 + (r / 64) mod 64);
     ascii_of_code (128 + r mod 64)]
  else
    [ascii_of_code (240 + r / 262144); ascii_of_code (128 + (r / 4096) mod 64);
     ascii_of_code (128 + (r / 64) mod 64); ascii_of_code (128 + r mod 64)].

Definition isCont (c : ascii) : bool := (128 <=? code c) && (code c <=? 191).

(** The length of the well-formed UTF-8 sequence that [s] starts with, as
    [utf8.DecodeRune] accepts it; [None] when [s] starts with a byte that
    begins no such sequence (a rune error of width one). *)
Definition utf8Len (s : bytes) : option nat :=
  match s with
  | [] => None
  | c1 :: s1 =>
      let n1 := code c1 in
      if n1 <? 128 then Some 1%nat
      else
        match s1 with
        | [] => None
        | c2 :: s2 =>
            let n2 := code c2 in
            if (194 <=? n1) && (n1 <=? 223) then
              if isCont c2 then Some 2%nat else None
            else
              let lo := if n1 =? 224 then 160 else if n1 =? 240 then 144 else 128 in
              let hi := if n1 =? 237 then 159 else if n1 =? 244 then 143 else 191 in
              if negb ((lo <=? n2) && (n2 <=? hi)) then None
              else
                match s2 with
                | [] => None
                | c3 :: s3 =>
                    if (224 <=? n1) && (n1 <=? 239) then
                      if isCont c3 then Some 3%nat else None
                    else if (240 <=? n1) && (n1 <=? 244) then
                      match s3 with
                      | c4 :: _ =>
                          if isCont c3 && isCont c4 then Some 4%nat else None
                      | [] => None
                      end
                    else None
                end
        end
  end.

Definition runeErrorBytes : bytes :=
  [ascii_of_code 239; ascii_of_code 191; ascii_of_code 189].

(** The inside of a JSON string literal, from the byte after the opening
    quote: the scanner's validity check and [unquote] in one pass. The
    closing quote must be the last byte. Escapes are decoded, a [\u] escape
    to UTF-8 (two escapes that form a surrogate pair to one rune, a lone
    surrogate to U+FFFD); a byte that starts no well-formed UTF-8 sequence
    becomes U+FFFD; a control character or an unknown escape is an error. *)
Fixpoint unquoteBody (fuel : nat) (s : bytes) : option bytes :=
  match fuel with
  | O => None
  | S fuel' =>
      match s with
      | [] => None
      | c :: s1 =>
          let n := code c in
          if n =? 34 then (if bool_decide (s1 = []) then Some [] else None)
          else if n <? 32 then None
          else if n =? 92 then
            match s1 with
            | [] => None
            | e :: s2 =>
                let simple (x : Z) := cons (ascii_of_code x) <$> unquoteBody fuel' s2 in
                let m := code e in
                if (m =? 34) || (m =? 92) || (m =? 47) then simple m
                else if m =? 98 then simple 8
                else if m =? 102 then simple 12
                else if m =? 110 then simple 10
                else if m =? 114 then simple 13
                else if m =? 116 then simple 9
                else if m =? 117 then
                  match s2 with
                  | h1 :: h2 :: h3 :: h4 :: s3 =>
                      match getu4 h1 h2 h3 h4 with
                      | None => None
                      | Some rr =>
                          if (55296 <=? rr) && (rr <=? 57343) then
                            let lone := app runeErrorBytes <$> unquoteBody fuel' s3 in
                            match s3 with
                            | b1 :: b2 :: k1 :: k2 :: k3 :: k4 :: s4 =>
                                match getu4 k1 k2 k3 k4 with
                                | Some rr1 =>
                                    if (code b1 =? 92) && (code b2 =? 117)
                                       && (rr <? 56320)
                                       && (56320 <=? rr1) && (rr1 <=? 57343)
                                    then
                                      app (encodeRune
                                             ((rr - 55296) * 1024 + (rr1 - 56320) + 65536))
                                        <$> unquoteBody fuel' s4
                                    else lone
                                | None => lone
                                end
                            | _ => lone
                            end
                          else app (encodeRune rr) <$> unquoteBody fuel' s3
                      end
                  | _ => None
                  end
                else None
            end
          else if n <? 128 then cons c <$> unquoteBody fuel' s1
          else
            match utf8Len s with
            | Some k => app (take k s) <$> unquoteBody fuel' (drop k s)
            | None => app runeErrorBytes <$> unquoteBody fuel' s1
            end
      end
  end.

(** [json.Unmarshal(data, &s)] for [var s string]: [null] leaves [s] empty
    and is no error; a string literal is decoded; every other input is an
    error. *)
Definition jsonUnmarshalString (data : bytes) : result bytes :=
  let t := trimJSONSpace data in
  if bytes_eqb t (lit "null") then Ok []
  else
    match t with
    | c :: body =>
        if code c =? 34 then
          match unquoteBody (length t) body with
          | Some s => Ok s
          | None => Err json_Error
          end
        else Err json_Error
    | [] => Err json_Error
    end.

Definition hexDigit (d : Z) : ascii :=
  if d <? 10 then ascii_of_code (48 + d) else ascii_of_code (87 + d).

(** [appendString] with HTML escaping, as [json.Marshal] uses it: the bytes
    between the quotes. *)
Fixpoint quoteBody (fuel : nat) (s : bytes) : bytes :=
  match fuel with
  | O => []
  | S fuel' =>
      match s with
      | [] => []
      | c :: s1 =>
          let n := code c in
          if n <? 128 then
            (if (n =? 92) || (n =? 34) then [ascii_of_code 92; c]
             else if n =? 8 then lit "\b"
             else if n =? 12 then lit "\f"
             else if n =? 10 then lit "\n"
             else if n =? 13 then lit "\r"
             else if n =? 9 then lit "\t"
             else if (n <? 32) || (n =? 60) || (n =? 62) || (n =? 38) then
               lit "\u00" ++ [hexDigit (n / 16); hexDigit (n mod 16)]
             else [c])
            ++ quoteBody fuel' s1
          else
            match utf8Len s with
            | None => lit "\ufffd" ++ quoteBody fuel' s1
            | Some k =>
                let r := take k s in
                (if bytes_eqb r [ascii_of_code 226; ascii_of_code 128; ascii_of_code 168]
                 then lit "\u2028"
                 else if bytes_eqb r [ascii_of_code 226; ascii_of_code 128; ascii_of_code 169]
                 then lit "\u2029"
                 else r)
                ++ quoteBody fuel' (drop k s)
            end
      end
  end.

(** [json.Marshal(s)] for a string [s]; it has no error case. *)
Definition jsonMarshalString (s : bytes) : bytes :=
  [ascii_of_code 34] ++ quoteBody (length s) s ++ [ascii_of_code 34].

(** [json.Marshal(i)] for an [int64]. *)
Definition jsonMarshalInt64 (i : Z) : bytes := FormatInt i.

(** ** Errors as text, and [strconv.Quote] *)

(** [err.Error()]. *)
Definition errorString (e : goerr) : string :=
  match e with
  | io_EOF => "EOF"
  | io_ErrUnexpectedEOF => "unexpected EOF"
  | io_ErrClosedPipe => "io: read/write on closed pipe"
  | strconv_ErrSyntax => "invalid syntax"
  | strconv_ErrRange => "value out of range"
  | json_Error => "invalid character"
  | context_DeadlineExceeded => "context deadline exceeded"
  | errorf msg => msg
  end.

(** [strconv.IsPrint] on the runes up to U+00FF. *)
Definition IsPrintLatin1 (r : Z) : bool :=
  ((32 <=? r) && (r <=? 126))
  || ((161 <=? r) && (r <=? 255) && negb (r =? 173)).

(** [strconv.Quote]: the bytes between the quotes. The quote and the
    backslash take a backslash; another printable ASCII byte is written as
    it is; the control bytes have their escapes, by letter or as [\x] and
    two hexadecimal digits. A byte that begins no well-formed UTF-8
    sequence is written as [\x] and its two digits. A rune from U+0080 to
    U+00FF is written as it is when [IsPrint] holds of it, and as [\u00]
    and its two digits otherwise. The table of [IsPrint] for the runes
    above U+00FF is not modelled: such a rune is written as it is, which
    is what [Quote] does for those of them that are printable. *)
Fixpoint quoteRunes (fuel : nat) (s : bytes) : bytes :=
  match fuel with
  | O => []
  | S fuel' =>
      match s with
      | [] => []
      | c :: s1 =>
          let n := code c in
          let hex2 := [hexDigit (n / 16); hexDigit (n mod 16)] in
          if n <? 128 then
            (if (n =? 34) || (n =? 92) then [ascii_of_code 92; c]
             else if (32 <=? n) && (n <=? 126) then [c]
             else if n =? 7 then lit "\a"
             else if n =? 8 then lit "\b"
             else if n =? 12 then lit "\f"
             else if n =? 10 then lit "\n"
             else if n =? 13 then lit "\r"
             else if n =? 9 then lit "\t"
             else if n =? 11 then lit "\v"
             else lit "\x" ++ hex2)
            ++ quoteRunes fuel' s1
          else
            match utf8Len s with
            | None => lit "\x" ++ hex2 ++ quoteRunes fuel' s1
            | Some k =>
                (match s1 with
                 | c2 :: _ =>
                     let r := (n - 192) * 64 + (code c2 - 128) in
                     if (k =? 2)%nat && (r <=? 255) && negb (IsPrintLatin1 r)
                     then lit "\u00" ++ [hexDigit (r / 16); hexDigit (r mod 16)]
                     else take k s
                 | [] => take k s
                 end)
                ++ quoteRunes fuel' (drop k s)
            end
      end
  end.

Definition strconv_Quote (s : bytes) : bytes :=
  [ascii_of_code 34] ++ quoteRunes (length s) s ++ [ascii_of_code 34].

(** The text of a [*strconv.NumError]: the function, the quoted input and
    the cause. *)
Definition NumError_Error (fn : string) (num : bytes) (e : goerr) : string :=
  "strconv." +:+ fn +:+ ": parsing " +:+ string_of_list_ascii (strconv_Quote num)
    +:+ ": " +:+ errorString e.

(** ** The framed codec *)

(** The largest allocation [make([]byte, n)] accepts (64-bit Linux); a
    length that is negative or above it panics. *)
Definition maxAlloc : Z := 2 ^ 48.

Definition ContentLengthPrefix : bytes := lit "Content-Length:".

(** The header loop of [readLSPMessage]: lines are read until a blank one;
    a [Content-Length:] line sets [contentLength], other lines are skipped.
    Every line read consumes at least one byte, so a fuel of one more than
    the length of the stream is never used up. *)
Fixpoint readHeaders (fuel : nat) (r : bytes) (contentLength : Z)
  : result (Z * bytes) :=
  match fuel with
  | O => Err io_EOF
  | S fuel' =>
      let '(line, rest, err) := ReadString newline r in
      match err with
      | Some e => Err e
      | None =>
          let line := TrimSpace line in
          match line with
          | [] => Ok (contentLength, rest)
          | _ :: _ =>
              if HasPrefix line ContentLengthPrefix then
                let lengthStr := TrimSpace (TrimPrefix line ContentLengthPrefix) in
                match Atoi lengthStr with
                | Err e =>
                    Err (errorf ("invalid Content-Length: "
                                   +:+ NumError_Error "Atoi" lengthStr e))
                | Ok n => readHeaders fuel' rest n
                end
              else readHeaders fuel' rest contentLength
          end
      end
  end.

(** [readLSPMessage] where the runtime has the memory for every length
    that [make] accepts: the body of the next frame and the rest of the
    stream. *)
Definition readLSPMessage (r : bytes) : outcome (bytes * bytes) :=
  match readHeaders (S (length r)) r 0 with
  | Err e => Fail e
  | Ok (contentLength, rest) =>
      if contentLength =? 0 then Fail (errorf "missing Content-Length header")
      else if (contentLength <? 0) || (maxAlloc <? contentLength) then Panic
      else
        match ReadFull (Z.to_nat contentLength) rest with
        | Err e => Fail e
        | Ok (body, rest') => Ret (body, rest')
        end
  end.

(** What a call comes to on a machine: an outcome, or the end of the
    process by the fatal error [runtime: out of memory], which is no panic
    and which no [recover] catches. *)
Inductive execution (A : Type) : Type :=
| Finished (o : outcome A)
| OutOfMemory.
Arguments Finished {A} o.
Arguments OutOfMemory {A}.

(** [make([]byte, n)] when [heap] is the longest slice the runtime can
    allocate at that moment: a length that is negative or above [maxAlloc]
    panics ([makeslice: len out of range]); another length that the runtime
    cannot allocate ends the process. *)
Inductive Allocation : Type :=
| Allocated
| LenOutOfRange
| NoMemory.

Definition make_bytes (heap n : Z) : Allocation :=
  if (n <? 0) || (maxAlloc <? n) then LenOutOfRange
  else if heap <? n then NoMemory
  else Allocated.

(** [readLSPMessage] on such a machine: the slice for the body is made
    for the length the header announces, before any byte of the body is
    read. *)
Definition readLSPMessageOn (heap : Z) (r : bytes) : execution (bytes * bytes) :=
  match readHeaders (S (length r)) r 0 with
  | Err e => Finished (Fail e)
  | Ok (contentLength, rest) =>
      if contentLength =? 0
      then Finished (Fail (errorf "missing Content-Length header"))
      else
        match make_bytes heap contentLength with
        | LenOutOfRange => Finished Panic
        | NoMemory => OutOfMemory
        | Allocated =>
            match ReadFull (Z.to_nat contentLength) rest with
            | Err e => Finished (Fail e)
            | Ok (body, rest') => Finished (Ret (body, rest'))
            end
        end
  end.

(** The bytes [writeMessage] emits for a marshalled body: the header
    [fmt.Sprintf("Content-Length: %d\r\n\r\n", len(body))], then the body. *)
Definition frameHeader (body : bytes) : bytes :=
  lit "Content-Length: " ++ FormatInt (Z.of_nat (length body))
    ++ [ascii_of_code 13; newline; ascii_of_code 13; newline].

Definition frame (body : bytes) : bytes := frameHeader body ++ body.

(** A byte that no white-space rune contains: an ASCII byte that is not
    white space. A string whose first and last bytes are such is left as it
    is by [TrimSpace]. *)
Definition plain (c : ascii) : Prop := code c < 128 /\ isAsciiSpace c = false.

Definition plainEnds (s : bytes) : Prop :=
  (exists c s', s = c :: s' /\ plain c) /\ (exists s' d, s = s' ++ [d] /\ plain d).

(** ** The request-id codec: [JSONRPCID] *)

Record JSONRPCID : Type := mkID {
  intValue : option Z;
  strValue : option bytes
}.

(** The zero value [JSONRPCID{}]. *)
Definition zeroID : JSONRPCID := mkID None None.

(** [JSONRPCID.UnmarshalJSON] (pointer receiver): [id] is updated in place, so
    a field that is not assigned keeps its value. *)
Definition UnmarshalJSON (id : JSONRPCID) (data : bytes) : result JSONRPCID :=
  if bytes_eqb data (lit "null") then Ok id
  else
    match jsonUnmarshalInt64 data with
    | Ok i => Ok (mkID (Some i) (strValue id))
    | Err _ =>
        match jsonUnmarshalString data with
        | Ok s =>
            match ParseInt s with
            | Ok parsed => Ok (mkID (Some parsed) (Some s))
            | Err _ => Ok (mkID (intValue id) (Some s))
            end
        | Err _ =>
            Err (errorf ("id must be string, number, or null, got: "
                           +:+ string_of_list_ascii data))
        end
    end.

(** [JSONRPCID.MarshalJSON]; none of its branches returns an error. *)
Definition MarshalJSON (id : JSONRPCID) : bytes :=
  match intValue id with
  | Some i => jsonMarshalInt64 i
  | None =>
      match strValue id with
      | Some s => jsonMarshalString s
      | None => lit "null"
      end
  end.

Definition AsInt64 (id : JSONRPCID) : Z :=
  match intValue id with
  | Some i => i
  | None => 0
  end.

Definition IsSet (id : JSONRPCID) : bool :=
  match intValue id, strValue id with
  | None, None => false
  | _, _ => true
  end.

(** An id as it stands in a message: [None] when the message has no [id]
    member, otherwise the bytes of its value. Parsing it into a
    [JSONRPCID] value (the zero value when the member is absent, so
    [UnmarshalJSON] is not called) and serializing the result. *)
Definition parseID (wire : option bytes) : result JSONRPCID :=
  match wire with
  | None => Ok zeroID
  | Some data => UnmarshalJSON zeroID data
  end.

Definition parseThenSerialize (wire : option bytes) : result bytes :=
  match parseID wire with
  | Ok id => Ok (MarshalJSON id)
  | Err e => Err e
  end.

(** ** The polling watcher ([polling_watcher.go]) *)

(** [FileChange]: [Type] is 1 for created, 2 for changed, 3 for deleted. *)
Record FileChange : Type := mkFileChange {
  URI : string;
  ChangeType : Z
}.

Global Instance FileChange_eq_dec : EqDecision FileChange.
Proof. solve_decision. Defined.

Definition Created : Z := 1.
Definition Changed : Z := 2.
Definition Deleted : Z := 3.

(** The snapshot: path to modification time (seconds, [int64]). *)
Abbreviation snapshot := (gmap string Z).

(** [filepath.ToSlash] where the path separator is the slash (the daemon
    runs on Linux). *)
Definition ToSlash (path : string) : string := path.

Definition pathToURI (path : string) : string :=
  let path := ToSlash path in
  let path := if String.prefix "/" path then path else "/" +:+ path in
  "file://" +:+ path.

Record PollingWatcher : Type := mkPollingWatcher {
  pw_workspaceDir : string;
  pw_extensions : list string;
  pw_interval : Z;
  pw_workers : Z;
  (** [sendNotifyFunc != nil], [isIndexingFunc != nil] *)
  pw_hasNotifyFunc : bool;
  pw_hasIsIndexingFunc : bool;
  fileMap : snapshot;
  running : bool
}.

Definition set_fileMap (pw : PollingWatcher) (m : snapshot) : PollingWatcher :=
  mkPollingWatcher (pw_workspaceDir pw) (pw_extensions pw) (pw_interval pw)
    (pw_workers pw) (pw_hasNotifyFunc pw) (pw_hasIsIndexingFunc pw) m (running pw).

Definition set_running (pw : PollingWatcher) (r : bool) : PollingWatcher :=
  mkPollingWatcher (pw_workspaceDir pw) (pw_extensions pw) (pw_interval pw)
    (pw_workers pw) (pw_hasNotifyFunc pw) (pw_hasIsIndexingFunc pw) (fileMap pw) r.

(** [NewPollingWatcher]; the interval is in nanoseconds. *)
Definition NewPollingWatcher (workspaceDir : string) (interval workers : Z)
    (hasNotifyFunc hasIsIndexingFunc : bool) : PollingWatcher :=
  mkPollingWatcher workspaceDir [".bsl"; ".os"]%string interval workers
    hasNotifyFunc hasIsIndexingFunc ∅ false.

(** [Start]: the first scan is the baseline and emits nothing. The scan
    itself (a walk of the workspace) is an input: [initialFiles] is what
    [pw.scan()] returned. *)
Definition PollingWatcher_Start (pw : PollingWatcher) (initialFiles : snapshot)
  : PollingWatcher :=
  if running pw then pw else set_fileMap (set_running pw true) initialFiles.

(** The first loop of [checkForChanges]: new and changed files. Go ranges
    over a map in no fixed order; the order of [map_to_list] stands for
    it. *)
Definition changesNew (oldFiles newFiles : snapshot) : list FileChange :=
  omap (fun '(path, newMtime) =>
          match oldFiles !! path with
          | None => Some (mkFileChange (pathToURI path) Created)
          | Some oldMtime =>
              if bool_decide (newMtime = oldMtime) then None
              else Some (mkFileChange (pathToURI path) Changed)
          end)
       (map_to_list newFiles).

(** The second loop: deleted files. *)
Definition changesDeleted (oldFiles newFiles : snapshot) : list FileChange :=
  omap (fun '(path, _) =>
          match newFiles !! path with
          | None => Some (mkFileChange (pathToURI path) Deleted)
          | Some _ => None
          end)
       (map_to_list oldFiles).

(** [checkForChanges]. [newFiles] is what [pw.scan()] returned and
    [indexing] what [isIndexingFunc()] returns when it is called. The
    result is the watcher and the argument of the call of [sendNotifyFunc],
    if it is called. *)
Definition checkForChanges (pw : PollingWatcher) (newFiles : snapshot)
    (indexing : bool) : PollingWatcher * option (list FileChange) :=
  let oldFiles := fileMap pw in
  let pw := set_fileMap pw newFiles in
  let changes := changesNew oldFiles newFiles ++ changesDeleted oldFiles newFiles in
  if (0 <? length changes)%nat then
    if pw_hasIsIndexingFunc pw && indexing then (pw, None)
    else if pw_hasNotifyFunc pw then (pw, Some changes)
    else (pw, None)
  else (pw, None).

(** The polling loop over a sequence of ticks, each with the scan result and
    the indexing flag at that tick: the watcher after the last tick and the
    notifications sent, in order. *)
Fixpoint runPollingLoop (pw : PollingWatcher) (ticks : list (snapshot * bool))
  : PollingWatcher * list (list FileChange) :=
  match ticks with
  | [] => (pw, [])
  | (newFiles, indexing) :: ticks' =>
      let '(pw1, sent) := checkForChanges pw newFiles indexing in
      let '(pw2, sents) := runPollingLoop pw1 ticks' in
      (pw2, match sent with Some changes => changes :: sents | None => sents end)
  end.

(** Example data: a watcher started on a workspace with one source file,
    and two later scans of it. *)
Definition scan_a (mtime : Z) : snapshot := {[ "/projects/a.bsl"%string := mtime ]}.

Definition watcher0 : PollingWatcher :=
  PollingWatcher_Start (NewPollingWatcher "/projects" 30000000000 8 true true)
    (scan_a 100).

(** ** Time and floating point *)

(** A [time.Time] as the nanoseconds since the zero [Time]; a
    [time.Duration] is a 64-bit count of nanoseconds. *)
Abbreviation Time := Z (only parsing).
Abbreviation Duration := Z (only parsing).

Definition Time_IsZero (t : Time) : bool := t =? 0.

Definition Second : Duration := 1000000000.
Definition Minute : Duration := 60 * Second.

(** [t.Sub(u)], which saturates at the ends of [Duration]. *)
Definition Time_Sub (t u : Time) : Duration :=
  Z.max minInt64 (Z.min maxInt64 (t - u)).

(** The conversion [float64(i)] of an integer: the nearest binary64. *)
Definition float64_of_int (i : Z) : float :=
  SF2Prim (SpecFloat.binary_normalize prec emax i 0 false).

(** The conversion [int(f)]: the fraction is discarded. For a value that
    is out of range, infinite or not a number the result is the one of
    amd64, the smallest [int64]. *)
Definition int_of_float64 (f : float) : Z :=
  match Prim2SF f with
  | S754_zero _ => 0
  | S754_finite s m e =>
      let v := if 0 <=? e then Z.pos m * 2 ^ e else Z.pos m / 2 ^ (- e) in
      let v := if s then - v else v in
      if in_int64 v then v else minInt64
  | S754_infinity _ | S754_nan => minInt64
  end.

(** [d.Seconds()]. *)
Definition Duration_Seconds (d : Duration) : float :=
  PrimFloat.add (float64_of_int (Z.quot d Second))
    (PrimFloat.div (float64_of_int (Z.rem d Second)) 1e9%float).

(** ** Scanning [N/M] out of a progress message ([fmt.Sscanf]) *)

(** [ss.SkipSpace] of a scan in which a newline is no space: [None] is the
    error [unexpected newline]. *)
Fixpoint skipSpace (s : bytes) : option bytes :=
  match s with
  | c1 :: s1 =>
      if code c1 =? 10 then None
      else if isAsciiSpace c1 then skipSpace s1
      else
        match s1 with
        | c2 :: s2 =>
            if space2 c1 c2 then skipSpace s2
            else
              match s2 with
              | c3 :: s3 => if space3 c1 c2 c3 then skipSpace s3 else Some s
              | [] => Some s
              end
        | [] => Some s
        end
  | [] => Some []
  end.

(** [ss.scanNumber] for the verb [%d]: the longest run of decimal digits
    that [s] starts with, and what follows it. (An underscore is a digit
    for the verb [%v] only.) *)
Fixpoint spanNumber (s : bytes) : bytes * bytes :=
  match s with
  | c :: s' =>
      if isDigit c then
        let '(tok, rest) := spanNumber s' in (c :: tok, rest)
      else ([], s)
  | [] => ([], [])
  end.

(** [ss.scanInt] for the verb [%d]: white space, an optional sign, the
    digits; the token is then parsed by [strconv.ParseInt]. *)
Definition scanInt (s : bytes) : option (Z * bytes) :=
  match skipSpace s with
  | None => None
  | Some s1 =>
      let '(sign, s2) :=
        match s1 with
        | c :: s' => if (code c =? 43) || (code c =? 45) then ([c], s') else ([], s1)
        | [] => ([], [])
        end in
      let '(tok, s3) := spanNumber s2 in
      match tok with
      | [] => None
      | _ :: _ =>
          match ParseInt (sign ++ tok) with
          | Ok i => Some (i, s3)
          | Err _ => None
          end
      end
  end.

(** [fmt.Sscanf(s, "%d/%d", &c, &t)] when it returns [n = 2] and no error:
    the two numbers. *)
Definition sscanf_d_slash_d (s : bytes) : option (Z * Z) :=
  match scanInt s with
  | None => None
  | Some (c, s1) =>
      match s1 with
      | sl :: s2 =>
          if code sl =? 47 then
            match scanInt s2 with
            | Some (t, _) => Some (c, t)
            | None => None
            end
          else None
      | [] => None
      end
  end.

(** [parseProgressMessage]: the first [N/M] with [M > 0] that starts at a
    digit of the message. *)
Fixpoint parseProgressMessage (msg : bytes) : Z * Z :=
  match msg with
  | [] => (0, 0)
  | ch :: msg' =>
      if isDigit ch then
        match sscanf_d_slash_d msg with
        | Some (c, t) => if 0 <? t then (c, t) else parseProgressMessage msg'
        | None => parseProgressMessage msg'
        end
      else parseProgressMessage msg'
  end.

(** ** The progress tracker *)

(** The fields of [SessionManager] that [indexingMu] guards. *)
Record IndexingState : Type := mkIndexing {
  indexingActive : bool;
  indexingTitle : bytes;
  indexingMessage : bytes;
  indexingCurrent : Z;
  indexingTotal : Z;
  indexingPercentage : Z;
  indexingStartedAt : Time;
  indexingFirstStartedAt : Time;
  indexingLastUpdate : Time;
  indexingSpeed : float
}.

Definition IndexingState_zero : IndexingState :=
  mkIndexing false [] [] 0 0 0 0 0 0 0%float.

(** [params.value] of a [$/progress] notification. *)
Record ProgressValue : Type := mkProgress {
  pv_kind : string;
  pv_title : bytes;
  pv_message : bytes;
  pv_percentage : Z
}.

(** The constants [0.7] and [0.3] of the rolling average, as the binary64
    values nearest to them. *)
Definition weightOld : float := 0x1.6666666666666p-1%float.
Definition weightNew : float := 0x1.3333333333333p-2%float.

(** The update of the indexing state in [handleNotification], case
    [$/progress], at time [now]. *)
Definition handleProgress (ix : IndexingState) (v : ProgressValue) (now : Time)
  : IndexingState :=
  if String.eqb (pv_kind v) "begin" then
    let isNewCycle :=
      Time_IsZero (indexingFirstStartedAt ix)
      || (30 * Second <? Time_Sub now (indexingLastUpdate ix)) in
    if isNewCycle then
      mkIndexing true (pv_title v) (pv_message v) 0 0 (pv_percentage v)
        now now now 0%float
    else
      mkIndexing true (pv_title v) (pv_message v) (indexingCurrent ix)
        (indexingTotal ix) (pv_percentage v) now (indexingFirstStartedAt ix)
        now (indexingSpeed ix)
  else if String.eqb (pv_kind v) "report" then
    let '(current, total) := parseProgressMessage (pv_message v) in
    let speed :=
      if (0 <? total) && (0 <? indexingCurrent ix) && (indexingCurrent ix <? current)
      then
        let elapsed := Duration_Seconds (Time_Sub now (indexingLastUpdate ix)) in
        if PrimFloat.ltb 0%float elapsed then
          let instantSpeed :=
            PrimFloat.div (float64_of_int (wrap64 (current - indexingCurrent ix)))
              elapsed in
          if PrimFloat.ltb 0%float (indexingSpeed ix)
          then PrimFloat.add (PrimFloat.mul (indexingSpeed ix) weightOld)
                 (PrimFloat.mul instantSpeed weightNew)
          else instantSpeed
        else indexingSpeed ix
      else indexingSpeed ix in
    mkIndexing (indexingActive ix) (indexingTitle ix) (pv_message v)
      (if 0 <? total then current else indexingCurrent ix)
      (if 0 <? total then total else indexingTotal ix)
      (pv_percentage v) (indexingStartedAt ix) (indexingFirstStartedAt ix)
      now speed
  else if String.eqb (pv_kind v) "end" then
    mkIndexing false
      (match pv_message v with [] => indexingTitle ix | _ :: _ => pv_message v end)
      (pv_message v)
      (if 0 <? indexingTotal ix then indexingTotal ix else indexingCurrent ix)
      (indexingTotal ix) 100 (indexingStartedAt ix) (indexingFirstStartedAt ix)
      now (indexingSpeed ix)
  else ix.

(** ** The session manager *)

(** The write end of the pipe to the LSP server: the bytes written so far,
    and how many further calls of [Write] succeed before the pipe breaks
    ([None]: all of them). *)
Record Pipe : Type := mkPipe {
  written : bytes;
  writesLeft : option nat
}.

Definition Pipe_Write (p : Pipe) (data : bytes) : Pipe * result unit :=
  match writesLeft p with
  | Some O => (p, Err io_ErrClosedPipe)
  | Some (S n) => (mkPipe (written p ++ data) (Some n), Ok tt)
  | None => (mkPipe (written p ++ data) None, Ok tt)
  end.

(** The pipe takes [k] more writes. *)
Definition canWrite (p : Pipe) (k : nat) : Prop :=
  match writesLeft p with
  | None => True
  | Some n => (k <= n)%nat
  end.

(** The parameter structs the handlers decode. *)
Record DidOpenParams : Type := mkDidOpen {
  do_uri : string;
  do_languageId : bytes;
  do_version : Z;
  do_text : bytes
}.

Record DidCloseParams : Type := mkDidClose {
  dc_uri : string
}.

(** The [params] member of an outgoing message, by the Go value it is
    built from. *)
Inductive Params : Type :=
| PNil                                   (* nil *)
| PEmptyObject                           (* map[string]interface{}{} *)
| PInitialize (workspaceDir : string)    (* the capabilities map of initialize *)
| PInterface (raw : bytes)               (* what json.Unmarshal(raw, &p) left in p interface{} *)
| PDidOpenStruct (p : DidOpenParams)
| PDidCloseStruct (p : DidCloseParams)
| PCloseParams (uri : string)            (* {"textDocument": {"uri": uri}} *)
| PChanges (changes : list FileChange).  (* {"changes": [{"uri", "type"}, ...]} *)

(** An outgoing message: the map literal of [sendRequest] (with an id) or
    of [sendNotification] (without). *)
Record Msg : Type := mkMsg {
  msg_id : option Z;
  msg_method : string;
  msg_params : Params
}.

(** The [error] member of a response. *)
Record ResponseError : Type := mkResponseError {
  err_code : Z;
  err_message : bytes
}.

(** What [json.Unmarshal(msg, &baseMsg)] finds in a message from the
    server, before the id is decoded: [bm_id] holds the bytes of the [id]
    member when there is one and it is not [null] (the decoder then
    allocates a [JSONRPCID] and calls its [UnmarshalJSON] on them). *)
Record BaseMsgFields : Type := mkBaseMsgFields {
  bm_id : option bytes;
  bm_method : string;
  bm_result : bytes;
  bm_error : option ResponseError
}.

(** A request line of the API. *)
Record APIRequest : Type := mkAPIRequest {
  req_jsonrpc : bytes;
  req_id : Z;
  req_method : string;
  req_params : bytes
}.

(** [encoding/json] on the message types of the daemon: the encoder of
    outgoing messages and the decoders of incoming ones. The development is
    parametric in it. *)
Class JSON : Type := {
  json_Marshal : Msg -> bytes;
  unmarshal_baseMsg : bytes -> result BaseMsgFields;
  unmarshal_progress : bytes -> result ProgressValue;
  unmarshal_didOpen : bytes -> result DidOpenParams;
  unmarshal_didClose : bytes -> result DidCloseParams;
  unmarshal_request : bytes -> result APIRequest
}.

(** [lspResponse]. *)
Record lspResponse : Type := mkLspResponse {
  Result : bytes;
  RespErr : option ResponseError
}.

Record SessionManager : Type := mkSessionManager {
  sm_workspaceDir : string;
  (** [cmd], [stdin] *)
  sm_pid : Z;
  sm_stdin : Pipe;
  sm_initialized : bool;
  sm_initResult : bytes;
  sm_capabilities : bytes;
  (** guarded by [pendingMu]; a channel is named by its number *)
  requestID : Z;
  pending : gmap Z nat;
  (** guarded by [openDocsMu] *)
  openDocs : gmap string bool;
  (** guarded by [indexingMu] *)
  indexing : IndexingState
}.

Definition NewSessionManager (workspaceDir : string) (pid : Z) (stdin : Pipe)
  : SessionManager :=
  mkSessionManager workspaceDir pid stdin false [] [] 0 ∅ ∅ IndexingState_zero.

Definition set_stdin (sm : SessionManager) (p : Pipe) : SessionManager :=
  mkSessionManager (sm_workspaceDir sm) (sm_pid sm) p (sm_initialized sm)
    (sm_initResult sm) (sm_capabilities sm) (requestID sm) (pending sm)
    (openDocs sm) (indexing sm).

Definition set_pending (sm : SessionManager) (rid : Z) (pend : gmap Z nat)
  : SessionManager :=
  mkSessionManager (sm_workspaceDir sm) (sm_pid sm) (sm_stdin sm) (sm_initialized sm)
    (sm_initResult sm) (sm_capabilities sm) rid pend (openDocs sm) (indexing sm).

Definition set_openDocs (sm : SessionManager) (docs : gmap string bool)
  : SessionManager :=
  mkSessionManager (sm_workspaceDir sm) (sm_pid sm) (sm_stdin sm) (sm_initialized sm)
    (sm_initResult sm) (sm_capabilities sm) (requestID sm) (pending sm)
    docs (indexing sm).

Definition set_indexing (sm : SessionManager) (ix : IndexingState)
  : SessionManager :=
  mkSessionManager (sm_workspaceDir sm) (sm_pid sm) (sm_stdin sm) (sm_initialized sm)
    (sm_initResult sm) (sm_capabilities sm) (requestID sm) (pending sm)
    (openDocs sm) ix.

Definition set_initialized (sm : SessionManager) (initResult caps : bytes)
  : SessionManager :=
  mkSessionManager (sm_workspaceDir sm) (sm_pid sm) (sm_stdin sm) true
    initResult caps (requestID sm) (pending sm) (openDocs sm) (indexing sm).

Section Session.

Context {J : JSON}.

(** [writeMessage]: the message is marshalled, then the header and the
    body are written under the lock [mu], so the two writes of one
    message are never interleaved with those of another. *)
Definition writeMessage (sm : SessionManager) (msg : Msg)
  : SessionManager * result unit :=
  let body := json_Marshal msg in
  let '(p1, r1) := Pipe_Write (sm_stdin sm) (frameHeader body) in
  match r1 with
  | Err e => (set_stdin sm p1, Err e)
  | Ok _ =>
      let '(p2, r2) := Pipe_Write p1 body in
      (set_stdin sm p2, r2)
  end.

Definition sendNotification (sm : SessionManager) (method : string)
    (params : Params) : SessionManager * result unit :=
  writeMessage sm (mkMsg None method params).

Definition IsIndexing (sm : SessionManager) : bool :=
  indexingActive (indexing sm).

(** [handleNotification]; only [$/progress] changes the state. *)
Definition handleNotification (sm : SessionManager) (method : string)
    (msg : bytes) (now : Time) : SessionManager :=
  if String.eqb method "$/progress" then
    match unmarshal_progress msg with
    | Ok v => set_indexing sm (handleProgress (indexing sm) v now)
    | Err _ => sm
    end
  else sm.

(** [handleDidOpen]. *)
Definition handleDidOpen (sm : SessionManager) (params : bytes)
  : SessionManager * result unit :=
  match unmarshal_didOpen params with
  | Err e => (sm, Err e)
  | Ok p =>
      let alreadyOpen := default false (openDocs sm !! do_uri p) in
      let sm := set_openDocs sm (<[do_uri p := true]> (openDocs sm)) in
      if alreadyOpen then
        let '(sm, r) :=
          sendNotification sm "textDocument/didClose" (PCloseParams (do_uri p)) in
        match r with
        | Err e =>
            (sm, Err (errorf ("failed to close document for refresh: "
                                +:+ errorString e)))
        | Ok _ => sendNotification sm "textDocument/didOpen" (PDidOpenStruct p)
        end
      else sendNotification sm "textDocument/didOpen" (PDidOpenStruct p)
  end.

(** [handleDidClose]. *)
Definition handleDidClose (sm : SessionManager) (params : bytes)
  : SessionManager * result unit :=
  match unmarshal_didClose params with
  | Err e => (sm, Err e)
  | Ok p =>
      let sm := set_openDocs sm (delete (dc_uri p) (openDocs sm)) in
      sendNotification sm "textDocument/didClose" (PDidCloseStruct p)
  end.

(** The bytes a call of [writeMessage] puts on the pipe. *)
Definition emittedBy (sm : SessionManager) (msg : Msg) : bytes :=
  drop (length (written (sm_stdin sm)))
    (written (sm_stdin (fst (writeMessage sm msg)))).

End Session.

(** ** [session/status] *)

(** The [indexing] object of the status and the status itself: the maps
    [getStatus] builds, with a member that may be missing as an option. *)
Record IndexingStatus : Type := mkIndexingStatus {
  st_state : string;
  st_current : Z;
  st_total : Z;
  st_message : bytes;
  st_eta_seconds : option Z;
  st_elapsed_seconds : option Z
}.

Record Status : Type := mkStatus {
  st_initialized : bool;
  st_openDocuments : Z;
  st_pid : Z;
  st_indexing : IndexingStatus
}.

(** The two conditions [getStatus] computes from the indexing state. *)
Definition status_isActive (ix : IndexingState) : bool :=
  indexingActive ix
  || ((0 <? indexingTotal ix) && (indexingCurrent ix <? indexingTotal ix)).

Definition status_isComplete (ix : IndexingState) : bool :=
  (0 <? indexingTotal ix) && (indexingTotal ix <=? indexingCurrent ix).

(** [getStatus], called at time [now]. *)
Definition getStatus (sm : SessionManager) (now : Time) : Status :=
  let ix := indexing sm in
  let isActive := status_isActive ix in
  let isComplete := status_isComplete ix in
  let state :=
    if isActive then "indexing"%string
    else if isComplete then "complete"%string
    else "idle"%string in
  let eta :=
    if isActive && PrimFloat.ltb 0%float (indexingSpeed ix)
       && (indexingCurrent ix <? indexingTotal ix)
    then
      let remaining := wrap64 (indexingTotal ix - indexingCurrent ix) in
      Some (int_of_float64 (PrimFloat.div (float64_of_int remaining) (indexingSpeed ix)))
    else None in
  let startTime :=
    if Time_IsZero (indexingFirstStartedAt ix) then indexingStartedAt ix
    else indexingFirstStartedAt ix in
  let elapsed :=
    if negb (Time_IsZero startTime) then
      if isActive then
        Some (int_of_float64 (Duration_Seconds (Time_Sub now startTime)))
      else if isComplete then
        Some (int_of_float64
                (Duration_Seconds (Time_Sub (indexingLastUpdate ix) startTime)))
      else None
    else None in
  mkStatus (sm_initialized sm) (Z.of_nat (size (openDocs sm))) (sm_pid sm)
    (mkIndexingStatus state (indexingCurrent ix) (indexingTotal ix)
       (indexingMessage ix) eta elapsed).

(** ** The router of the API *)

(** What a handler returns to the client as [result]. *)
Inductive APIValue : Type :=
| VNil
| VStatus (st : Status)
| VRaw (raw : bytes)
| VAck (ok : bool).

(** The timeout [handleAPIRequest] gives the context of a method. *)
Definition methodTimeout (method : string) : Duration :=
  if String.eqb method "workspace/diagnostic" then 10 * Minute
  else if String.eqb method "textDocument/diagnostic"
          || String.eqb method "textDocument/formatting" then 5 * Minute
  else if String.eqb method "textDocument/rename"
          || String.eqb method "textDocument/prepareRename" then 2 * Minute
  else 90 * Second.

(** The methods that are forwarded to the LSP server as requests. *)
Definition forwardedMethods : list string :=
  [ "textDocument/hover"; "textDocument/definition"; "textDocument/references";
    "textDocument/documentSymbol"; "textDocument/diagnostic";
    "textDocument/implementation"; "textDocument/codeAction";
    "textDocument/formatting"; "textDocument/rename";
    "textDocument/prepareRename"; "textDocument/prepareCallHierarchy";
    "callHierarchy/incomingCalls"; "callHierarchy/outgoingCalls";
    "workspace/symbol"; "workspace/diagnostic" ]%string.

(** The methods with a handler of their own. *)
Definition localMethods : list string :=
  [ "session/status"; "session/capabilities"; "textDocument/didOpen";
    "textDocument/didClose"; "workspace/didChangeWatchedFiles" ]%string.

Definition handledMethods : list string := localMethods ++ forwardedMethods.

Definition isHandled (method : string) : bool :=
  bool_decide (method ∈ handledMethods).

(** The result [sendRequest] returns for a response. *)
Definition responseResult (resp : lspResponse) : result bytes :=
  match RespErr resp with
  | Some e =>
      Err (errorf ("lsp error " +:+ string_of_list_ascii (FormatInt (err_code e))
                     +:+ ": " +:+ string_of_list_ascii (err_message e)))
  | None => Ok (Result resp)
  end.

(** What [handleAPIRequest] comes to: a result at once, or a request to
    forward, whose result is that of [sendRequest] under the timeout. *)
Inductive APIOutcome : Type :=
| Done (sm : SessionManager) (r : result APIValue)
| Forward (method : string) (params : Params) (timeout : Duration).

Section Router.

Context {J : JSON}.

(** [handleAPIRequest], called at time [now]. *)
Definition handleAPIRequest (sm : SessionManager) (method : string)
    (params : bytes) (now : Time) : APIOutcome :=
  if String.eqb method "session/status" then
    Done sm (Ok (VStatus (getStatus sm now)))
  else if String.eqb method "session/capabilities" then
    Done sm (Ok (VRaw (sm_capabilities sm)))
  else if String.eqb method "textDocument/didOpen" then
    let '(sm, r) := handleDidOpen sm params in
    Done sm (match r with Ok _ => Ok VNil | Err e => Err e end)
  else if String.eqb method "textDocument/didClose" then
    let '(sm, r) := handleDidClose sm params in
    Done sm (match r with Ok _ => Ok VNil | Err e => Err e end)
  else if bool_decide (method ∈ forwardedMethods) then
    Forward method (PInterface params) (methodTimeout method)
  else if String.eqb method "workspace/didChangeWatchedFiles" then
    let '(sm, r) := sendNotification sm method (PInterface params) in
    Done sm (match r with Ok _ => Ok (VAck true) | Err e => Err e end)
  else Done sm (Err (errorf ("unknown method: " +:+ method))).

(** [sendRequest] when no other goroutine takes a step between its
    actions: the entry is inserted under a new id, the request is written,
    the response [answer] arrives on the channel ([None]: the deadline
    passes first), and the deferred [delete] removes the entry. The channel
    is shared with no one here and is named 0. *)
Definition sendRequestAlone (sm : SessionManager) (method : string)
    (params : Params) (answer : option lspResponse)
  : SessionManager * result bytes :=
  let id := wrap64 (requestID sm + 1) in
  let sm := set_pending sm id (<[id := 0%nat]> (pending sm)) in
  let '(sm, w) := writeMessage sm (mkMsg (Some id) method params) in
  let r :=
    match w with
    | Err e => Err e
    | Ok _ =>
        match answer with
        | Some resp => responseResult resp
        | None => Err context_DeadlineExceeded
        end
    end in
  (set_pending sm (requestID sm) (delete id (pending sm)), r).

(** A response line of the API: the two map literals of [HandleClient]
    and [sendAPIError]. *)
Inductive APIResponse : Type :=
| RespResult (id : Z) (result : APIValue)
| RespError (id : Z) (code : Z) (message : string).

(** One round of the loop of [HandleClient] on a line read from the
    connection. [answer] is the response of the LSP server if the request
    is forwarded ([None]: none before the deadline). The result is the
    session and the response written, if any. *)
Definition handleLine (sm : SessionManager) (line : bytes) (now : Time)
    (answer : option lspResponse) : SessionManager * option APIResponse :=
  let line := TrimSpace line in
  match line with
  | [] => (sm, None)
  | _ :: _ =>
      match unmarshal_request line with
      | Err _ => (sm, Some (RespError 0 (-32700) "Parse error"))
      | Ok req =>
          let '(sm, r) :=
            match handleAPIRequest sm (req_method req) (req_params req) now with
            | Done sm r => (sm, r)
            | Forward method p _ =>
                let '(sm, r) := sendRequestAlone sm method p answer in
                (sm, match r with Ok raw => Ok (VRaw raw) | Err e => Err e end)
            end in
          match r with
          | Err e => (sm, Some (RespError (req_id req) (-32603) (errorString e)))
          | Ok v => (sm, Some (RespResult (req_id req) v))
          end
      end
  end.

End Router.

(** ** The request broker: [sendRequest] against [readResponses]

    The goroutines of the daemon are interleaved at the granularity of the
    critical sections of [pendingMu]: a system state holds the session, one
    record for each call of [sendRequest] made so far, and the state of the
    reader goroutine. A step is one atomic action of one goroutine. *)

(** Where a call of [sendRequest] stands. *)
Inductive CallerPC : Type :=
| AtWrite                       (* the entry is in [pending]; [writeMessage] is next *)
| AtSelect                      (* waiting in the [select] *)
| AtReturn (r : result bytes)   (* the result is fixed; the deferred [delete] is next *)
| Returned (r : result bytes).  (* [sendRequest] has returned [r] *)

(** A call of [sendRequest]: its id, the message, the buffer of its
    channel [respCh] (capacity one), and where it stands. The channel of
    the [k]-th call is named [k]. *)
Record Caller : Type := mkCaller {
  c_id : Z;
  c_method : string;
  c_params : Params;
  c_buf : option lspResponse;
  c_pc : CallerPC
}.

(** Where [readResponses] stands. While it is blocked in the send
    [ch <- resp] it holds [pendingMu]. *)
Inductive ReaderPC : Type :=
| Reading
| Sending (ch : nat) (resp : lspResponse)
| ReaderReturned (e : goerr)
| ReaderPanicked.

(** What [readResponses] logs. *)
Inductive LogEntry : Type :=
| LogReadError (e : goerr)        (* "LSP read error: ..." *)
| LogParseFailure (body : bytes). (* "Failed to parse LSP message: ..." *)

Record System : Type := mkSystem {
  sys_sm : SessionManager;
  callers : list Caller;
  (** the bytes the LSP server sends from now on, until it closes the pipe *)
  stdout : bytes;
  reader : ReaderPC;
  clock : Time;
  logs : list LogEntry;
  (** history: the responses the reader has handled, each with the key it
      was looked up under, and the responses the callers have received,
      each with the call that received it *)
  arrived : list (Z * lspResponse);
  delivered : list (nat * lspResponse)
}.

(** The state after [Start] has launched [readResponses]. *)
Definition initSystem (sm : SessionManager) (out : bytes) (now : Time) : System :=
  mkSystem (set_pending sm 0 ∅) [] out Reading now [] [] [].

Definition set_caller (s : System) (i : nat) (c : Caller) : System :=
  mkSystem (sys_sm s) (<[i := c]> (callers s)) (stdout s) (reader s) (clock s)
    (logs s) (arrived s) (delivered s).

Definition set_sm (s : System) (sm : SessionManager) : System :=
  mkSystem sm (callers s) (stdout s) (reader s) (clock s) (logs s) (arrived s)
    (delivered s).

Definition set_pc (c : Caller) (pc : CallerPC) : Caller :=
  mkCaller (c_id c) (c_method c) (c_params c) (c_buf c) pc.

Definition set_buf (c : Caller) (buf : option lspResponse) : Caller :=
  mkCaller (c_id c) (c_method c) (c_params c) buf (c_pc c).

(** [pendingMu] is free unless the reader is blocked in a send. *)
Definition lockFree (s : System) : bool :=
  match reader s with
  | Sending _ _ => false
  | _ => true
  end.

(** The actions of the goroutines. *)
Inductive Action : Type :=
| ACall (method : string) (params : Params)  (* a goroutine enters [sendRequest] *)
| AWrite (i : nat)      (* call [i] writes its request *)
| ARecv (i : nat)       (* the [select] of call [i] takes the response *)
| ADeadline (i : nat)   (* the [select] of call [i] takes [ctx.Done()] *)
| ACleanup (i : nat)    (* the deferred [delete] of call [i], then the return *)
| ARead                 (* one round of the loop of [readResponses] *)
| AUnblock              (* the blocked send of the reader completes *)
| AHandle (method : string) (params : bytes) (* an API handler runs [handleAPIRequest] *)
| ATick (t : Time).     (* time passes *)

Section Broker.

Context {J : JSON}.

(** Lines 574 to 579 of [sendRequest], under [pendingMu]. *)
Definition callBegin (s : System) (method : string) (params : Params)
  : option System :=
  if lockFree s then
    let sm := sys_sm s in
    let id := wrap64 (requestID sm + 1) in
    let ch := length (callers s) in
    Some (mkSystem (set_pending sm id (<[id := ch]> (pending sm)))
            (callers s ++ [mkCaller id method params None AtWrite])
            (stdout s) (reader s) (clock s) (logs s) (arrived s) (delivered s))
  else None.

(** The decoding of a message body into [baseMsg]: the fields, and the
    id through [UnmarshalJSON]. An error of [UnmarshalJSON] is an error
    of the whole decoding. *)
Definition decodeBaseMsg (body : bytes)
  : result (option JSONRPCID * BaseMsgFields) :=
  match unmarshal_baseMsg body with
  | Err e => Err e
  | Ok f =>
      match bm_id f with
      | None => Ok (None, f)
      | Some raw =>
          match UnmarshalJSON zeroID raw with
          | Ok id => Ok (Some id, f)
          | Err e => Err e
          end
      end
  end.

(** One round of the loop of [readResponses]. *)
Definition readerRound (s : System) : System :=
  match readLSPMessage (stdout s) with
  | Fail e =>
      mkSystem (sys_sm s) (callers s) (stdout s) (ReaderReturned e) (clock s)
        (logs s ++ [LogReadError e]) (arrived s) (delivered s)
  | Panic =>
      mkSystem (sys_sm s) (callers s) (stdout s) ReaderPanicked (clock s)
        (logs s) (arrived s) (delivered s)
  | Ret (msg, rest) =>
      match decodeBaseMsg msg with
      | Err _ =>
          mkSystem (sys_sm s) (callers s) rest Reading (clock s)
            (logs s ++ [LogParseFailure msg]) (arrived s) (delivered s)
      | Ok (id, f) =>
          let isResponse :=
            match id with
            | Some id => IsSet id && String.eqb (bm_method f) ""
            | None => false
            end in
          if isResponse then
            let idInt := match id with Some id => AsInt64 id | None => 0 end in
            let resp := mkLspResponse (bm_result f) (bm_error f) in
            match pending (sys_sm s) !! idInt with
            | Some ch =>
                match callers s !! ch with
                | Some c =>
                    match c_buf c with
                    | None =>
                        mkSystem (sys_sm s) (<[ch := set_buf c (Some resp)]> (callers s))
                          rest Reading (clock s) (logs s)
                          (arrived s ++ [(idInt, resp)]) (delivered s)
                    | Some _ =>
                        mkSystem (sys_sm s) (callers s) rest (Sending ch resp)
                          (clock s) (logs s) (arrived s ++ [(idInt, resp)]) (delivered s)
                    end
                | None =>
                    mkSystem (sys_sm s) (callers s) rest Reading (clock s) (logs s)
                      (arrived s ++ [(idInt, resp)]) (delivered s)
                end
            | None =>
                mkSystem (sys_sm s) (callers s) rest Reading (clock s) (logs s)
                  (arrived s ++ [(idInt, resp)]) (delivered s)
            end
          else if negb (String.eqb (bm_method f) "") then
            mkSystem (handleNotification (sys_sm s) (bm_method f) msg (clock s))
              (callers s) rest Reading (clock s) (logs s) (arrived s) (delivered s)
          else
            mkSystem (sys_sm s) (callers s) rest Reading (clock s) (logs s)
              (arrived s) (delivered s)
      end
  end.

(** One action of a goroutine; [None] when the action is not enabled in
    [s] (the goroutine waits, or there is no such goroutine). *)
Definition stepAction (s : System) (a : Action) : option System :=
  match a with
  | ACall method params => callBegin s method params
  | AWrite i =>
      match callers s !! i with
      | Some c =>
          match c_pc c with
          | AtWrite =>
              let '(sm, r) :=
                writeMessage (sys_sm s)
                  (mkMsg (Some (c_id c)) (c_method c) (c_params c)) in
              Some (set_caller (set_sm s sm) i
                      (set_pc c (match r with
                                 | Ok _ => AtSelect
                                 | Err e => AtReturn (Err e)
                                 end)))
          | _ => None
          end
      | None => None
      end
  | ARecv i =>
      match callers s !! i with
      | Some c =>
          match c_pc c, c_buf c with
          | AtSelect, Some resp =>
              Some (mkSystem (sys_sm s)
                      (<[i := set_pc (set_buf c None) (AtReturn (responseResult resp))]>
                         (callers s))
                      (stdout s) (reader s) (clock s) (logs s) (arrived s)
                      (delivered s ++ [(i, resp)]))
          | _, _ => None
          end
      | None => None
      end
  | ADeadline i =>
      match callers s !! i with
      | Some c =>
          match c_pc c with
          | AtSelect =>
              Some (set_caller s i (set_pc c (AtReturn (Err context_DeadlineExceeded))))
          | _ => None
          end
      | None => None
      end
  | ACleanup i =>
      match callers s !! i with
      | Some c =>
          match c_pc c with
          | AtReturn r =>
              if lockFree s then
                let sm := sys_sm s in
                Some (set_caller
                        (set_sm s (set_pending sm (requestID sm)
                                     (delete (c_id c) (pending sm))))
                        i (set_pc c (Returned r)))
              else None
          | _ => None
          end
      | None => None
      end
  | ARead =>
      match reader s with
      | Reading => Some (readerRound s)
      | _ => None
      end
  | AUnblock =>
      match reader s with
      | Sending ch resp =>
          match callers s !! ch with
          | Some c =>
              match c_buf c with
              | None =>
                  Some (mkSystem (sys_sm s) (<[ch := set_buf c (Some resp)]> (callers s))
                          (stdout s) Reading (clock s) (logs s) (arrived s)
                          (delivered s))
              | Some _ => None
              end
          | None => None
          end
      | _ => None
      end
  | AHandle method params =>
      match handleAPIRequest (sys_sm s) method params (clock s) with
      | Done sm _ => Some (set_sm s sm)
      | Forward m p _ => callBegin s m p
      end
  | ATick t =>
      if clock s <=? t then
        Some (mkSystem (sys_sm s) (callers s) (stdout s) (reader s) t (logs s)
                (arrived s) (delivered s))
      else None
  end.

(** One step of the system. After a panic of the reader the process is
    gone and nothing is enabled. *)
Definition step (s : System) (a : Action) : option System :=
  match reader s with
  | ReaderPanicked => None
  | _ => stepAction s a
  end.

(** A run: the actions taken one after the other. *)
Fixpoint run (s : System) (tr : list Action) : option System :=
  match tr with
  | [] => Some s
  | a :: tr' =>
      match step s a with
      | Some s' => run s' tr'
      | None => None
      end
  end.

(** [s] is reached from a state in which [readResponses] has just been
    launched. *)
Definition reachable (s : System) : Prop :=
  exists sm out now tr, run (initSystem sm out now) tr = Some s.

(** [readResponses] run on its own, with no other goroutine taking a
    step: rounds until the reader returns, panics or blocks. Every round
    that goes on consumes a frame, so a fuel of the length of the stream
    is never used up. *)
Fixpoint readLoop (fuel : nat) (s : System) : System :=
  match fuel with
  | O => s
  | S fuel' =>
      match reader s with
      | Reading => readLoop fuel' (readerRound s)
      | _ => s
      end
  end.

Definition readResponses (s : System) : System :=
  readLoop (S (length (stdout s))) s.

End Broker.

(** ** The start of the file watcher *)

(** [FileWatcherMode]. *)
Inductive FileWatcherMode : Type :=
| WatcherModeOff
| WatcherModePolling
| WatcherModeFsnotify
| WatcherModeAuto.

(** What [startFileWatcher] starts. *)
Inductive WatcherBackend : Type :=
| NoWatcher
| PollingBackend
| FsnotifyBackend.

(** [startFileWatcher] for a mode; [fsnotifyOk] tells whether
    [startFsnotifyWatcher] succeeds. In mode [auto] a failure of fsnotify
    falls back to polling. *)
Definition startFileWatcher (mode : FileWatcherMode) (fsnotifyOk : bool)
  : result WatcherBackend :=
  match mode with
  | WatcherModeOff => Ok NoWatcher
  | WatcherModePolling => Ok PollingBackend
  | WatcherModeFsnotify =>
      if fsnotifyOk then Ok FsnotifyBackend
      else Err (errorf "failed to create file watcher")
  | WatcherModeAuto =>
      if fsnotifyOk then Ok FsnotifyBackend else Ok PollingBackend
  end.

(** The period of the polls of [startFileWatcherAfterIndexing]. *)
Definition watcherPollPeriod : Duration := 5 * Second.

(** The waiting loop of [startFileWatcherAfterIndexing], entered at time
    [t]: the routine sleeps for the period, reads [indexingActive], and
    goes on while it is set. [ixAt u] is the state of the progress tracker
    at time [u]. [time.Sleep] pauses for the period at least: [late] holds
    by how much each sleep of the run is longer, one entry for each round.
    The result is the time of the poll after which [startFileWatcher] is
    called; [None] when every poll of the run found indexing active. *)
Fixpoint startFileWatcherAfterIndexing (ixAt : Time -> IndexingState) (t : Time)
    (late : list N) : option Time :=
  match late with
  | [] => None
  | d :: late' =>
      let t' := t + watcherPollPeriod + Z.of_N d in
      if indexingActive (ixAt t') then startFileWatcherAfterIndexing ixAt t' late'
      else Some t'
  end.

(** ** [encoding/json] on the messages of the examples

    An instance of [JSON] for the examples: the encoder writes the members
    in the order [json.Marshal] does (the keys of a map sorted, the fields
    of a struct as declared), and a decoder knows the bodies of a table. *)

Definition quote (s : string) : bytes :=
  [ascii_of_code 34] ++ lit s ++ [ascii_of_code 34].

Definition member (key : string) (value : bytes) : bytes :=
  jsonMarshalString (lit key) ++ lit ":" ++ value.

Fixpoint joinComma (l : list bytes) : bytes :=
  match l with
  | [] => []
  | [x] => x
  | x :: l' => x ++ lit "," ++ joinComma l'
  end.

Definition object (members : list bytes) : bytes :=
  lit "{" ++ joinComma members ++ lit "}".

(** The parameters of [initialize]: the map literal of the code, with
    the keys of every map in sorted order. *)
Definition initializeParams (dir : string) : bytes :=
  let uri := jsonMarshalString (lit ("file://" +:+ dir)) in
  object
    [ member "capabilities"
        (object
           [ member "textDocument"
               (object
                  [ member "callHierarchy" (object []);
                    member "definition" (object [ member "linkSupport" (lit "true") ]);
                    member "diagnostic" (object []);
                    member "documentSymbol" (object []);
                    member "hover"
                      (object
                         [ member "contentFormat"
                             (lit "[" ++ joinComma [quote "markdown"; quote "plaintext"]
                                ++ lit "]") ]);
                    member "references" (object []) ]);
             member "window" (object [ member "workDoneProgress" (lit "true") ]);
             member "workspace" (object [ member "workspaceFolders" (lit "true") ]) ]);
      member "processId" (lit "null");
      member "rootUri" uri;
      member "workspaceFolders"
        (lit "[" ++ object [ member "name" (quote "workspace"); member "uri" uri ]
           ++ lit "]") ].

(** The parameters of the examples. A value that a handler has decoded
    from the bytes [raw] of the client is encoded again by the code; the
    examples pass values that are encoded as they came, the empty object
    for one, and no bytes at all are encoded as [null]. For other bytes
    this instance is not the encoder of the code. *)
Definition exampleMarshalParams (p : Params) : bytes :=
  match p with
  | PNil => lit "null"
  | PEmptyObject => lit "{}"
  | PInitialize dir => initializeParams dir
  | PInterface raw =>
      match raw with
      | [] => lit "null"
      | _ :: _ => raw
      end
  | PDidOpenStruct d =>
      object [ member "textDocument"
                 (object [ member "uri" (jsonMarshalString (lit (do_uri d)));
                           member "languageId" (jsonMarshalString (do_languageId d));
                           member "version" (FormatInt (do_version d));
                           member "text" (jsonMarshalString (do_text d)) ]) ]
  | PDidCloseStruct d =>
      object [ member "textDocument"
                 (object [ member "uri" (jsonMarshalString (lit (dc_uri d))) ]) ]
  | PCloseParams uri =>
      object [ member "textDocument"
                 (object [ member "uri" (jsonMarshalString (lit uri)) ]) ]
  | PChanges changes =>
      object [ member "changes"
                 (lit "[" ++ joinComma
                    (map (fun c => object [ member "type" (FormatInt (ChangeType c));
                                            member "uri" (jsonMarshalString (lit (URI c))) ])
                       changes) ++ lit "]") ]
  end.

Definition exampleMarshal (m : Msg) : bytes :=
  object ((match msg_id m with
           | Some i => [member "id" (FormatInt i)]
           | None => []
           end)
          ++ [ member "jsonrpc" (quote "2.0");
               member "method" (jsonMarshalString (lit (msg_method m)));
               member "params" (exampleMarshalParams (msg_params m)) ]).

(** A decoder given by a table of bodies; any other body is an error. *)
Fixpoint decodeTable {A : Type} (table : list (bytes * A)) (body : bytes) : result A :=
  match table with
  | [] => Err json_Error
  | (body', v) :: table' =>
      if bytes_eqb body body' then Ok v else decodeTable table' body
  end.

(** A response with the id [idWire] (the bytes of the id member) and the
    result [null]. *)
Definition responseBody (idWire : bytes) : bytes :=
  object [ member "jsonrpc" (quote "2.0"); member "id" idWire;
           member "result" (lit "null") ].

Definition progressBody (kind : string) (message : string) : bytes :=
  object [ member "jsonrpc" (quote "2.0"); member "method" (quote "$/progress");
           member "params"
             (object [ member "token" (quote "t");
                       member "value"
                         (object [ member "kind" (quote kind);
                                   member "message" (quote message) ]) ]) ].

Definition didOpenBody (uri text : string) : bytes :=
  object [ member "textDocument"
             (object [ member "uri" (quote uri); member "languageId" (quote "bsl");
                       member "version" (lit "1"); member "text" (quote text) ]) ].

Definition requestLine (id : Z) (method : string) : bytes :=
  object [ member "jsonrpc" (quote "2.0"); member "id" (FormatInt id);
           member "method" (quote method); member "params" (lit "{}") ]
  ++ [newline].

Definition exampleJSON : JSON := {|
  json_Marshal := exampleMarshal;
  unmarshal_baseMsg :=
    decodeTable
      [ (responseBody (lit "1"), mkBaseMsgFields (Some (lit "1")) "" (lit "null") None);
        (responseBody (quote "abc"),
         mkBaseMsgFields (Some (quote "abc")) "" (lit "null") None);
        (progressBody "begin" "", mkBaseMsgFields None "$/progress" [] None);
        (progressBody "end" "", mkBaseMsgFields None "$/progress" [] None) ];
  unmarshal_progress :=
    decodeTable
      [ (progressBody "begin" "", mkProgress "begin" [] [] 0);
        (progressBody "end" "", mkProgress "end" [] [] 0) ];
  unmarshal_didOpen :=
    decodeTable
      [ (didOpenBody "file:///X" "old", mkDidOpen "file:///X" (lit "bsl") 1 (lit "old"));
        (didOpenBody "file:///X" "new", mkDidOpen "file:///X" (lit "bsl") 1 (lit "new")) ];
  unmarshal_didClose := decodeTable [];
  unmarshal_request :=
    decodeTable
      [ (TrimSpace (requestLine 7 "textDocument/foo"),
         mkAPIRequest (lit "2.0") 7 "textDocument/foo" (lit "{}"));
        (TrimSpace (requestLine 8 "session/capabilities"),
         mkAPIRequest (lit "2.0") 8 "session/capabilities" (lit "{}")) ]
|}.

(** A session on a healthy pipe, as [NewSessionManager] makes it. *)
Definition session0 : SessionManager :=
  NewSessionManager "/projects" 4242 (mkPipe [] None).

(** The progress of an indexing run that has reported its last file but not
    its end: [begin] at second 1, [50/100] at second 2, [100/100] at
    second 3. *)
Definition indexingAllReported : IndexingState :=
  handleProgress
    (handleProgress
       (handleProgress IndexingState_zero
          (mkProgress "begin" (lit "Indexing") [] 0) (1 * Second))
       (mkProgress "report" [] (lit "50/100 files") 50) (2 * Second))
    (mkProgress "report" [] (lit "100/100 files") 100) (3 * Second).

(** The indexing state when the server begins to index at second 12. *)
Definition indexingBegunLate : IndexingState :=
  handleProgress IndexingState_zero (mkProgress "begin" (lit "Indexing") [] 0)
    (12 * Second).

(** The progress tracker over time when the first notification of the
    server, a [begin], comes at second 12. *)
Definition progressFromSecond12 (u : Time) : IndexingState :=
  if u <? 12 * Second then IndexingState_zero else indexingBegunLate.

(** ** Statements about the broker *)

(** The call is past its [select]. *)
Definition pastSelect (c : Caller) : Prop :=
  match c_pc c with
  | AtReturn _ | Returned _ => True
  | AtWrite | AtSelect => False
  end.

Definition notReturned (c : Caller) : Prop :=
  match c_pc c with
  | Returned _ => False
  | _ => True
  end.

(** The deadline of the call has expired: its [select] took
    [ctx.Done()]. *)
Definition expired (c : Caller) : Prop :=
  c_pc c = AtReturn (Err context_DeadlineExceeded)
  \/ c_pc c = Returned (Err context_DeadlineExceeded).

(** No response for the key [id] has been handled by the reader so far. *)
Definition firstResponse (s : System) (id : Z) : Prop :=
  forall resp, (id, resp) ∉ arrived s.

(** The invariant of the broker. The [k]-th call has the id [k + 1] (as a
    64-bit integer) and [requestID] counts the calls; an entry of [pending]
    names a call with that id that has not returned; a response in the
    buffer of a channel, or in the hand of the blocked reader, was looked up
    under the id of the call that owns the channel; a call has received at
    most one response, one that was looked up under its id, and is past its
    [select] if it has. *)
Definition broker_inv (s : System) : Prop :=
  requestID (sys_sm s) = wrap64 (Z.of_nat (length (callers s)))
  /\ (forall i c, callers s !! i = Some c -> c_id c = wrap64 (Z.of_nat i + 1))
  /\ (forall id ch, pending (sys_sm s) !! id = Some ch ->
        exists c, callers s !! ch = Some c /\ c_id c = id /\ notReturned c)
  /\ (forall i c resp, callers s !! i = Some c -> c_buf c = Some resp ->
        (c_id c, resp) ∈ arrived s)
  /\ (forall ch resp, reader s = Sending ch resp ->
        exists c, callers s !! ch = Some c /\ (c_id c, resp) ∈ arrived s)
  /\ NoDup (map fst (delivered s))
  /\ (forall i resp, (i, resp) ∈ delivered s ->
        exists c, callers s !! i = Some c /\ (c_id c, resp) ∈ arrived s
                  /\ pastSelect c).

(** ** Statements about the framed reader *)

(** A header line that is neither blank nor a [Content-Length] header, and
    a blank line, each without its final newline. *)
Definition otherHeaderLine (line : bytes) : Prop :=
  ~ In newline line
  /\ TrimSpace (line ++ [newline]) <> []
  /\ HasPrefix (TrimSpace (line ++ [newline])) ContentLengthPrefix = false.

Definition blankLine (line : bytes) : Prop :=
  ~ In newline line /\ TrimSpace (line ++ [newline]) = [].

(** A header block: the lines, then the blank line that ends it. *)
Definition headerBlock (lines : list bytes) (blank : bytes) : bytes :=
  concat (map (fun line => line ++ [newline]) lines) ++ blank ++ [newline].

(** A stream that starts with a header block without [Content-Length] and
    goes on with a well-formed frame, the notification that indexing
    begins; and the system that reads it. *)
Definition streamWithoutLength : bytes :=
  headerBlock [lit "Content-Type: application/json" ++ [ascii_of_code 13]]
    [ascii_of_code 13]
  ++ frame (progressBody "begin" "").

Definition systemWithoutLength : System :=
  initSystem session0 streamWithoutLength (1 * Second).

(** The next message on the stream is a response (it has an id that is
    set, and no method) that is looked up under the key [id]. *)
Definition nextResponseFor `{J : JSON} (s : System) (id : Z) : Prop :=
  exists msg rest jid f,
    readLSPMessage (stdout s) = Ret (msg, rest)
    /\ decodeBaseMsg msg = Ok (Some jid, f)
    /\ IsSet jid = true /\ bm_method f = ""%string /\ AsInt64 jid = id.

(** The bytes of an id that is a JSON string: they start with a double
    quote. *)
Definition isJSONString (raw : bytes) : Prop :=
  exists body, raw = ascii_of_code 34 :: body.

(** Example: the server answers the request 1 twice. A call is made and
    written, its deadline expires, and the reader handles both answers. *)
Definition twoAnswers : bytes :=
  frame (responseBody (lit "1")) ++ frame (responseBody (lit "1")).

Definition lateRun : list Action :=
  [ ACall "textDocument/hover" (PInterface (lit "{}")); AWrite 0; ADeadline 0;
    ARead; ARead ].

(** The state of that run after the deadline has expired, before the
    reader has handled an answer. *)
Definition systemExpired : System :=
  default (initSystem session0 twoAnswers 0)
    (@run exampleJSON (initSystem session0 twoAnswers 0)
       [ ACall "textDocument/hover" (PInterface (lit "{}")); AWrite 0; ADeadline 0 ]).

(** A system in which a call waits for its answer while the server sends a
    response whose id is the string ["abc"]. *)
Definition systemStringId : System :=
  default (initSystem session0 (frame (responseBody (quote "abc"))) 0)
    (@run exampleJSON (initSystem session0 (frame (responseBody (quote "abc"))) 0)
       [ ACall "textDocument/hover" (PInterface (lit "{}")); AWrite 0 ]).

(** ** Further definitions *)

(** White space within a line: white-space bytes other than the newline. *)
Definition lineSpaces (ws : bytes) : Prop :=
  Forall (fun c => isAsciiSpace c = true /\ c <> newline) ws.

(** A header line that announces the length [n], with white space around
    its parts, without its final newline. *)
Definition lengthLine (ws0 ws1 : bytes) (n : Z) (ws2 : bytes) : bytes :=
  ws0 ++ ContentLengthPrefix ++ ws1 ++ FormatInt n ++ ws2.

(** The header block [fmt.Sprintf("Content-Length: %d\r\n\r\n", n)]. *)
Definition lengthHeader (n : Z) : bytes :=
  lit "Content-Length: " ++ FormatInt n
    ++ [ascii_of_code 13; newline; ascii_of_code 13; newline].

(** A string of ASCII bytes. *)
Definition isASCII (s : bytes) : Prop := Forall (fun c => code c < 128) s.

(** The indexing state after a sequence of [$/progress] notifications,
    each with the time at which it is handled. *)
Definition trackProgress (ix : IndexingState) (events : list (ProgressValue * Time))
  : IndexingState :=
  fold_left (fun ix '(v, now) => handleProgress ix v now) events ix.

(** What a notification does to the active flag: [begin] sets it, [end]
    clears it, every other kind leaves it. *)
Definition phaseOf (v : ProgressValue) : option bool :=
  if String.eqb (pv_kind v) "begin" then Some true
  else if String.eqb (pv_kind v) "end" then Some false
  else None.

(** What follows a number does not go on with a digit. *)
Definition endsNumber (suf : bytes) : Prop :=
  match suf with
  | [] => True
  | ch :: _ => isDigit ch = false
  end.

(** ** Header blocks *)

(** What a line of a header block, here without its newline, says of the
    length of the body: nothing if it is no [Content-Length] line, else
    what [strconv.Atoi] makes of its value. *)
Definition lengthOfLine (line : bytes) : option (result Z) :=
  let t := TrimSpace (line ++ [newline]) in
  if HasPrefix t ContentLengthPrefix
  then Some (Atoi (TrimSpace (TrimPrefix t ContentLengthPrefix)))
  else None.

(** A line that the header loop passes: it is not blank, and if it is a
    [Content-Length] line its value is a number. *)
Definition headerLine (line : bytes) : Prop :=
  ~ In newline line
  /\ TrimSpace (line ++ [newline]) <> []
  /\ forall e, lengthOfLine line <> Some (Err e).

(** The length the lines announce after [cl]: that of the last
    [Content-Length] line, if there is one. *)
Definition announcedFrom (cl : Z) (lines : list bytes) : Z :=
  fold_left (fun cl line =>
               match lengthOfLine line with
               | Some (Ok n) => n
               | _ => cl
               end) lines cl.

Definition announcedBy (lines : list bytes) : Z := announcedFrom 0 lines.

(** ** Notifications of the server *)

(** The session after the notifications that [readResponses] hands to
    [handleNotification] one after the other, each with its method, its
    bytes and the time at which it is handled. *)
Definition handleNotifications `{J : JSON} (sm : SessionManager)
    (ns : list (string * bytes * Time)) : SessionManager :=
  fold_left (fun sm '(method, msg, now) => handleNotification sm method msg now) ns sm.

(** What a notification does to the active flag: a [$/progress] message
    that decodes sets it if its kind is [begin] and clears it if its kind is
    [end]; every other notification leaves it. *)
Definition phaseOfNotification `{J : JSON} (n : string * bytes * Time) : option bool :=
  let '(method, msg, _) := n in
  if String.eqb method "$/progress" then
    match unmarshal_progress msg with
    | Ok v => phaseOf v
    | Err _ => None
    end
  else None.

(** A progress message of kind [end] whose token is the number 7: the
    field [Token string] does not take it, so the message does not
    decode. *)
Definition progressEndNumericToken : bytes :=
  object [ member "jsonrpc" (quote "2.0"); member "method" (quote "$/progress");
           member "params"
             (object [ member "token" (lit "7");
                       member "value"
                         (object [ member "kind" (quote "end");
                                   member "message" (quote "") ]) ]) ].

(** ** Calls of the document handlers *)

(** A call of [textDocument/didOpen] or [textDocument/didClose] with its
    parameters. *)
Inductive DocCall : Type :=
| DidOpenCall (params : bytes)
| DidCloseCall (params : bytes).

Section Documents.

Context {J : JSON}.

(** The session after a call, and after a sequence of calls. *)
Definition docCall (sm : SessionManager) (c : DocCall) : SessionManager :=
  match c with
  | DidOpenCall params => fst (handleDidOpen sm params)
  | DidCloseCall params => fst (handleDidClose sm params)
  end.

Definition docCalls (sm : SessionManager) (cs : list DocCall) : SessionManager :=
  fold_left docCall cs sm.

(** The document a call names, and whether the call opens it; [None]
    when the parameters do not decode. *)
Definition docCallTarget (c : DocCall) : option (string * bool) :=
  match c with
  | DidOpenCall params =>
      match unmarshal_didOpen params with
      | Ok p => Some (do_uri p, true)
      | Err _ => None
      end
  | DidCloseCall params =>
      match unmarshal_didClose params with
      | Ok p => Some (dc_uri p, false)
      | Err _ => None
      end
  end.

End Documents.

(** The parameters of a [didClose], and an instance of [JSON] that
    decodes them as well. *)
Definition didCloseBody (uri : string) : bytes :=
  object [ member "textDocument" (object [ member "uri" (quote uri) ]) ].

Definition documentJSON : JSON := {|
  json_Marshal := exampleMarshal;
  unmarshal_baseMsg := @unmarshal_baseMsg exampleJSON;
  unmarshal_progress := @unmarshal_progress exampleJSON;
  unmarshal_didOpen := @unmarshal_didOpen exampleJSON;
  unmarshal_didClose :=
    decodeTable [ (didCloseBody "file:///X", mkDidClose "file:///X") ];
  unmarshal_request := @unmarshal_request exampleJSON
|}.

(** A session whose pipe to the server is broken. *)
Definition sessionBroken : SessionManager :=
  NewSessionManager "/projects" 4242 (mkPipe [] (Some O)).

(** Every path of the snapshot is absolute. *)
Definition absolutePaths (m : snapshot) : Prop :=
  forall path, is_Some (m !! path) -> String.prefix "/" path = true.

(** What a path of two snapshots has to be reported as, if at all. *)
Definition changeOf (oldFiles newFiles : snapshot) (path : string) : option Z :=
  match oldFiles !! path, newFiles !! path with
  | None, Some _ => Some Created
  | Some m1, Some m2 => if bool_decide (m2 = m1) then None else Some Changed
  | Some _, None => Some Deleted
  | None, None => None
  end.

(** ** The settings of the watcher ([polling_watcher.go]) *)

(** [os.Getenv]: the value of the variable, empty when it is not set. *)
Definition Getenv (env : gmap string bytes) (key : string) : bytes :=
  default [] (env !! key).

(** [GetPollingWorkers]. *)
Definition GetPollingWorkers (env : gmap string bytes) : Z :=
  let workersStr := Getenv env "FILE_WATCHER_WORKERS" in
  match workersStr with
  | [] => 8
  | _ :: _ =>
      match Atoi workersStr with
      | Err _ => 8
      | Ok workers => if workers <? 1 then 8 else workers
      end
  end.

(** The call has no response in its channel and, if its result is fixed,
    the result is an error of the write or the expired deadline. *)
Definition withoutResponse (c : Caller) : Prop :=
  c_buf c = None
  /\ match c_pc c with
     | AtWrite | AtSelect => True
     | AtReturn r | Returned r =>
         r = Err context_DeadlineExceeded \/ r = Err io_ErrClosedPipe
     end.

(** Example: the read loop has returned on the stream without a length,
    and a request is forwarded afterwards. *)
Definition systemReaderGone : System :=
  default systemWithoutLength (@run exampleJSON systemWithoutLength [ARead]).

Definition lateCall : list Action :=
  [ ACall "textDocument/hover" (PInterface (lit "{}")); AWrite 0; ADeadline 0;
    ACleanup 0 ].

Definition systemAfterLateCall : System :=
  default systemReaderGone (@run exampleJSON systemReaderGone lateCall).

(** Every call that has not returned has its entry in the pending map,
    under its id and with its own channel. *)
Definition entriesKept (s : System) : Prop :=
  forall i c, callers s !! i = Some c -> notReturned c ->
              pending (sys_sm s) !! c_id c = Some i.

(** Example: a call waits in its [select] while the answer to it is the
    next message on the stream. *)
Definition systemAnswered : System :=
  default (initSystem session0 (frame (responseBody (lit "1"))) 0)
    (@run exampleJSON (initSystem session0 (frame (responseBody (lit "1"))) 0)
       [ ACall "textDocument/hover" (PInterface (lit "{}")); AWrite 0 ]).

(** ** The fsnotify watcher ([runFsnotifyWatcher]) *)

(** [filepath.Ext]: the scan from the end of the path for the last dot of
    its last element. [r] holds the bytes still to scan, last byte first,
    and [acc] the bytes already passed. *)
Fixpoint extScan (r acc : bytes) : bytes :=
  match r with
  | [] => []
  | c :: r' =>
      if bool_decide (c = "/"%char) then []
      else if bool_decide (c = "."%char) then c :: acc
      else extScan r' (c :: acc)
  end.

Definition Ext (path : string) : string :=
  string_of_list_ascii (extScan (rev (list_ascii_of_string path)) []).

(** The bits of [fsnotify.Op], and [Op.Has] for one of them. *)
Definition fsnotify_Create : Z := 1.
Definition fsnotify_Write : Z := 2.
Definition fsnotify_Remove : Z := 4.
Definition fsnotify_Rename : Z := 8.
Definition fsnotify_Chmod : Z := 16.

Definition Op_Has (o h : Z) : bool := Z.land o h =? h.

(** The cases of the [select] of the loop. An event comes with what
    [os.Stat] finds at its name: [dir] is the name of the directory there,
    if there is one. When the debounce timer fires is left to the
    environment, and so is the order in which the [range] over
    [pendingChanges] yields its keys then: [order] is that order. *)
Inductive FsnotifyCase : Type :=
| CaseStop                                   (* <-sm.watcherStop *)
| CaseEvent (name : string) (op : Z) (dir : option string)
| CaseEventsClosed                           (* watcher.Events is closed *)
| CaseTimer (order : list string)            (* <-debounceTimer.C *)
| CaseError                                  (* an error is logged *)
| CaseErrorsClosed.                          (* watcher.Errors is closed *)

(** The loop: the session, the map [pendingChanges], the directories the
    loop has added to the watcher, and whether the loop has returned. *)
Record FsnotifyLoop : Type := mkFsnotifyLoop {
  fw_sm : SessionManager;
  pendingChanges : gmap string Z;
  fw_added : list string;
  fw_returned : bool
}.

(** The changes of a flush: the loop [for uri, changeType := range
    pendingChanges] appends one entry for each key, in the order in which
    the [range] yields the keys. *)
Definition pendingList (order : list string) (pend : gmap string Z)
  : list FileChange :=
  omap (fun uri => mkFileChange uri <$> pend !! uri) order.

(** An order in which a [range] over the map can yield its keys: every key
    once. Which of these orders it is, the language does not say. *)
Definition rangeOrder (order : list string) (pend : gmap string Z) : Prop :=
  order ≡ₚ (map_to_list pend).*1.

(** The entries of the map, in the order in which the model keeps them. *)
Definition pendingEntries (pend : gmap string Z) : list FileChange :=
  map (fun '(uri, changeType) => mkFileChange uri changeType) (map_to_list pend).

Section Fsnotify.

Context {J : JSON}.

(** [strings.ToLower]. *)
Variable ToLower : string -> string.

(** The test [ext != ".bsl" && ext != ".os"], negated. *)
Definition isSourceName (name : string) : bool :=
  let ext := ToLower (Ext name) in
  negb (negb (String.eqb ext ".bsl") && negb (String.eqb ext ".os")).

(** The directories that are not watched. *)
Definition skippedDir (name : string) : bool :=
  String.prefix "." name || String.eqb name "node_modules"
  || String.eqb name "vendor".

Definition fsnotifyURI (name : string) : string := "file://" +:+ ToSlash name.

(** The [switch] that maps an event to a change type. *)
Definition recordEvent (pend : gmap string Z) (uri : string) (op : Z)
  : gmap string Z :=
  if Op_Has op fsnotify_Create then <[uri := Created]> pend
  else if Op_Has op fsnotify_Write then
    match pend !! uri with
    | Some _ => pend
    | None => <[uri := Changed]> pend
    end
  else if Op_Has op fsnotify_Remove || Op_Has op fsnotify_Rename
  then <[uri := Deleted]> pend
  else pend.

(** One round of the loop. *)
Definition fsnotifyRound (st : FsnotifyLoop) (c : FsnotifyCase) : FsnotifyLoop :=
  if fw_returned st then st
  else
    match c with
    | CaseStop | CaseEventsClosed | CaseErrorsClosed =>
        mkFsnotifyLoop (fw_sm st) (pendingChanges st) (fw_added st) true
    | CaseError => st
    | CaseEvent name op dir =>
        if isSourceName name then
          mkFsnotifyLoop (fw_sm st)
            (recordEvent (pendingChanges st) (fsnotifyURI name) op)
            (fw_added st) false
        else if Op_Has op fsnotify_Create then
          match dir with
          | Some dname =>
              if skippedDir dname then st
              else mkFsnotifyLoop (fw_sm st) (pendingChanges st)
                     (fw_added st ++ [name]) false
          | None => st
          end
        else st
    | CaseTimer order =>
        if (0 <? size (pendingChanges st))%nat then
          let changes := pendingList order (pendingChanges st) in
          let '(sm, _) :=
            sendNotification (fw_sm st) "workspace/didChangeWatchedFiles"
              (PChanges changes) in
          mkFsnotifyLoop sm ∅ (fw_added st) false
        else st
    end.

Definition runFsnotifyWatcher (st : FsnotifyLoop) (cases : list FsnotifyCase)
  : FsnotifyLoop :=
  fold_left fsnotifyRound cases st.

(** The change type the [switch] gives an event, if any. *)
Definition eventKind (op : Z) : option Z :=
  if Op_Has op fsnotify_Create then Some Created
  else if Op_Has op fsnotify_Write then Some Changed
  else if Op_Has op fsnotify_Remove || Op_Has op fsnotify_Rename then Some Deleted
  else None.

(** The change types of the events of a run that are recorded for the
    path [U], in order. *)
Definition kindsFor (U : string) (cases : list FsnotifyCase) : list Z :=
  omap (fun c =>
          match c with
          | CaseEvent name op _ =>
              if isSourceName name && String.eqb (fsnotifyURI name) U
              then eventKind op else None
          | _ => None
          end) cases.

End Fsnotify.

(** [strings.ToLower] on ASCII strings. *)
Definition asciiLower (c : ascii) : ascii :=
  if (65 <=? code c) && (code c <=? 90) then ascii_of_code (code c + 32) else c.

Fixpoint asciiToLower (s : string) : string :=
  match s with
  | EmptyString => EmptyString
  | String c s' => String (asciiLower c) (asciiToLower s')
  end.

(** Example: the loop of a new session, in which indexing is active. *)
Definition fsnotifyIndexing : FsnotifyLoop :=
  mkFsnotifyLoop (set_indexing session0 indexingBegunLate) ∅ [] false.

(** The case is an event or a logged error: the loop goes on and nothing
    is flushed. *)
Definition quietCase (c : FsnotifyCase) : Prop :=
  match c with
  | CaseEvent _ _ _ | CaseError => True
  | _ => False
  end.

(** Example: the loop after a source file was created and another was
    written while indexing is active. *)
Definition fsnotifyPending : FsnotifyLoop :=
  @runFsnotifyWatcher exampleJSON asciiToLower fsnotifyIndexing
    [ CaseEvent "/projects/a.bsl" fsnotify_Create None;
      CaseEvent "/projects/b.os" fsnotify_Write None ].

(** ** The loop of [HandleClient] *)


(** Lines, each ended by a newline, as they come over the connection. *)
Definition joinLines (lines : list bytes) : bytes :=
  concat (map (fun line => line ++ [newline]) lines).

Section Client.

Context {J : JSON}.

(** The loop of [HandleClient] on the bytes [conn] that the client sends
    before it closes the connection: a line is read, handled and answered
    before the next one is read; the loop ends when [ReadString] fails.
    [env] gives, for the line number [k], the time at which it is handled
    and the answer of the LSP server if the request is forwarded. Every
    line read consumes a byte, so a fuel of one more than the length of
    [conn] is never used up. *)
Fixpoint handleClientLoop (fuel : nat) (sm : SessionManager) (conn : bytes)
    (k : nat) (env : nat -> Time * option lspResponse)
  : SessionManager * list APIResponse :=
  match fuel with
  | O => (sm, [])
  | S fuel' =>
      let '(line, rest, err) := ReadString newline conn in
      match err with
      | Some _ => (sm, [])
      | None =>
          let '(sm1, resp) := handleLine sm line (fst (env k)) (snd (env k)) in
          let '(sm2, resps) := handleClientLoop fuel' sm1 rest (S k) env in
          (sm2, match resp with Some x => x :: resps | None => resps end)
      end
  end.

Definition HandleClient (sm : SessionManager) (conn : bytes)
    (env : nat -> Time * option lspResponse) : SessionManager * list APIResponse :=
  handleClientLoop (S (length conn)) sm conn 0 env.


End Client.

(** The line holds something besides white space. *)
Definition nonBlank (line : bytes) : Prop := TrimSpace (line ++ [newline]) <> [].

Global Instance nonBlank_dec (line : bytes) : Decision (nonBlank line).
Proof. unfold nonBlank. apply _. Defined.

(** Example: two requests with a blank line between them, then the
    beginning of a third request that is never completed. *)
Definition clientLines : list bytes :=
  [ TrimSpace (requestLine 7 "textDocument/foo"); lit "  ";
    TrimSpace (requestLine 8 "session/capabilities") ].


(** Example: a request line for a forwarded method, and an instance of
    [JSON] that decodes it. *)
Definition hoverJSON : JSON := {|
  json_Marshal := exampleMarshal;
  unmarshal_baseMsg := @unmarshal_baseMsg exampleJSON;
  unmarshal_progress := @unmarshal_progress exampleJSON;
  unmarshal_didOpen := @unmarshal_didOpen exampleJSON;
  unmarshal_didClose := @unmarshal_didClose exampleJSON;
  unmarshal_request :=
    decodeTable
      [ (TrimSpace (requestLine 5 "textDocument/hover"),
         mkAPIRequest (lit "2.0") 5 "textDocument/hover" (lit "{}")) ]
|}.

Definition set_capabilities (sm : SessionManager) (caps : bytes) : SessionManager :=
  mkSessionManager (sm_workspaceDir sm) (sm_pid sm) (sm_stdin sm) (sm_initialized sm)
    (sm_initResult sm) caps (requestID sm) (pending sm) (openDocs sm) (indexing sm).

Section Initialize.

Context {J : JSON}.

(** [json.Unmarshal(result, &initResp)]: the [capabilities] member of the
    result of the server. *)
Variable unmarshal_initResp : bytes -> result bytes.

(** [initialize]. [answer] is the response of the LSP server to the
    request ([None]: none within the 60 seconds). A failure to send the
    [initialized] notification is logged only. *)
Definition initialize (sm : SessionManager) (answer : option lspResponse)
  : SessionManager * result unit :=
  let '(sm, r) :=
    sendRequestAlone sm "initialize" (PInitialize (sm_workspaceDir sm)) answer in
  match r with
  | Err e => (sm, Err (errorf ("initialize request failed: " +:+ errorString e)))
  | Ok res =>
      let sm := set_initialized sm res (sm_capabilities sm) in
      let sm :=
        match unmarshal_initResp res with
        | Ok caps => set_capabilities sm caps
        | Err _ => sm
        end in
      let '(sm, _) := sendNotification sm "initialized" PEmptyObject in
      (sm, Ok tt)
  end.

End Initialize.


(* ================================================================== *)
(** * Part II. Theorems *)
(* ================================================================== *)

Example FormatInt_42 : FormatInt 42 = lit "42".
Proof. reflexivity. Qed.

Example FormatInt_neg : FormatInt (-1050) = lit "-1050".
Proof. reflexivity. Qed.

Example Atoi_examples :
  Atoi (lit "123") = Ok 123 /\ Atoi (lit "-5") = Ok (-5) /\ Atoi (lit "+7") = Ok 7
  /\ Atoi (lit "") = Err strconv_ErrSyntax /\ Atoi (lit "1_0") = Err strconv_ErrSyntax
  /\ Atoi (lit "9223372036854775807") = Ok maxInt64
  /\ Atoi (lit "9223372036854775808") = Err strconv_ErrRange
  /\ Atoi (lit "-9223372036854775808") = Ok minInt64.
Proof. repeat split; reflexivity. Qed.

Example TrimSpace_examples :
  TrimSpace (lit "  Content-Length: 12 ") = lit "Content-Length: 12"
  /\ TrimSpace [ascii_of_code 194; ascii_of_code 160; "a"%char; ascii_of_code 226;
                ascii_of_code 128; ascii_of_code 168] = lit "a"
  /\ TrimSpace [ascii_of_code 13; newline] = [].
Proof. repeat split; reflexivity. Qed.

Example readLSPMessage_frame :
  readLSPMessage (frame (lit "{}") ++ lit "tail") = Ret (lit "{}", lit "tail").
Proof. reflexivity. Qed.

(** ** Facts about the library models *)

Section StrconvFacts.

Lemma code_digitChar (d : Z) : 0 <= d < 10 -> code (digitChar d) = 48 + d.
Proof.
  intros H.
  assert (d = 0 \/ d = 1 \/ d = 2 \/ d = 3 \/ d = 4 \/ d = 5 \/ d = 6
          \/ d = 7 \/ d = 8 \/ d = 9) as Hd by lia.
  repeat (destruct Hd as [-> | Hd]; [reflexivity |]). subst d. reflexivity.
Qed.

Lemma isDigit_digitChar (d : Z) : 0 <= d < 10 -> isDigit (digitChar d) = true.
Proof.
  intros H. unfold isDigit. rewrite code_digitChar by assumption.
  apply andb_true_iff. split; apply Z.leb_le; lia.
Qed.

Lemma digitsValue_app (ds rest : bytes) (a : Z) :
  digitsValue a (ds ++ rest)
  = match digitsValue a ds with
    | Some v => digitsValue v rest
    | None => None
    end.
Proof.
  revert a. induction ds as [| c ds IH]; intros a; simpl; [reflexivity |].
  destruct (isDigit c); [apply IH | reflexivity].
Qed.

(** What [formatDigits] prepends: a non-empty run of digits whose value
    is [n]. *)
Lemma formatDigits_spec (fuel : nat) (n : Z) :
  0 <= n < 2 ^ Z.of_nat (S fuel) ->
  exists ds : bytes,
    ds <> [] /\ Forall (fun c => isDigit c = true) ds
    /\ (forall acc, formatDigits (S fuel) n acc = ds ++ acc)
    /\ (forall a, digitsValue a ds = Some (a * 10 ^ Z.of_nat (length ds) + n)).
Proof.
  revert n. induction fuel as [| fuel IH]; intros n Hn;
    assert (Hmod : 0 <= n mod 10 < 10) by (apply Z.mod_pos_bound; lia);
    destruct (Z.ltb_spec n 10) as [Hlt | Hge].
  1, 3: exists [digitChar (n mod 10)]; split; [discriminate |]; split;
    [constructor; [apply isDigit_digitChar; assumption | constructor] |];
    split;
    [ intros acc; cbn [formatDigits];
      destruct (Z.ltb_spec n 10); [reflexivity | lia]
    | intros a; cbn [digitsValue length];
      rewrite isDigit_digitChar by assumption;
      rewrite code_digitChar by assumption;
      rewrite Z.mod_small by lia; f_equal;
      change (Z.of_nat 1) with 1; lia ].
  - change (2 ^ Z.of_nat 1) with 2 in Hn. lia.
  - destruct (IH (n / 10)) as (ds & Hne & Hall & Happ & Hval).
    { split; [apply Z.div_pos; lia |].
      apply Z.div_lt_upper_bound; [lia |].
      rewrite (Nat2Z.inj_succ (S fuel)), Z.pow_succ_r in Hn by lia. lia. }
    exists (ds ++ [digitChar (n mod 10)]). split.
    { intros Hnil. apply app_eq_nil in Hnil. destruct Hnil; discriminate. }
    split.
    { apply Forall_app. split; [assumption |].
      constructor; [apply isDigit_digitChar; assumption | constructor]. }
    split.
    + intros acc. cbn [formatDigits]. destruct (Z.ltb_spec n 10); [lia |].
      cbn [formatDigits] in Happ. rewrite Happ, <- app_assoc. reflexivity.
    + intros a. rewrite digitsValue_app, Hval. cbn [digitsValue].
      rewrite isDigit_digitChar by assumption.
      rewrite code_digitChar by assumption.
      f_equal. rewrite length_app. cbn [length].
      replace (Z.of_nat (length ds + 1)) with (Z.succ (Z.of_nat (length ds))) by lia.
      rewrite Z.pow_succ_r by lia.
      pose proof (Z.div_mod n 10 ltac:(lia)). lia.
Qed.

Lemma FormatInt_nonneg_spec (n : Z) :
  0 <= n ->
  exists ds : bytes,
    FormatInt n = ds /\ ds <> [] /\ Forall (fun c => isDigit c = true) ds
    /\ digitsValue 0 ds = Some n.
Proof.
  intros Hn. unfold FormatInt.
  destruct (Z.ltb_spec n 0) as [? | _]; [lia |].
  destruct (formatDigits_spec (Z.to_nat (Z.log2 n)) n)
    as (ds & Hne & Hall & Happ & Hval).
  { split; [assumption |].
    destruct (Z.eq_dec n 0) as [-> | Hnz]; [reflexivity |].
    rewrite Nat2Z.inj_succ, Z2Nat.id by apply Z.log2_nonneg.
    apply Z.log2_spec. lia. }
  exists ds. rewrite Happ, app_nil_r. repeat split; try assumption.
  rewrite Hval. reflexivity.
Qed.

(** Parsing what [FormatInt] printed gives the number back. *)
Lemma Atoi_FormatInt (n : Z) : 0 <= n <= maxInt64 -> Atoi (FormatInt n) = Ok n.
Proof.
  intros [Hn Hmax].
  destruct (FormatInt_nonneg_spec n Hn) as (ds & -> & Hne & Hall & Hval).
  unfold Atoi, ParseInt.
  destruct ds as [| c ds]; [congruence |].
  assert (Hc : isDigit c = true) by (inversion Hall; assumption).
  unfold isDigit in Hc. apply andb_true_iff in Hc. destruct Hc as [Hc1 Hc2].
  apply Z.leb_le in Hc1. apply Z.leb_le in Hc2.
  destruct (Z.eqb_spec (code c) 45) as [? | _]; [lia |].
  destruct (Z.eqb_spec (code c) 43) as [? | _]; [lia |].
  rewrite Hval. unfold in_int64, minInt64.
  replace (minInt64 <=? n) with true.
  2:{ symmetry. apply Z.leb_le. unfold minInt64. lia. }
  destruct (Z.leb_spec n maxInt64); [| lia].
  destruct (Z.leb_spec (- 2 ^ 63) n); [reflexivity | lia].
Qed.

End StrconvFacts.

Section StringsFacts.

Lemma plain_space2_l (c c' : ascii) : plain c -> space2 c c' = false.
Proof.
  intros [Hc _]. unfold space2.
  destruct (Z.eqb_spec (code c) 194); [lia | reflexivity].
Qed.

Lemma plain_space2_r (c c' : ascii) : plain c -> space2 c' c = false.
Proof.
  intros [Hc _]. unfold space2.
  destruct (Z.eqb_spec (code c) 133); [lia |].
  destruct (Z.eqb_spec (code c) 160); [lia |].
  apply andb_false_r.
Qed.

Lemma plain_space3_l (c c2 c3 : ascii) : plain c -> space3 c c2 c3 = false.
Proof.
  intros [Hc _]. unfold space3.
  destruct (Z.eqb_spec (code c) 225); [lia |].
  destruct (Z.eqb_spec (code c) 226); [lia |].
  destruct (Z.eqb_spec (code c) 227); [lia | reflexivity].
Qed.

Lemma plain_space3_r (c c1 c2 : ascii) : plain c -> space3 c1 c2 c = false.
Proof.
  intros [Hc _]. unfold space3.
  destruct (Z.eqb_spec (code c) 128); [lia |].
  destruct (Z.eqb_spec (code c) 168); [lia |].
  destruct (Z.eqb_spec (code c) 169); [lia |].
  destruct (Z.eqb_spec (code c) 175); [lia |].
  destruct (Z.eqb_spec (code c) 159); [lia |].
  destruct (Z.leb_spec 128 (code c)); [lia |].
  rewrite !andb_false_r. reflexivity.
Qed.

Lemma trimLeftSpace_plain (c : ascii) (s : bytes) :
  plain c -> trimLeftSpace (c :: s) = c :: s.
Proof.
  intros Hc. cbn [trimLeftSpace]. rewrite (proj2 Hc).
  destruct s as [| c2 s]; [reflexivity |].
  rewrite plain_space2_l by assumption.
  destruct s as [| c3 s]; [reflexivity |].
  rewrite plain_space3_l by assumption. reflexivity.
Qed.

Lemma trimLeftSpaceRev_plain (c : ascii) (s : bytes) :
  plain c -> trimLeftSpaceRev (c :: s) = c :: s.
Proof.
  intros Hc. cbn [trimLeftSpaceRev]. rewrite (proj2 Hc).
  destruct s as [| c2 s]; [reflexivity |].
  rewrite plain_space2_r by assumption.
  destruct s as [| c3 s]; [reflexivity |].
  rewrite plain_space3_r by assumption. reflexivity.
Qed.

Lemma trimLeftSpace_spaces (ws s : bytes) :
  Forall (fun c => isAsciiSpace c = true) ws ->
  trimLeftSpace (ws ++ s) = trimLeftSpace s.
Proof.
  induction 1 as [| c ws Hc _ IH]; [reflexivity |].
  cbn [app trimLeftSpace]. rewrite Hc. exact IH.
Qed.

Lemma trimLeftSpaceRev_spaces (ws s : bytes) :
  Forall (fun c => isAsciiSpace c = true) ws ->
  trimLeftSpaceRev (ws ++ s) = trimLeftSpaceRev s.
Proof.
  induction 1 as [| c ws Hc _ IH]; [reflexivity |].
  cbn [app trimLeftSpaceRev]. rewrite Hc. exact IH.
Qed.

(** White space around a string with plain ends is what [TrimSpace]
    removes. *)
Lemma TrimSpace_plainEnds (ws1 s ws2 : bytes) :
  plainEnds s ->
  Forall (fun c => isAsciiSpace c = true) ws1 ->
  Forall (fun c => isAsciiSpace c = true) ws2 ->
  TrimSpace (ws1 ++ s ++ ws2) = s.
Proof.
  intros [(c & s1 & Hs1 & Hc) (s2 & d & Hs2 & Hd)] Hws1 Hws2.
  unfold TrimSpace. rewrite trimLeftSpace_spaces by assumption.
  rewrite Hs1 at 1. rewrite <- app_comm_cons, trimLeftSpace_plain by assumption.
  rewrite app_comm_cons, <- Hs1, rev_app_distr.
  rewrite trimLeftSpaceRev_spaces by (apply Forall_rev; assumption).
  rewrite Hs2 at 1. rewrite rev_app_distr. cbn [rev app].
  rewrite trimLeftSpaceRev_plain by assumption.
  change (d :: rev s2) with (rev [d] ++ rev s2).
  rewrite <- rev_app_distr, rev_involutive. symmetry. exact Hs2.
Qed.

Lemma TrimSpace_spaces (ws : bytes) :
  Forall (fun c => isAsciiSpace c = true) ws -> TrimSpace ws = [].
Proof.
  intros Hws. unfold TrimSpace.
  rewrite <- (app_nil_r ws), trimLeftSpace_spaces by assumption. reflexivity.
Qed.

Lemma HasPrefix_app (p s : bytes) : HasPrefix (p ++ s) p = true.
Proof.
  induction p as [| c p IH]; [destruct s; reflexivity |].
  cbn [app HasPrefix]. rewrite bool_decide_eq_true_2 by reflexivity. exact IH.
Qed.

Lemma TrimPrefix_app (p s : bytes) : TrimPrefix (p ++ s) p = s.
Proof.
  unfold TrimPrefix. rewrite HasPrefix_app. apply drop_app_length.
Qed.

Lemma ReadString_line (delim : ascii) (p r : bytes) :
  ~ In delim p ->
  ReadString delim (p ++ delim :: r) = (p ++ [delim], r, None).
Proof.
  induction p as [| c p IH]; intros Hnot.
  - cbn [app ReadString]. rewrite bool_decide_eq_true_2 by reflexivity.
    reflexivity.
  - cbn [app ReadString].
    rewrite bool_decide_eq_false_2 by (intros ->; apply Hnot; left; reflexivity).
    rewrite IH by (intros Hin; apply Hnot; right; exact Hin). reflexivity.
Qed.

Lemma isDigit_plain (c : ascii) : isDigit c = true -> plain c.
Proof.
  unfold isDigit, plain, isAsciiSpace. intros H.
  apply andb_true_iff in H. destruct H as [H1 H2].
  apply Z.leb_le in H1. apply Z.leb_le in H2. split; [lia |].
  repeat (match goal with
          | |- context [?x =? ?y] => destruct (Z.eqb_spec x y); [lia |]
          end).
  reflexivity.
Qed.

Lemma isDigit_not_newline (c : ascii) : isDigit c = true -> c <> newline.
Proof.
  intros H ->. discriminate H.
Qed.

Lemma digits_plainEnds (ds : bytes) :
  ds <> [] -> Forall (fun c => isDigit c = true) ds -> plainEnds ds.
Proof.
  intros Hne Hall. split.
  - destruct ds as [| c ds]; [congruence |].
    exists c, ds. split; [reflexivity |].
    apply isDigit_plain. inversion Hall; assumption.
  - destruct (exists_last Hne) as (s' & d & ->).
    exists s', d. split; [reflexivity |].
    apply isDigit_plain. apply Forall_app in Hall. destruct Hall as [_ Hd].
    inversion Hd; assumption.
Qed.

End StringsFacts.

(** ** The framed codec *)

Section CodecFacts.

Lemma ascii_spaces_crlf :
  Forall (fun c => isAsciiSpace c = true) [ascii_of_code 13; newline].
Proof. repeat constructor. Qed.

Lemma ContentLength_line_plainEnds (ds : bytes) :
  ds <> [] -> Forall (fun c => isDigit c = true) ds ->
  plainEnds (lit "Content-Length: " ++ ds).
Proof.
  intros Hne Hall. split.
  - eexists _, _. split; [reflexivity |]. split; [reflexivity | reflexivity].
  - destruct (digits_plainEnds ds Hne Hall) as [_ (s' & d & -> & Hd)].
    exists (lit "Content-Length: " ++ s'), d.
    split; [rewrite <- app_assoc; reflexivity | exact Hd].
Qed.

(** The header block [writeMessage] emits is read back as the length it
    announces, whatever value [contentLength] held before. *)
Lemma readHeaders_frameHeader (fuel : nat) (body rest : bytes) (cl0 : Z) :
  body <> [] -> Z.of_nat (length body) <= maxInt64 ->
  readHeaders (S (S fuel)) (frameHeader body ++ rest) cl0
  = Ok (Z.of_nat (length body), rest).
Proof.
  intros Hbody Hmax.
  destruct (FormatInt_nonneg_spec (Z.of_nat (length body)) ltac:(lia))
    as (ds & Hfmt & Hne & Hall & Hval).
  pose proof (Atoi_FormatInt (Z.of_nat (length body)) ltac:(lia)) as Hatoi.
  unfold frameHeader. rewrite Hfmt in *.
  replace ((lit "Content-Length: " ++ ds
              ++ [ascii_of_code 13; newline; ascii_of_code 13; newline]) ++ rest)
    with (((lit "Content-Length: " ++ ds) ++ [ascii_of_code 13])
            ++ newline :: [ascii_of_code 13] ++ newline :: rest)
    by (rewrite <- !app_assoc; reflexivity).
  cbn [readHeaders]. rewrite ReadString_line.
  2:{ intros Hin. apply in_app_or in Hin. destruct Hin as [Hin | Hin].
      - apply in_app_or in Hin. destruct Hin as [Hin | Hin].
        + revert Hin. clear. cbn. intros H.
          repeat (destruct H as [H | H]; [discriminate H |]). exact H.
        + rewrite List.Forall_forall in Hall. apply Hall in Hin.
          discriminate Hin.
      - destruct Hin as [Hin | []]. discriminate Hin. }
  rewrite <- app_assoc.
  change ([ascii_of_code 13] ++ [newline]) with ([ascii_of_code 13; newline]).
  assert (HT1 : TrimSpace ((lit "Content-Length: " ++ ds)
                             ++ [ascii_of_code 13; newline])
                = ContentLengthPrefix ++ (" "%char :: ds)).
  { apply (TrimSpace_plainEnds [] (lit "Content-Length: " ++ ds));
      [apply ContentLength_line_plainEnds; assumption
      | constructor | exact ascii_spaces_crlf]. }
  rewrite HT1, HasPrefix_app, TrimPrefix_app.
  assert (HT2 : TrimSpace (" "%char :: ds) = ds).
  { rewrite <- (app_nil_r ds) at 1.
    apply (TrimSpace_plainEnds [" "%char] ds []);
      [apply digits_plainEnds; assumption | repeat constructor | constructor]. }
  rewrite HT2, Hatoi.
  rewrite (ReadString_line newline [ascii_of_code 13]).
  2:{ intros [Hin | []]. discriminate Hin. }
  change ([ascii_of_code 13] ++ [newline]) with ([ascii_of_code 13; newline]).
  rewrite TrimSpace_spaces by exact ascii_spaces_crlf.
  reflexivity.
Qed.

Lemma length_frameHeader_pos (body : bytes) : (2 <= length (frameHeader body))%nat.
Proof.
  unfold frameHeader. rewrite !length_app. cbn [length]. lia.
Qed.

End CodecFacts.

Lemma maxAlloc_covers_16MiB : 16 * 1024 * 1024 <= maxAlloc /\ maxAlloc <= maxInt64.
Proof. split; vm_compute; discriminate. Qed.

(** Reading back a frame: the body, and the stream after it. *)
Lemma readLSPMessage_of_frame (body rest : bytes) :
  body <> [] ->
  Z.of_nat (length body) <= maxAlloc ->
  readLSPMessage (frame body ++ rest) = Ret (body, rest).
Proof.
  intros Hbody Hmax.
  pose proof maxAlloc_covers_16MiB as [_ Hle].
  assert (Hpos : 0 < Z.of_nat (length body)).
  { destruct body; [congruence | cbn [length]; lia]. }
  unfold readLSPMessage, frame. rewrite <- app_assoc.
  pose proof (length_frameHeader_pos body) as Hlen.
  destruct (length (frameHeader body ++ body ++ rest)) as [| fuel] eqn:Hfuel.
  { rewrite length_app in Hfuel. lia. }
  rewrite readHeaders_frameHeader by (assumption || lia).
  destruct (Z.eqb_spec (Z.of_nat (length body)) 0) as [? | _]; [lia |].
  destruct (Z.ltb_spec (Z.of_nat (length body)) 0) as [? | _]; [lia |].
  destruct (Z.ltb_spec maxAlloc (Z.of_nat (length body))) as [? | _]; [lia |].
  cbn [orb]. unfold ReadFull. rewrite Nat2Z.id.
  rewrite length_app.
  destruct (Nat.leb_spec (length body) (length body + length rest)); [| lia].
  rewrite take_app_length, drop_app_length. reflexivity.
Qed.

(** A length that is no number: the error carries the text of the error of
    [strconv.Atoi], with the value quoted. *)
Example readLSPMessage_invalid_length :
  readLSPMessage (lit "Content-Length: 12a"
                    ++ [ascii_of_code 13; newline; ascii_of_code 13; newline])
  = Fail (errorf (string_of_list_ascii
                    (lit "invalid Content-Length: strconv.Atoi: parsing "
                       ++ quote "12a" ++ lit ": invalid syntax")))
  /\ readLSPMessage (lit "Content-Length: 99999999999999999999" ++ [newline; newline])
     = Fail (errorf (string_of_list_ascii
                       (lit "invalid Content-Length: strconv.Atoi: parsing "
                          ++ quote "99999999999999999999" ++ lit ": value out of range"))).
Proof. split; vm_compute; reflexivity. Qed.

(** The reader on a machine agrees with [readLSPMessage] when the runtime
    can allocate the announced length, also when no length is announced or
    the header block is not read to its end. *)
Lemma readLSPMessageOn_allocated (heap : Z) (r : bytes) :
  match readHeaders (S (length r)) r 0 with
  | Ok (n, _) => n <= heap
  | Err _ => True
  end ->
  readLSPMessageOn heap r = Finished (readLSPMessage r).
Proof.
  unfold readLSPMessageOn, readLSPMessage, make_bytes.
  destruct (readHeaders (S (length r)) r 0) as [[n rest] | e]; [| reflexivity].
  intros Hn. destruct (n =? 0); [reflexivity |].
  destruct ((n <? 0) || (maxAlloc <? n)); [reflexivity |].
  destruct (Z.ltb_spec heap n) as [? | _]; [lia |].
  destruct (ReadFull (Z.to_nat n) rest) as [[body rest'] | e]; reflexivity.
Qed.

(** When it cannot, the process ends in [make], whatever follows the
    header block. *)
Lemma readLSPMessageOn_no_memory (heap n : Z) (r rest : bytes) :
  readHeaders (S (length r)) r 0 = Ok (n, rest) ->
  0 < n <= maxAlloc -> heap < n ->
  readLSPMessageOn heap r = OutOfMemory.
Proof.
  intros Hh Hn Hheap. unfold readLSPMessageOn, make_bytes. rewrite Hh.
  destruct (Z.eqb_spec n 0) as [? | _]; [lia |].
  destruct (Z.ltb_spec n 0) as [? | _]; [lia |].
  destruct (Z.ltb_spec maxAlloc n) as [? | _]; [lia |].
  destruct (Z.ltb_spec heap n) as [_ | ?]; [reflexivity | lia].
Qed.

(** ** The request-id codec *)

Example jsonUnmarshalString_examples :
  jsonUnmarshalString (quote "abc") = Ok (lit "abc")
  /\ jsonUnmarshalString (quote "a\nb\u0041\/") = Ok [ "a"%char; newline; "b"%char; "A"%char; "/"%char ]
  /\ jsonUnmarshalString (quote "\ud83d\ude00") = Ok (map ascii_of_code [240; 159; 152; 128])
  /\ jsonUnmarshalString (quote "\ud83dx") = Ok (runeErrorBytes ++ lit "x")
  /\ jsonUnmarshalString (lit " null ") = Ok []
  /\ jsonUnmarshalString (lit "42") = Err json_Error
  /\ jsonUnmarshalString (quote "a\qb") = Err json_Error
  /\ jsonUnmarshalString (quote "abc" ++ lit "x") = Err json_Error.
Proof. repeat split; reflexivity. Qed.

Example jsonUnmarshalInt64_examples :
  jsonUnmarshalInt64 (lit "42") = Ok 42
  /\ jsonUnmarshalInt64 (lit " -7 ") = Ok (-7)
  /\ jsonUnmarshalInt64 (lit "042") = Err json_Error
  /\ jsonUnmarshalInt64 (lit "+42") = Err json_Error
  /\ jsonUnmarshalInt64 (lit "4.2") = Err json_Error
  /\ jsonUnmarshalInt64 (lit "1e3") = Err json_Error
  /\ jsonUnmarshalInt64 (quote "42") = Err json_Error
  /\ jsonUnmarshalInt64 (lit "9223372036854775808") = Err json_Error.
Proof. repeat split; reflexivity. Qed.

Example jsonMarshalString_examples :
  jsonMarshalString (lit "abc") = quote "abc"
  /\ jsonMarshalString (lit "a<b") = quote "a\u003cb"
  /\ jsonMarshalString [ "a"%char; newline; ascii_of_code 34 ]
     = [ascii_of_code 34] ++ lit "a\n\" ++ [ascii_of_code 34; ascii_of_code 34]
  /\ jsonMarshalString (map ascii_of_code [226; 128; 168; 255])
     = quote "\u2028\ufffd".
Proof. repeat split; reflexivity. Qed.

(** ** The polling watcher *)

Example checkForChanges_changed :
  snd (checkForChanges watcher0 (scan_a 200) false)
  = Some [mkFileChange "file:///projects/a.bsl" Changed].
Proof. vm_compute. reflexivity. Qed.

Section WatcherFacts.

Lemma fileMap_checkForChanges (pw : PollingWatcher) (newFiles : snapshot)
    (indexing : bool) :
  fileMap (fst (checkForChanges pw newFiles indexing)) = newFiles.
Proof.
  unfold checkForChanges.
  repeat match goal with |- context [if ?c then _ else _] => destruct c end;
    reflexivity.
Qed.

Lemma flags_checkForChanges (pw : PollingWatcher) (newFiles : snapshot)
    (indexing : bool) :
  pw_hasIsIndexingFunc (fst (checkForChanges pw newFiles indexing))
  = pw_hasIsIndexingFunc pw
  /\ pw_hasNotifyFunc (fst (checkForChanges pw newFiles indexing))
     = pw_hasNotifyFunc pw.
Proof.
  unfold checkForChanges.
  repeat match goal with |- context [if ?c then _ else _] => destruct c end;
    split; reflexivity.
Qed.

Lemma checkForChanges_indexing (pw : PollingWatcher) (newFiles : snapshot) :
  pw_hasIsIndexingFunc pw = true ->
  snd (checkForChanges pw newFiles true) = None.
Proof.
  intros Hidx. unfold checkForChanges. cbn [pw_hasIsIndexingFunc set_fileMap].
  rewrite Hidx. destruct (0 <? _)%nat; reflexivity.
Qed.

(** A [Changed] entry stands for a path present in both snapshots with
    different modification times, and for nothing else. *)
Lemma elem_of_changes_Changed (oldFiles newFiles : snapshot) (uri : string) :
  mkFileChange uri Changed ∈ changesNew oldFiles newFiles ++ changesDeleted oldFiles newFiles
  <-> exists path m1 m2,
        uri = pathToURI path /\ oldFiles !! path = Some m1
        /\ newFiles !! path = Some m2 /\ m1 <> m2.
Proof.
  rewrite elem_of_app. unfold changesNew, changesDeleted.
  rewrite !list_elem_of_omap. split.
  - intros [([path m2] & Hin & Hf) | ([path m1] & Hin & Hf)].
    + apply elem_of_map_to_list in Hin.
      destruct (oldFiles !! path) as [m1 |] eqn:Hold; [| discriminate Hf].
      case_bool_decide as Hm; [discriminate Hf |].
      injection Hf as Huri. exists path, m1, m2. split_and!; congruence.
    + destruct (newFiles !! path); discriminate Hf.
  - intros (path & m1 & m2 & -> & Hold & Hnew & Hne). left.
    exists (path, m2). split; [apply elem_of_map_to_list; exact Hnew |].
    rewrite Hold. rewrite bool_decide_eq_false_2 by congruence. reflexivity.
Qed.

Lemma checkForChanges_sent (pw : PollingWatcher) (newFiles : snapshot) :
  pw_hasNotifyFunc pw = true ->
  forall changes,
    snd (checkForChanges pw newFiles false) = Some changes
    <-> changes <> []
        /\ changes = changesNew (fileMap pw) newFiles
                       ++ changesDeleted (fileMap pw) newFiles.
Proof.
  intros Hn changes. unfold checkForChanges.
  cbn [pw_hasIsIndexingFunc pw_hasNotifyFunc set_fileMap].
  rewrite Hn, andb_false_r.
  destruct (changesNew (fileMap pw) newFiles
              ++ changesDeleted (fileMap pw) newFiles) as [| c cs] eqn:Hc.
  - cbn. split; [discriminate | intros [H ->]; congruence].
  - cbn. split.
    + intros [= <-]. split; [discriminate | reflexivity].
    + intros [_ ->]. reflexivity.
Qed.

Lemma last_cons_default {A} (x d : A) (l : list A) :
  List.last (x :: l) d = List.last l x.
Proof.
  revert x d. induction l as [| y l IH]; intros x d; [reflexivity |].
  change (List.last (x :: y :: l) d) with (List.last (y :: l) d).
  rewrite !(IH y). reflexivity.
Qed.

(** Ticks during indexing send nothing, and the snapshot is the result of
    the latest scan. *)
Lemma runPollingLoop_indexing (pw : PollingWatcher) (ticks : list (snapshot * bool)) :
  pw_hasIsIndexingFunc pw = true ->
  Forall (fun t => snd t = true) ticks ->
  snd (runPollingLoop pw ticks) = []
  /\ fileMap (fst (runPollingLoop pw ticks)) = List.last (map fst ticks) (fileMap pw)
  /\ pw_hasNotifyFunc (fst (runPollingLoop pw ticks)) = pw_hasNotifyFunc pw.
Proof.
  intros Hidx Hall. revert pw Hidx.
  induction Hall as [| [newFiles indexing] ticks Hind _ IH]; intros pw Hidx.
  - repeat split.
  - cbn in Hind. subst indexing. cbn [runPollingLoop].
    pose proof (checkForChanges_indexing pw newFiles Hidx) as Hsent.
    pose proof (fileMap_checkForChanges pw newFiles true) as Hmap.
    pose proof (flags_checkForChanges pw newFiles true) as [Hf1 Hf2].
    destruct (checkForChanges pw newFiles true) as [pw1 sent].
    cbn [fst snd] in *. subst sent.
    specialize (IH pw1 ltac:(congruence)).
    destruct (runPollingLoop pw1 ticks) as [pw2 sents]. cbn [fst snd] in *.
    destruct IH as (-> & IHmap & IHn). split; [reflexivity |].
    split; [| congruence].
    rewrite IHmap, Hmap. cbn [map fst].
    symmetry. apply last_cons_default.
Qed.

End WatcherFacts.

(** C1, the claim as stated fails: a file whose modification time changes
    while indexing is active is not reported afterwards. The baseline has
    [/projects/a.bsl] at time 100; the scan during indexing sees it at 200:
    nothing is sent, and the snapshot is now that scan; the scan after
    indexing sees the file unchanged against that snapshot and sends
    nothing. *)
Lemma C1_change_during_indexing_is_lost :
  fileMap (fst (checkForChanges watcher0 (scan_a 200) true))
  = (scan_a 200)
  /\ runPollingLoop watcher0
       [ ((scan_a 200), true);
         ((scan_a 200), false) ]
     = (set_fileMap watcher0 (scan_a 200), []).
Proof. split; vm_compute; reflexivity. Qed.

(** C1, amended. While indexing is active the polling watcher sends no
    notification, whatever the scans find; every scan replaces the
    snapshot, also while notifications are suppressed; so the first scan
    after indexing ends reports a file as changed exactly when its
    modification time differs from the one seen by the latest scan (the last
    one made during indexing, or the baseline when there was none). *)
Theorem C1_polling_watcher_during_indexing
    (pw : PollingWatcher) (ticks : list (snapshot * bool)) (after : snapshot) :
  pw_hasIsIndexingFunc pw = true ->
  pw_hasNotifyFunc pw = true ->
  Forall (fun t => snd t = true) ticks ->
  snd (runPollingLoop pw ticks) = []
  /\ fileMap (fst (runPollingLoop pw ticks)) = List.last (map fst ticks) (fileMap pw)
  /\ forall uri,
       (exists changes,
           snd (checkForChanges (fst (runPollingLoop pw ticks)) after false)
           = Some changes
           /\ mkFileChange uri Changed ∈ changes)
       <-> exists path m1 m2,
             uri = pathToURI path
             /\ List.last (map fst ticks) (fileMap pw) !! path = Some m1
             /\ after !! path = Some m2 /\ m1 <> m2.
Proof.
  intros Hidx Hn Hall.
  destruct (runPollingLoop_indexing pw ticks Hidx Hall) as (Hs & Hmap & Hn').
  split; [exact Hs |]. split; [exact Hmap |].
  intros uri. rewrite <- Hmap, <- elem_of_changes_Changed. split.
  - intros (changes & Hsent & Hin).
    apply checkForChanges_sent in Hsent; [| congruence].
    destruct Hsent as [_ ->]. exact Hin.
  - intros Hin. eexists. split; [| exact Hin].
    apply checkForChanges_sent; [congruence |].
    split; [| reflexivity]. intros Hnil. rewrite Hnil in Hin.
    apply elem_of_nil in Hin. exact Hin.
Qed.

Lemma C1_polling_watcher_during_indexing_witness :
  snd (runPollingLoop watcher0 [ ((scan_a 200), true) ]) = []
  /\ fileMap (fst (runPollingLoop watcher0
                     [ ((scan_a 200), true) ]))
     = List.last (map fst [ ((scan_a 200), true) ])
         (fileMap watcher0)
  /\ forall uri,
       (exists changes,
           snd (checkForChanges
                  (fst (runPollingLoop watcher0
                          [ ((scan_a 200), true) ]))
                  (scan_a 300) false)
           = Some changes
           /\ mkFileChange uri Changed ∈ changes)
       <-> exists path m1 m2,
             uri = pathToURI path
             /\ List.last (map fst [ ((scan_a 200), true) ])
                  (fileMap watcher0) !! path = Some m1
             /\ (scan_a 300) !! path = Some m2 /\ m1 <> m2.
Proof.
  apply (C1_polling_watcher_during_indexing watcher0
           [ ((scan_a 200), true) ]
           (scan_a 300)).
  - reflexivity.
  - reflexivity.
  - repeat constructor.
Defined.

(** ** The progress tracker *)

Example parseProgressMessage_examples :
  parseProgressMessage (lit "10/100 files") = (10, 100)
  /\ parseProgressMessage (lit "step 3: 50/ 100") = (50, 100)
  /\ parseProgressMessage (lit "1_0/5") = (0, 5)
  /\ parseProgressMessage (lit "7/0 8/-2 9/+4") = (9, 4)
  /\ parseProgressMessage (lit "12 / 5") = (0, 0)
  /\ parseProgressMessage (lit "no numbers") = (0, 0).
Proof. repeat split; reflexivity. Qed.

Example float_conversions :
  int_of_float64 (PrimFloat.div (float64_of_int 50) 2.5%float) = 20
  /\ int_of_float64 (PrimFloat.div (float64_of_int 7) 2%float) = 3
  /\ Duration_Seconds (1500 * 1000000) = 1.5%float.
Proof. repeat split; vm_compute; reflexivity. Qed.

(** ** The document registry *)

Section DocumentFacts.

Context {J : JSON}.

Lemma Pipe_Write_ok (p : Pipe) (data : bytes) (k : nat) :
  canWrite p (S k) ->
  exists p', Pipe_Write p data = (p', Ok tt)
             /\ written p' = written p ++ data /\ canWrite p' k.
Proof.
  unfold canWrite, Pipe_Write. destruct (writesLeft p) as [[| n] |]; intros H.
  - lia.
  - eexists. split; [reflexivity |]. split; [reflexivity |]. cbn. lia.
  - eexists. split; [reflexivity |]. split; [reflexivity |]. exact I.
Qed.

(** A message on a healthy pipe appends one frame and changes nothing
    else. *)
Lemma writeMessage_ok (sm : SessionManager) (msg : Msg) (k : nat) :
  canWrite (sm_stdin sm) (S (S k)) ->
  exists p',
    writeMessage sm msg = (set_stdin sm p', Ok tt)
    /\ written p' = written (sm_stdin sm) ++ frame (json_Marshal msg)
    /\ canWrite p' k.
Proof.
  intros Hw. unfold writeMessage.
  destruct (Pipe_Write_ok _ (frameHeader (json_Marshal msg)) _ Hw)
    as (p1 & -> & Hw1 & Hc1).
  destruct (Pipe_Write_ok _ (json_Marshal msg) _ Hc1) as (p2 & -> & Hw2 & Hc2).
  exists p2. split; [reflexivity |]. split; [| exact Hc2].
  rewrite Hw2, Hw1. unfold frame. rewrite app_assoc. reflexivity.
Qed.

(** A notification on a healthy pipe appends one frame and changes
    nothing else. *)
Lemma sendNotification_ok (sm : SessionManager) (method : string)
    (params : Params) (k : nat) :
  canWrite (sm_stdin sm) (S (S k)) ->
  exists p',
    sendNotification sm method params = (set_stdin sm p', Ok tt)
    /\ written p'
       = written (sm_stdin sm) ++ frame (json_Marshal (mkMsg None method params))
    /\ canWrite p' k.
Proof.
  intros Hw. unfold sendNotification, writeMessage.
  destruct (Pipe_Write_ok _ (frameHeader (json_Marshal (mkMsg None method params)))
              _ Hw) as (p1 & -> & Hw1 & Hc1).
  destruct (Pipe_Write_ok _ (json_Marshal (mkMsg None method params)) _ Hc1)
    as (p2 & -> & Hw2 & Hc2).
  exists p2. split; [reflexivity |]. split; [| exact Hc2].
  rewrite Hw2, Hw1. unfold frame. rewrite app_assoc. reflexivity.
Qed.

(** [didOpen] for a document that is not open: one frame. *)
Lemma handleDidOpen_closed (sm : SessionManager) (params : bytes)
    (p : DidOpenParams) (k : nat) :
  unmarshal_didOpen params = Ok p ->
  default false (openDocs sm !! do_uri p) = false ->
  canWrite (sm_stdin sm) (S (S k)) ->
  exists q,
    handleDidOpen sm params
    = (set_stdin (set_openDocs sm (<[do_uri p := true]> (openDocs sm))) q, Ok tt)
    /\ written q
       = written (sm_stdin sm)
           ++ frame (json_Marshal (mkMsg None "textDocument/didOpen" (PDidOpenStruct p)))
    /\ canWrite q k.
Proof.
  intros Hp Hclosed Hw. unfold handleDidOpen. rewrite Hp, Hclosed.
  destruct (sendNotification_ok (set_openDocs sm (<[do_uri p := true]> (openDocs sm)))
              "textDocument/didOpen" (PDidOpenStruct p) k Hw)
    as (q & -> & Hq & Hc).
  exists q. split; [reflexivity |]. split; [exact Hq | exact Hc].
Qed.

(** [didOpen] for a document that is open: a [didClose] frame, then the
    [didOpen] frame. *)
Lemma handleDidOpen_open (sm : SessionManager) (params : bytes)
    (p : DidOpenParams) (k : nat) :
  unmarshal_didOpen params = Ok p ->
  default false (openDocs sm !! do_uri p) = true ->
  canWrite (sm_stdin sm) (S (S (S (S k)))) ->
  exists q,
    handleDidOpen sm params
    = (set_stdin (set_openDocs sm (<[do_uri p := true]> (openDocs sm))) q, Ok tt)
    /\ written q
       = written (sm_stdin sm)
           ++ frame (json_Marshal
                       (mkMsg None "textDocument/didClose" (PCloseParams (do_uri p))))
           ++ frame (json_Marshal (mkMsg None "textDocument/didOpen" (PDidOpenStruct p)))
    /\ canWrite q k.
Proof.
  intros Hp Hopen Hw. unfold handleDidOpen. rewrite Hp, Hopen.
  destruct (sendNotification_ok (set_openDocs sm (<[do_uri p := true]> (openDocs sm)))
              "textDocument/didClose" (PCloseParams (do_uri p)) (S (S k)) Hw)
    as (q1 & -> & Hq1 & Hc1).
  destruct (sendNotification_ok
              (set_stdin (set_openDocs sm (<[do_uri p := true]> (openDocs sm))) q1)
              "textDocument/didOpen" (PDidOpenStruct p) k Hc1)
    as (q2 & -> & Hq2 & Hc2).
  exists q2. split; [reflexivity |]. split; [| exact Hc2].
  rewrite Hq2. cbn [sm_stdin set_stdin]. rewrite Hq1, <- app_assoc. reflexivity.
Qed.

End DocumentFacts.

(** C3. For a document [U] that is not open, two calls of the handler of
    [textDocument/didOpen] for [U] in succession, on a pipe that takes the
    six writes, both succeed; the bytes sent to the LSP server are exactly
    three frames, in this order: [didOpen] with the parameters of the first
    call, [didClose] for [U], [didOpen] with the parameters of the second
    call; and afterwards the set of open documents is the one before with
    [U] added once (its size has grown by one). *)
Theorem C3_didOpen_twice `{J : JSON} (sm : SessionManager)
    (params1 params2 : bytes) (p1 p2 : DidOpenParams) (U : string) :
  unmarshal_didOpen params1 = Ok p1 ->
  unmarshal_didOpen params2 = Ok p2 ->
  do_uri p1 = U ->
  do_uri p2 = U ->
  openDocs sm !! U = None ->
  canWrite (sm_stdin sm) 6 ->
  let sm1 := fst (handleDidOpen sm params1) in
  let sm2 := fst (handleDidOpen sm1 params2) in
  snd (handleDidOpen sm params1) = Ok tt
  /\ snd (handleDidOpen sm1 params2) = Ok tt
  /\ written (sm_stdin sm2)
     = written (sm_stdin sm)
         ++ frame (json_Marshal (mkMsg None "textDocument/didOpen" (PDidOpenStruct p1)))
         ++ frame (json_Marshal (mkMsg None "textDocument/didClose" (PCloseParams U)))
         ++ frame (json_Marshal (mkMsg None "textDocument/didOpen" (PDidOpenStruct p2)))
  /\ openDocs sm2 = <[U := true]> (openDocs sm)
  /\ size (openDocs sm2) = S (size (openDocs sm)).
Proof.
  intros Hp1 Hp2 HU1 HU2 Hclosed Hw. cbv zeta. subst U.
  destruct (handleDidOpen_closed sm params1 p1 4 Hp1) as (q1 & -> & Hq1 & Hc1);
    [rewrite Hclosed; reflexivity | exact Hw |].
  cbn [fst snd].
  destruct (handleDidOpen_open
              (set_stdin (set_openDocs sm (<[do_uri p1 := true]> (openDocs sm))) q1)
              params2 p2 0 Hp2) as (q2 & -> & Hq2 & _);
    [rewrite HU2; cbn [openDocs set_stdin set_openDocs];
     rewrite lookup_insert_eq; reflexivity
    | exact Hc1 |].
  cbn [fst snd sm_stdin set_stdin set_openDocs openDocs] in *.
  split; [reflexivity |]. split; [reflexivity |].
  split; [rewrite Hq2, Hq1, HU2, <- !app_assoc; reflexivity |].
  rewrite HU2, insert_insert_eq. split; [reflexivity |].
  apply map_size_insert_None. exact Hclosed.
Qed.

(** The refresh scenario: [didOpen(file:///X)], then [didOpen(file:///X)]
    with new text, on a new session. *)
Lemma C3_didOpen_twice_witness :
  let sm1 := fst (@handleDidOpen exampleJSON session0 (didOpenBody "file:///X" "old")) in
  let sm2 := fst (@handleDidOpen exampleJSON sm1 (didOpenBody "file:///X" "new")) in
  snd (@handleDidOpen exampleJSON session0 (didOpenBody "file:///X" "old")) = Ok tt
  /\ snd (@handleDidOpen exampleJSON sm1 (didOpenBody "file:///X" "new")) = Ok tt
  /\ written (sm_stdin sm2)
     = written (sm_stdin session0)
         ++ frame (exampleMarshal
                     (mkMsg None "textDocument/didOpen"
                        (PDidOpenStruct (mkDidOpen "file:///X" (lit "bsl") 1 (lit "old")))))
         ++ frame (exampleMarshal
                     (mkMsg None "textDocument/didClose" (PCloseParams "file:///X")))
         ++ frame (exampleMarshal
                     (mkMsg None "textDocument/didOpen"
                        (PDidOpenStruct (mkDidOpen "file:///X" (lit "bsl") 1 (lit "new")))))
  /\ openDocs sm2 = <[ "file:///X"%string := true ]> (openDocs session0)
  /\ size (openDocs sm2) = S (size (openDocs session0)).
Proof.
  apply (@C3_didOpen_twice exampleJSON session0
           (didOpenBody "file:///X" "old") (didOpenBody "file:///X" "new")
           (mkDidOpen "file:///X" (lit "bsl") 1 (lit "old"))
           (mkDidOpen "file:///X" (lit "bsl") 1 (lit "new")) "file:///X").
  - reflexivity.
  - reflexivity.
  - reflexivity.
  - reflexivity.
  - reflexivity.
  - exact I.
Defined.

(** ** The framed codec: write, then read *)

(** C9. The framed codec is a round trip. For every message whose
    marshalled body is not empty, [writeMessage] on a pipe that takes its
    two writes puts on the pipe a [Content-Length] header line with the
    length of the body, a blank line, then exactly the body bytes; and the
    frame reader, fed these bytes followed by whatever comes next on the
    stream, returns exactly that body and is left at the bytes that follow.
    This holds for every body that [make] accepts (up to [maxAlloc], which
    is above 16 MiB) and that the runtime can allocate. *)
Theorem C9_codec_roundtrip `{J : JSON} (heap : Z) (sm : SessionManager)
    (msg : Msg) (rest : bytes) :
  canWrite (sm_stdin sm) 2 ->
  json_Marshal msg <> [] ->
  Z.of_nat (length (json_Marshal msg)) <= Z.min maxAlloc heap ->
  snd (writeMessage sm msg) = Ok tt
  /\ written (sm_stdin (fst (writeMessage sm msg)))
     = written (sm_stdin sm) ++ emittedBy sm msg
  /\ emittedBy sm msg
     = lit "Content-Length: " ++ FormatInt (Z.of_nat (length (json_Marshal msg)))
         ++ [ascii_of_code 13; newline] ++ [ascii_of_code 13; newline]
         ++ json_Marshal msg
  /\ readLSPMessageOn heap (emittedBy sm msg ++ rest)
     = Finished (Ret (json_Marshal msg, rest))
  /\ 16 * 1024 * 1024 <= maxAlloc.
Proof.
  intros Hw Hne Hlen.
  destruct (writeMessage_ok sm msg 0 Hw) as (q & Hwm & Hq & _).
  assert (Hem : emittedBy sm msg = frame (json_Marshal msg)).
  { unfold emittedBy. rewrite Hwm. cbn [fst set_stdin sm_stdin].
    rewrite Hq. apply drop_app_length. }
  rewrite Hwm. cbn [fst snd set_stdin sm_stdin].
  split; [reflexivity |]. split; [rewrite Hem; exact Hq |].
  split; [rewrite Hem; unfold frame, frameHeader; rewrite <- !app_assoc; reflexivity |].
  split; [| apply maxAlloc_covers_16MiB].
  rewrite Hem.
  assert (Hrt : readLSPMessage (frame (json_Marshal msg) ++ rest)
                = Ret (json_Marshal msg, rest))
    by (apply readLSPMessage_of_frame; [exact Hne | lia]).
  rewrite readLSPMessageOn_allocated; [rewrite Hrt; reflexivity |].
  revert Hrt. unfold readLSPMessage.
  destruct (readHeaders _ _ 0) as [[n rest'] | e]; [| intros _; exact I].
  destruct (Z.eqb_spec n 0) as [? | Hn0]; [discriminate |].
  destruct ((n <? 0) || (maxAlloc <? n)) eqn:Hrange; [discriminate |].
  apply orb_false_iff in Hrange. destruct Hrange as [Hneg _].
  apply Z.ltb_ge in Hneg.
  unfold ReadFull. destruct (Z.to_nat n <=? length rest')%nat eqn:Hfull;
    [| destruct rest'; discriminate].
  intros [= Hbody _]. apply (f_equal (@length ascii)) in Hbody.
  apply Nat.leb_le in Hfull. rewrite length_take in Hbody. lia.
Qed.

(** The round trip at the [initialized] notification, on a machine that
    can allocate 16 MiB, followed by the start of another frame. *)
Lemma C9_codec_roundtrip_witness :
  snd (@writeMessage exampleJSON session0 (mkMsg None "initialized" PEmptyObject)) = Ok tt
  /\ written (sm_stdin (fst (@writeMessage exampleJSON session0
                                (mkMsg None "initialized" PEmptyObject))))
     = written (sm_stdin session0)
         ++ @emittedBy exampleJSON session0 (mkMsg None "initialized" PEmptyObject)
  /\ @emittedBy exampleJSON session0 (mkMsg None "initialized" PEmptyObject)
     = lit "Content-Length: "
         ++ FormatInt (Z.of_nat (length (exampleMarshal
                                           (mkMsg None "initialized" PEmptyObject))))
         ++ [ascii_of_code 13; newline] ++ [ascii_of_code 13; newline]
         ++ exampleMarshal (mkMsg None "initialized" PEmptyObject)
  /\ readLSPMessageOn (16 * 1024 * 1024)
       (@emittedBy exampleJSON session0 (mkMsg None "initialized" PEmptyObject)
          ++ lit "Content-Length: 2")
     = Finished (Ret (exampleMarshal (mkMsg None "initialized" PEmptyObject),
                      lit "Content-Length: 2"))
  /\ 16 * 1024 * 1024 <= maxAlloc.
Proof.
  apply (@C9_codec_roundtrip exampleJSON (16 * 1024 * 1024) session0
           (mkMsg None "initialized" PEmptyObject) (lit "Content-Length: 2")).
  - exact I.
  - vm_compute. discriminate.
  - vm_compute. discriminate.
Defined.

(** ** The request-id codec: parse, then serialize *)

Example UnmarshalJSON_examples :
  UnmarshalJSON zeroID (lit "42") = Ok (mkID (Some 42) None)
  /\ UnmarshalJSON zeroID (quote "42") = Ok (mkID (Some 42) (Some (lit "42")))
  /\ UnmarshalJSON zeroID (quote "abc") = Ok (mkID None (Some (lit "abc")))
  /\ UnmarshalJSON zeroID (lit "null") = Ok zeroID
  /\ UnmarshalJSON zeroID (lit "true")
     = Err (errorf "id must be string, number, or null, got: true")
  /\ UnmarshalJSON zeroID (lit "1.5")
     = Err (errorf "id must be string, number, or null, got: 1.5").
Proof. repeat split; reflexivity. Qed.

(** C4, the claim as stated fails at the input ["42"]: the id that is the
    JSON string ["42"] is parsed into both fields, and [MarshalJSON] prefers
    the integer, so the string comes back as the number [42]: the wire shape
    is not preserved. *)
Lemma C4_numeric_string_comes_back_as_number :
  parseThenSerialize (Some (quote "42")) = Ok (lit "42")
  /\ bytes_eqb (lit "42") (quote "42") = false.
Proof. split; reflexivity. Qed.

(** C4, amended. Parsing an id with [UnmarshalJSON] and serializing it with
    [MarshalJSON] gives back the number [42] as the number [42], the string
    ["abc"] as the string ["abc"], and [null] as [null]; an absent id (for
    which [UnmarshalJSON] is not called) is serialized as [null]; the string
    ["42"] comes back as the number [42]. In general an id that is a JSON
    string comes back as a string exactly when its content is not a decimal
    64-bit integer: otherwise it comes back as that integer. *)
Theorem C4_parse_then_serialize :
  parseThenSerialize (Some (lit "42")) = Ok (lit "42")
  /\ parseThenSerialize (Some (quote "abc")) = Ok (quote "abc")
  /\ parseThenSerialize (Some (lit "null")) = Ok (lit "null")
  /\ parseThenSerialize None = Ok (lit "null")
  /\ parseThenSerialize (Some (quote "42")) = Ok (lit "42")
  /\ forall (data s : bytes),
       data <> lit "null" ->
       is_Ok (jsonUnmarshalInt64 data) = false ->
       jsonUnmarshalString data = Ok s ->
       parseThenSerialize (Some data)
       = Ok (match ParseInt s with
             | Ok n => jsonMarshalInt64 n
             | Err _ => jsonMarshalString s
             end).
Proof.
  repeat (split; [reflexivity |]).
  intros data s Hnull Hint Hstr.
  unfold parseThenSerialize, parseID, UnmarshalJSON, bytes_eqb.
  rewrite bool_decide_eq_false_2 by exact Hnull.
  destruct (jsonUnmarshalInt64 data) as [i | e]; [discriminate Hint |].
  rewrite Hstr. destruct (ParseInt s) as [n | e']; reflexivity.
Qed.

Lemma C4_parse_then_serialize_witness :
  parseThenSerialize (Some (quote "+7"))
  = Ok (match ParseInt (lit "+7") with
        | Ok n => jsonMarshalInt64 n
        | Err _ => jsonMarshalString (lit "+7")
        end).
Proof.
  apply (proj2 (proj2 (proj2 (proj2 (proj2 C4_parse_then_serialize))))
           (quote "+7") (lit "+7")).
  - discriminate.
  - reflexivity.
  - reflexivity.
Defined.

(** ** [session/status] *)

Example indexingAllReported_value :
  indexingAllReported
  = mkIndexing true (lit "Indexing") (lit "100/100 files") 100 100 100
      (1 * Second) (1 * Second) (3 * Second) 50%float.
Proof. vm_compute. reflexivity. Qed.

(** C7, the claim as stated fails: after the progress reports [begin],
    [50/100] and [100/100] the state is [indexing] (the active flag is still
    set) and the speed is positive (50 files per second), but the status has
    no [eta_seconds]: the handler also requires [total > current]. *)
Lemma C7_indexing_with_speed_without_eta :
  st_state (st_indexing (getStatus (set_indexing session0 indexingAllReported)
                           (4 * Second)))
  = "indexing"%string
  /\ PrimFloat.ltb 0%float (indexingSpeed indexingAllReported) = true
  /\ st_eta_seconds (st_indexing (getStatus (set_indexing session0 indexingAllReported)
                                    (4 * Second)))
     = None.
Proof. repeat split; vm_compute; reflexivity. Qed.

(** C7, amended. The handler of [session/status] derives the state as
    [indexing] if the active flag is set or [total > 0] and
    [current < total]; [complete] if [total > 0] and [current >= total];
    otherwise [idle]. It reports [eta_seconds] if and only if the state is
    [indexing], [speed > 0] and [current < total], and the value is
    [(total - current) / speed], divided as binary64 numbers and
    truncated to an integer. *)
Theorem C7_status_state_and_eta (sm : SessionManager) (now : Time) :
  st_state (st_indexing (getStatus sm now))
  = (if indexingActive (indexing sm)
        || ((0 <? indexingTotal (indexing sm))
            && (indexingCurrent (indexing sm) <? indexingTotal (indexing sm)))
     then "indexing"%string
     else if (0 <? indexingTotal (indexing sm))
             && (indexingTotal (indexing sm) <=? indexingCurrent (indexing sm))
     then "complete"%string
     else "idle"%string)
  /\ forall v : Z,
       st_eta_seconds (st_indexing (getStatus sm now)) = Some v
       <-> st_state (st_indexing (getStatus sm now)) = "indexing"%string
           /\ PrimFloat.ltb 0%float (indexingSpeed (indexing sm)) = true
           /\ indexingCurrent (indexing sm) < indexingTotal (indexing sm)
           /\ v = int_of_float64
                    (PrimFloat.div
                       (float64_of_int
                          (wrap64 (indexingTotal (indexing sm)
                                   - indexingCurrent (indexing sm))))
                       (indexingSpeed (indexing sm))).
Proof.
  split; [reflexivity |].
  intros v. unfold getStatus. cbn [st_indexing st_state st_eta_seconds].
  unfold status_isActive, status_isComplete.
  set (ix := indexing sm).
  destruct (indexingActive ix
            || (0 <? indexingTotal ix) && (indexingCurrent ix <? indexingTotal ix))
    eqn:Hact; cbn [andb].
  - destruct (PrimFloat.ltb 0 (indexingSpeed ix)) eqn:Hspeed; cbn [andb].
    + destruct (Z.ltb_spec (indexingCurrent ix) (indexingTotal ix)) as [Hlt | Hge].
      * split.
        -- intros [= <-]. repeat split; assumption.
        -- intros (_ & _ & _ & ->). reflexivity.
      * split; [discriminate |]. intros (_ & _ & Hlt & _). lia.
    + split; [discriminate |]. intros (_ & Hf & _). discriminate Hf.
  - split; [discriminate |]. intros (Hst & _).
    destruct ((0 <? indexingTotal ix) && (indexingTotal ix <=? indexingCurrent ix));
      discriminate Hst.
Qed.

(** ** The router *)

Section RouterFacts.

Context {J : JSON}.

Lemma handleAPIRequest_unknown (sm : SessionManager) (method : string)
    (params : bytes) (now : Time) :
  isHandled method = false ->
  handleAPIRequest sm method params now
  = Done sm (Err (errorf ("unknown method: " +:+ method))).
Proof.
  unfold isHandled, handledMethods, localMethods. intros Hnot.
  apply bool_decide_eq_false_1 in Hnot.
  rewrite elem_of_app, !elem_of_cons in Hnot.
  unfold handleAPIRequest.
  repeat match goal with
         | |- context [String.eqb method ?m] =>
             destruct (String.eqb_spec method m) as [-> | _];
             [exfalso; apply Hnot; left; tauto |]
         end.
  rewrite bool_decide_eq_false_2 by tauto. reflexivity.
Qed.

Lemma handleLine_code (sm sm' : SessionManager) (line : bytes) (now : Time)
    (answer : option lspResponse) (id code : Z) (message : string) :
  handleLine sm line now answer = (sm', Some (RespError id code message)) ->
  match unmarshal_request (TrimSpace line) with
  | Err _ => code = -32700 /\ id = 0
  | Ok req => code = -32603 /\ id = req_id req
  end.
Proof.
  unfold handleLine. destruct (TrimSpace line) as [| c l] eqn:Hl; [discriminate |].
  destruct (unmarshal_request (c :: l)) as [req | e].
  - destruct (handleAPIRequest sm (req_method req) (req_params req) now)
      as [sm1 r | m p t].
    + destruct r; intros [= <- <- <- <-] || intros [=]. split; reflexivity.
    + destruct (sendRequestAlone sm m p answer) as [sm1 [raw | e]];
        intros [= <- <- <- <-] || intros [=]. split; reflexivity.
  - intros [= <- <- <- <-]. split; reflexivity.
Qed.

End RouterFacts.

(** C8, the claim as stated fails: a request for a method outside the
    handled set is answered with the code -32603, not -32601. *)
Lemma C8_unknown_method_code_is_32603 :
  @handleLine exampleJSON session0 (requestLine 7 "textDocument/foo") 0 None
  = (session0, Some (RespError 7 (-32603) "unknown method: textDocument/foo")).
Proof. vm_compute. reflexivity. Qed.

(** C8, amended. A request line that does not parse is answered with an
    error response of code -32700 and id 0. A request whose method is not in
    the handled set is answered with an error response that carries the id
    of the request, the code -32603 and the message [unknown method:]
    followed by the method; the session is unchanged. Every error response
    to a line that does not parse has the code -32700, and every error
    response to a request that parses (a failure of its handler, of the
    forwarded request, or an unknown method) has the code -32603 and the id
    of the request: the code -32601 is never sent. *)
Theorem C8_error_responses `{J : JSON} (sm : SessionManager) (line : bytes)
    (now : Time) (answer : option lspResponse) :
  TrimSpace line <> [] ->
  (forall e, unmarshal_request (TrimSpace line) = Err e ->
             handleLine sm line now answer
             = (sm, Some (RespError 0 (-32700) "Parse error")))
  /\ (forall req, unmarshal_request (TrimSpace line) = Ok req ->
                  isHandled (req_method req) = false ->
                  handleLine sm line now answer
                  = (sm, Some (RespError (req_id req) (-32603)
                                 ("unknown method: " +:+ req_method req))))
  /\ (forall sm' id code message,
         handleLine sm line now answer = (sm', Some (RespError id code message)) ->
         match unmarshal_request (TrimSpace line) with
         | Err _ => code = -32700 /\ id = 0
         | Ok req => code = -32603 /\ id = req_id req
         end).
Proof.
  intros Hline. split; [| split].
  - intros e He. unfold handleLine.
    destruct (TrimSpace line) as [| c l]; [congruence |]. rewrite He. reflexivity.
  - intros req Hreq Hnot. unfold handleLine.
    destruct (TrimSpace line) as [| c l]; [congruence |]. rewrite Hreq.
    rewrite handleAPIRequest_unknown by exact Hnot. reflexivity.
  - intros sm' id code message. apply handleLine_code.
Qed.

Lemma C8_error_responses_witness :
  (forall e, @unmarshal_request exampleJSON (TrimSpace (lit "{nonsense")) = Err e ->
             @handleLine exampleJSON session0 (lit "{nonsense") 0 None
             = (session0, Some (RespError 0 (-32700) "Parse error")))
  /\ (forall req, @unmarshal_request exampleJSON (TrimSpace (lit "{nonsense")) = Ok req ->
                  isHandled (req_method req) = false ->
                  @handleLine exampleJSON session0 (lit "{nonsense") 0 None
                  = (session0, Some (RespError (req_id req) (-32603)
                                       ("unknown method: " +:+ req_method req))))
  /\ (forall sm' id code message,
         @handleLine exampleJSON session0 (lit "{nonsense") 0 None
         = (sm', Some (RespError id code message)) ->
         match @unmarshal_request exampleJSON (TrimSpace (lit "{nonsense")) with
         | Err _ => code = -32700 /\ id = 0
         | Ok req => code = -32603 /\ id = req_id req
         end).
Proof.
  apply (@C8_error_responses exampleJSON session0 (lit "{nonsense") 0 None).
  discriminate.
Defined.

(** ** The start of the file watcher *)

Section WatcherStartFacts.

(** The watcher is started at a poll, one period or more after the routine
    was entered, that found the flag unset. *)
Lemma startFileWatcherAfterIndexing_Some (ixAt : Time -> IndexingState)
    (late : list N) (t u : Time) :
  startFileWatcherAfterIndexing ixAt t late = Some u ->
  t + watcherPollPeriod <= u /\ indexingActive (ixAt u) = false.
Proof.
  revert t. induction late as [| d late IH]; intros t; [discriminate |].
  cbn [startFileWatcherAfterIndexing].
  destruct (indexingActive (ixAt (t + watcherPollPeriod + Z.of_N d))) eqn:Hact.
  - intros H. destruct (IH _ H) as [Hle Hu]. split; [| exact Hu].
    assert (0 < watcherPollPeriod) by reflexivity. lia.
  - intros [= <-]. split; [lia | exact Hact].
Qed.

End WatcherStartFacts.

(** C6, the code at the failing input. The routine is entered at second 0
    and the first notification of the server, a [begin], comes at second
    12. The first poll, at second 5, finds the flag unset, so the routine
    calls [startFileWatcher] then, and in mode [polling] the watcher
    starts: no indexing cycle has begun by then ([indexingFirstStartedAt]
    is still the zero time), let alone completed, and from second 12 the
    server indexes with the watcher running. *)
Lemma C6_watcher_started_before_indexing_began :
  startFileWatcherAfterIndexing progressFromSecond12 0 [0%N] = Some (5 * Second)
  /\ startFileWatcher WatcherModePolling false = Ok PollingBackend
  /\ Time_IsZero (indexingFirstStartedAt (progressFromSecond12 (5 * Second))) = true
  /\ indexingActive (progressFromSecond12 (5 * Second)) = false
  /\ indexingActive (progressFromSecond12 (12 * Second)) = true.
Proof. repeat split; reflexivity. Qed.

(** ** The read loop *)

Section ReaderFacts.

Context {J : JSON}.

Lemma ReadString_consumes (delim : ascii) (r line rest : bytes) :
  ReadString delim r = (line, rest, None) -> (length rest < length r)%nat.
Proof.
  revert line rest. induction r as [| c r IH]; intros line rest; cbn [ReadString].
  - discriminate.
  - case_bool_decide.
    + intros [= <- <-]. cbn [length]. lia.
    + destruct (ReadString delim r) as [[line' rest'] err] eqn:Hrec.
      intros [= <- <- ->]. specialize (IH _ _ eq_refl). cbn [length]. lia.
Qed.

Lemma readHeaders_consumes (fuel : nat) (r rest : bytes) (cl cl' : Z) :
  readHeaders fuel r cl = Ok (cl', rest) -> (length rest < length r)%nat.
Proof.
  revert r cl. induction fuel as [| fuel IH]; intros r cl; cbn [readHeaders].
  - discriminate.
  - destruct (ReadString newline r) as [[line rest1] [e |]] eqn:Hread;
      [discriminate |].
    apply ReadString_consumes in Hread.
    destruct (TrimSpace line) as [| c l].
    + intros [= <- <-]. exact Hread.
    + destruct (HasPrefix (c :: l) ContentLengthPrefix).
      * destruct (Atoi _); [| discriminate]. intros H. apply IH in H. lia.
      * intros H. apply IH in H. lia.
Qed.

Lemma readLSPMessage_consumes (r body rest : bytes) :
  readLSPMessage r = Ret (body, rest) -> (length rest < length r)%nat.
Proof.
  unfold readLSPMessage.
  destruct (readHeaders (S (length r)) r 0) as [[cl rest1] | e] eqn:Hh;
    [| discriminate].
  apply readHeaders_consumes in Hh.
  destruct (cl =? 0); [discriminate |].
  destruct ((cl <? 0) || (maxAlloc <? cl)); [discriminate |].
  unfold ReadFull. destruct (Z.to_nat cl <=? length rest1)%nat.
  - intros [= <- <-]. rewrite length_drop. lia.
  - destruct rest1; discriminate.
Qed.

(** A round that leaves the reader reading has consumed a frame. *)
Lemma readerRound_consumes (s : System) :
  reader (readerRound s) = Reading ->
  (length (stdout (readerRound s)) < length (stdout s))%nat.
Proof.
  unfold readerRound.
  destruct (readLSPMessage (stdout s)) as [[msg rest] | e |] eqn:Hread;
    [| discriminate | discriminate].
  apply readLSPMessage_consumes in Hread. intros _.
  repeat match goal with
         | |- context [match ?x with _ => _ end] => destruct x
         end; exact Hread.
Qed.

Lemma reader_cases (r : ReaderPC) : r = Reading \/ r <> Reading.
Proof. destruct r; (left; reflexivity) || (right; discriminate). Qed.

Lemma readLoop_stopped (fuel : nat) (s : System) :
  reader s <> Reading -> readLoop fuel s = s.
Proof.
  intros Hr. destruct fuel; [reflexivity |]. cbn [readLoop].
  destruct (reader s); congruence || reflexivity.
Qed.

(** More fuel than the length of the stream changes nothing. *)
Lemma readLoop_fuel (fuel : nat) (s : System) :
  (length (stdout s) < fuel)%nat ->
  readLoop fuel s = readResponses s.
Proof.
  unfold readResponses.
  remember (length (stdout s)) as n eqn:Hn. revert fuel s Hn.
  induction n as [n IH] using lt_wf_ind. intros fuel s Hn Hfuel.
  destruct fuel as [| fuel]; [lia |]. cbn [readLoop].
  destruct (reader s) eqn:Hr; try reflexivity.
  destruct (reader_cases (reader (readerRound s))) as [Hr' | Hr'].
  - pose proof (readerRound_consumes s Hr') as Hlt.
    rewrite (IH (length (stdout (readerRound s))) ltac:(lia) fuel _ eq_refl ltac:(lia)).
    rewrite (IH (length (stdout (readerRound s))) ltac:(lia) n _ eq_refl ltac:(lia)).
    reflexivity.
  - rewrite !readLoop_stopped by exact Hr'. reflexivity.
Qed.

(** The loop after one round that leaves the reader reading. *)
Lemma readResponses_round (s : System) :
  reader s = Reading ->
  readResponses s = readResponses (readerRound s).
Proof.
  intros Hr. unfold readResponses at 1. cbn [readLoop]. rewrite Hr.
  destruct (reader_cases (reader (readerRound s))) as [Hr' | Hr'].
  - apply readLoop_fuel. apply readerRound_consumes. exact Hr'.
  - unfold readResponses. rewrite !readLoop_stopped by exact Hr'. reflexivity.
Qed.

(** A read error ends the loop. *)
Lemma readResponses_read_error (s : System) (e : goerr) :
  reader s = Reading ->
  readLSPMessage (stdout s) = Fail e ->
  readResponses s
  = mkSystem (sys_sm s) (callers s) (stdout s) (ReaderReturned e) (clock s)
      (logs s ++ [LogReadError e]) (arrived s) (delivered s).
Proof.
  intros Hr He. rewrite (readResponses_round s Hr).
  unfold readerRound. rewrite He. apply readLoop_stopped. discriminate.
Qed.

Lemma headerBlock_nil (blank rest : bytes) :
  headerBlock [] blank ++ rest = blank ++ newline :: rest.
Proof. unfold headerBlock. cbn [map concat app]. rewrite <- app_assoc. reflexivity. Qed.

Lemma headerBlock_cons (line : bytes) (lines : list bytes) (blank rest : bytes) :
  headerBlock (line :: lines) blank ++ rest
  = line ++ newline :: (headerBlock lines blank ++ rest).
Proof.
  unfold headerBlock. cbn [map concat]. rewrite <- !app_assoc. reflexivity.
Qed.

(** A header block with no [Content-Length] line leaves the length as it
    was. *)
Lemma readHeaders_headerBlock (lines : list bytes) (blank rest : bytes)
    (cl : Z) (fuel : nat) :
  Forall otherHeaderLine lines -> blankLine blank ->
  (length lines < fuel)%nat ->
  readHeaders fuel (headerBlock lines blank ++ rest) cl = Ok (cl, rest).
Proof.
  intros Hlines [Hb1 Hb2]. revert fuel.
  induction Hlines as [| line lines (Hl1 & Hl2 & Hl3) _ IH]; intros fuel Hfuel;
    (destruct fuel as [| fuel]; [lia |]).
  - rewrite headerBlock_nil. cbn [readHeaders].
    rewrite ReadString_line by exact Hb1. rewrite Hb2. reflexivity.
  - rewrite headerBlock_cons. cbn [readHeaders].
    rewrite ReadString_line by exact Hl1.
    destruct (TrimSpace (line ++ [newline])) as [| c l] eqn:Ht; [congruence |].
    rewrite Hl3. apply IH. cbn [length] in Hfuel. lia.
Qed.

Lemma readLSPMessage_headerBlock (lines : list bytes) (blank rest : bytes) :
  Forall otherHeaderLine lines -> blankLine blank ->
  readLSPMessage (headerBlock lines blank ++ rest)
  = Fail (errorf "missing Content-Length header").
Proof.
  intros Hlines Hblank. unfold readLSPMessage.
  rewrite readHeaders_headerBlock; [reflexivity | assumption | assumption |].
  unfold headerBlock. rewrite !length_app. cbn [length].
  assert (length lines <= length (concat (map (fun line => line ++ [newline]) lines)))%nat.
  { clear. induction lines as [| l lines IH]; [cbn; lia |].
    cbn [map concat length]. rewrite !length_app. cbn [length]. lia. }
  lia.
Qed.

(** A frame whose body does not decode is logged and dropped. *)
Lemma readerRound_parse_failure (s : System) (body rest : bytes) (e : goerr) :
  stdout s = frame body ++ rest ->
  body <> [] -> Z.of_nat (length body) <= maxAlloc ->
  decodeBaseMsg body = Err e ->
  readerRound s
  = mkSystem (sys_sm s) (callers s) rest Reading (clock s)
      (logs s ++ [LogParseFailure body]) (arrived s) (delivered s).
Proof.
  intros Hout Hne Hlen Hdec. unfold readerRound.
  rewrite Hout, readLSPMessage_of_frame by assumption. rewrite Hdec. reflexivity.
Qed.

End ReaderFacts.

(** C5, the claim as stated fails for a header block without
    [Content-Length]: the error of [readLSPMessage] is logged and the read
    loop returns. Nothing of the stream is consumed, and the well-formed
    frame that follows (the notification that indexing begins) is never
    processed: the indexing flag stays unset. *)
Lemma C5_missing_ContentLength_ends_the_loop :
  @readResponses exampleJSON systemWithoutLength
  = mkSystem session0 [] streamWithoutLength
      (ReaderReturned (errorf "missing Content-Length header")) (1 * Second)
      [LogReadError (errorf "missing Content-Length header")] [] []
  /\ indexingActive (indexing (sys_sm (@readResponses exampleJSON systemWithoutLength)))
     = false
  /\ indexingActive
       (indexing (sys_sm (@readResponses exampleJSON
                            (initSystem session0 (frame (progressBody "begin" ""))
                               (1 * Second)))))
     = true.
Proof. repeat split; vm_compute; reflexivity. Qed.

(** C5, amended. When the reader of the LSP stdout meets a frame whose body
    does not decode as a message (malformed JSON, or an id that is not a
    string, a number or null), the failure is logged, the message is
    dropped, and the read loop goes on with the bytes after the frame. When
    the header block lacks a [Content-Length] header, or [readLSPMessage]
    fails in any other way, the error is logged and the read loop returns:
    no later message is processed. *)
Theorem C5_read_loop_failures `{J : JSON} (s : System) :
  reader s = Reading ->
  (forall body rest e,
      stdout s = frame body ++ rest ->
      body <> [] -> Z.of_nat (length body) <= maxAlloc ->
      decodeBaseMsg body = Err e ->
      readerRound s
      = mkSystem (sys_sm s) (callers s) rest Reading (clock s)
          (logs s ++ [LogParseFailure body]) (arrived s) (delivered s)
      /\ readResponses s
         = readResponses
             (mkSystem (sys_sm s) (callers s) rest Reading (clock s)
                (logs s ++ [LogParseFailure body]) (arrived s) (delivered s)))
  /\ (forall lines blank rest,
         stdout s = headerBlock lines blank ++ rest ->
         Forall otherHeaderLine lines -> blankLine blank ->
         readResponses s
         = mkSystem (sys_sm s) (callers s) (stdout s)
             (ReaderReturned (errorf "missing Content-Length header")) (clock s)
             (logs s ++ [LogReadError (errorf "missing Content-Length header")])
             (arrived s) (delivered s))
  /\ (forall e,
         readLSPMessage (stdout s) = Fail e ->
         readResponses s
         = mkSystem (sys_sm s) (callers s) (stdout s) (ReaderReturned e) (clock s)
             (logs s ++ [LogReadError e]) (arrived s) (delivered s)).
Proof.
  intros Hr. split; [| split].
  - intros body rest e Hout Hne Hlen Hdec.
    pose proof (readerRound_parse_failure s body rest e Hout Hne Hlen Hdec) as Hround.
    split; [exact Hround |].
    rewrite (readResponses_round s Hr), Hround. reflexivity.
  - intros lines blank rest Hout Hlines Hblank.
    apply readResponses_read_error; [exact Hr |].
    rewrite Hout. apply readLSPMessage_headerBlock; assumption.
  - intros e He. apply readResponses_read_error; assumption.
Qed.

Lemma C5_read_loop_failures_witness :
  (forall body rest e,
      stdout systemWithoutLength = frame body ++ rest ->
      body <> [] -> Z.of_nat (length body) <= maxAlloc ->
      @decodeBaseMsg exampleJSON body = Err e ->
      @readerRound exampleJSON systemWithoutLength
      = mkSystem (sys_sm systemWithoutLength) (callers systemWithoutLength) rest
          Reading (clock systemWithoutLength)
          (logs systemWithoutLength ++ [LogParseFailure body])
          (arrived systemWithoutLength) (delivered systemWithoutLength)
      /\ @readResponses exampleJSON systemWithoutLength
         = @readResponses exampleJSON
             (mkSystem (sys_sm systemWithoutLength) (callers systemWithoutLength) rest
                Reading (clock systemWithoutLength)
                (logs systemWithoutLength ++ [LogParseFailure body])
                (arrived systemWithoutLength) (delivered systemWithoutLength)))
  /\ (forall lines blank rest,
         stdout systemWithoutLength = headerBlock lines blank ++ rest ->
         Forall otherHeaderLine lines -> blankLine blank ->
         @readResponses exampleJSON systemWithoutLength
         = mkSystem (sys_sm systemWithoutLength) (callers systemWithoutLength)
             (stdout systemWithoutLength)
             (ReaderReturned (errorf "missing Content-Length header"))
             (clock systemWithoutLength)
             (logs systemWithoutLength
                ++ [LogReadError (errorf "missing Content-Length header")])
             (arrived systemWithoutLength) (delivered systemWithoutLength))
  /\ (forall e,
         readLSPMessage (stdout systemWithoutLength) = Fail e ->
         @readResponses exampleJSON systemWithoutLength
         = mkSystem (sys_sm systemWithoutLength) (callers systemWithoutLength)
             (stdout systemWithoutLength) (ReaderReturned e)
             (clock systemWithoutLength)
             (logs systemWithoutLength ++ [LogReadError e])
             (arrived systemWithoutLength) (delivered systemWithoutLength)).
Proof.
  apply (@C5_read_loop_failures exampleJSON systemWithoutLength).
  reflexivity.
Defined.

(** ** The request broker *)

Section BrokerFacts.

Context {J : JSON}.

Lemma wrap64_small (z : Z) : minInt64 <= z <= maxInt64 -> wrap64 z = z.
Proof.
  unfold minInt64, maxInt64, wrap64. intros H.
  rewrite Z.mod_small by lia. lia.
Qed.

Lemma wrap64_succ (z : Z) : wrap64 (wrap64 z + 1) = wrap64 (z + 1).
Proof.
  unfold wrap64.
  replace ((z + 2 ^ 63) mod 2 ^ 64 - 2 ^ 63 + 1 + 2 ^ 63)
    with ((z + 2 ^ 63) mod 2 ^ 64 + 1) by lia.
  rewrite Zplus_mod_idemp_l. f_equal. f_equal. lia.
Qed.

(** [writeMessage] touches the pipe only. *)
Lemma writeMessage_fields (sm : SessionManager) (msg : Msg) :
  exists p, fst (writeMessage sm msg) = set_stdin sm p.
Proof.
  unfold writeMessage.
  destruct (Pipe_Write (sm_stdin sm) _) as [p1 [[] | e]]; [| eexists; reflexivity].
  destruct (Pipe_Write p1 _) as [p2 r2]. eexists. reflexivity.
Qed.

Lemma writeMessage_broker (sm : SessionManager) (msg : Msg) :
  requestID (fst (writeMessage sm msg)) = requestID sm
  /\ pending (fst (writeMessage sm msg)) = pending sm.
Proof.
  destruct (writeMessage_fields sm msg) as [p ->]. split; reflexivity.
Qed.

Lemma handleDidOpen_broker (sm : SessionManager) (params : bytes) :
  requestID (fst (handleDidOpen sm params)) = requestID sm
  /\ pending (fst (handleDidOpen sm params)) = pending sm.
Proof.
  unfold handleDidOpen, sendNotification.
  destruct (unmarshal_didOpen params) as [p | e]; [| split; reflexivity].
  destruct (default false (openDocs sm !! do_uri p)).
  - match goal with
    | |- context [writeMessage ?s ?m] =>
        pose proof (writeMessage_broker s m) as [H1 H2];
        destruct (writeMessage s m) as [sm1 [[] | e]]
    end; cbn [fst] in *.
    + match goal with
      | |- context [writeMessage ?s ?m] =>
          pose proof (writeMessage_broker s m) as [H3 H4]
      end.
      rewrite H3, H4, H1, H2. split; reflexivity.
    + rewrite H1, H2. split; reflexivity.
  - match goal with
    | |- context [writeMessage ?s ?m] =>
        pose proof (writeMessage_broker s m) as [H1 H2]
    end. rewrite H1, H2. split; reflexivity.
Qed.

Lemma handleDidClose_broker (sm : SessionManager) (params : bytes) :
  requestID (fst (handleDidClose sm params)) = requestID sm
  /\ pending (fst (handleDidClose sm params)) = pending sm.
Proof.
  unfold handleDidClose, sendNotification.
  destruct (unmarshal_didClose params) as [p | e]; [| split; reflexivity].
  match goal with
  | |- context [writeMessage ?s ?m] =>
      pose proof (writeMessage_broker s m) as [H1 H2]
  end. rewrite H1, H2. split; reflexivity.
Qed.

Lemma handleAPIRequest_Done_broker (sm sm' : SessionManager) (method : string)
    (params : bytes) (now : Time) (r : result APIValue) :
  handleAPIRequest sm method params now = Done sm' r ->
  requestID sm' = requestID sm /\ pending sm' = pending sm.
Proof.
  unfold handleAPIRequest.
  repeat match goal with
         | |- context [if ?c then _ else _] => destruct c
         end;
    try (intros [= <- _]; split; reflexivity); try discriminate.
  - pose proof (handleDidOpen_broker sm params) as H.
    destruct (handleDidOpen sm params) as [sm1 r1]. intros [= <- _]. exact H.
  - pose proof (handleDidClose_broker sm params) as H.
    destruct (handleDidClose sm params) as [sm1 r1]. intros [= <- _]. exact H.
  - unfold sendNotification.
    match goal with
    | |- context [writeMessage ?s ?m] =>
        pose proof (writeMessage_broker s m) as H;
        destruct (writeMessage s m) as [sm1 r1]
    end. intros [= <- _]. exact H.
Qed.

Lemma handleNotification_broker (sm : SessionManager) (method : string)
    (msg : bytes) (now : Time) :
  requestID (handleNotification sm method msg now) = requestID sm
  /\ pending (handleNotification sm method msg now) = pending sm.
Proof.
  unfold handleNotification.
  destruct (String.eqb method "$/progress"); [| split; reflexivity].
  destruct (unmarshal_progress msg); split; reflexivity.
Qed.


Lemma inv_init (sm : SessionManager) (out : bytes) (now : Time) :
  broker_inv (initSystem sm out now).
Proof.
  unfold broker_inv, initSystem. cbn.
  split; [reflexivity |].
  split; [intros i c H; rewrite lookup_nil in H; discriminate |].
  split; [intros id ch H; rewrite lookup_empty in H; discriminate |].
  split; [intros i c resp H; rewrite lookup_nil in H; discriminate |].
  split; [discriminate |].
  split; [constructor |].
  intros i resp H. apply elem_of_nil in H. destruct H.
Qed.

(** A state that differs only outside the broker, or whose history of
    arrivals has grown, keeps the invariant. *)
Lemma inv_mono (s s' : System) :
  broker_inv s ->
  requestID (sys_sm s') = requestID (sys_sm s) ->
  pending (sys_sm s') = pending (sys_sm s) ->
  callers s' = callers s ->
  (reader s' = reader s \/ forall ch resp, reader s' <> Sending ch resp) ->
  (forall x, x ∈ arrived s -> x ∈ arrived s') ->
  delivered s' = delivered s ->
  broker_inv s'.
Proof.
  intros (I1 & I2 & I3 & I4 & I5 & I6 & I7) Hid Hp Hc Hr Ha Hd.
  unfold broker_inv. rewrite Hid, Hp, Hc, Hd.
  split; [exact I1 |]. split; [exact I2 |]. split; [exact I3 |].
  split; [intros i c resp Hi Hb; apply Ha; eauto |].
  split.
  { intros ch resp Hs. destruct Hr as [Hr | Hr].
    - rewrite Hr in Hs. destruct (I5 ch resp Hs) as (c & Hc1 & Hc2).
      exists c. split; [exact Hc1 | apply Ha; exact Hc2].
    - exfalso. exact (Hr ch resp Hs). }
  split; [exact I6 |].
  intros i resp Hin. destruct (I7 i resp Hin) as (c & Hc1 & Hc2 & Hc3).
  exists c. split; [exact Hc1 |]. split; [apply Ha; exact Hc2 | exact Hc3].
Qed.

Lemma callBegin_inv (s s' : System) (method : string) (params : Params) :
  broker_inv s -> callBegin s method params = Some s' -> broker_inv s'.
Proof.
  intros (I1 & I2 & I3 & I4 & I5 & I6 & I7). unfold callBegin.
  destruct (lockFree s); [| discriminate]. intros [= <-].
  unfold broker_inv. cbn [sys_sm callers reader arrived delivered requestID pending set_pending].
  rewrite I1, wrap64_succ.
  split.
  { rewrite length_app. cbn [length]. f_equal. lia. }
  split.
  { intros i c Hi. apply lookup_app_Some in Hi.
    destruct Hi as [Hi | [Hlen Hi]]; [eauto |].
    apply list_lookup_singleton_Some in Hi. destruct Hi as [Hi <-].
    cbn [c_id]. f_equal. lia. }
  split.
  { intros id ch Hp.
    destruct (decide (wrap64 (Z.of_nat (length (callers s)) + 1) = id)) as [<- | Hne].
    - rewrite lookup_insert_eq in Hp. injection Hp as <-.
      eexists. split.
      { rewrite lookup_app_r by lia. rewrite Nat.sub_diag. reflexivity. }
      split; [reflexivity | exact I].
    - rewrite lookup_insert_ne in Hp by exact Hne.
      destruct (I3 id ch Hp) as (c & Hc & Hid & Hnr).
      exists c. split; [| split; assumption].
      apply lookup_app_l_Some. exact Hc. }
  split.
  { intros i c resp Hi Hb. apply lookup_app_Some in Hi.
    destruct Hi as [Hi | [Hlen Hi]]; [eauto |].
    apply list_lookup_singleton_Some in Hi. destruct Hi as [_ <-]. discriminate Hb. }
  split.
  { intros ch resp Hs. destruct (I5 ch resp Hs) as (c & Hc1 & Hc2).
    exists c. split; [apply lookup_app_l_Some; exact Hc1 | exact Hc2]. }
  split; [exact I6 |].
  intros i resp Hin. destruct (I7 i resp Hin) as (c & Hc1 & Hc2 & Hc3).
  exists c. split; [apply lookup_app_l_Some; exact Hc1 |]. split; assumption.
Qed.


(** The invariant after a change of one call that keeps its id, under the
    conditions that link the new call to the rest of the state. *)
Lemma inv_update (s : System) (i : nat) (c c' : Caller) (sm' : SessionManager)
    (out : bytes) (rd' : ReaderPC) (clk : Time) (lg : list LogEntry)
    (arr' : list (Z * lspResponse)) (dl' : list (nat * lspResponse)) :
  broker_inv s ->
  callers s !! i = Some c ->
  c_id c' = c_id c ->
  requestID sm' = requestID (sys_sm s) ->
  (forall id ch, pending sm' !! id = Some ch ->
                 pending (sys_sm s) !! id = Some ch /\ (ch = i -> notReturned c')) ->
  (forall resp, c_buf c' = Some resp -> (c_id c, resp) ∈ arr') ->
  (forall x, x ∈ arrived s -> x ∈ arr') ->
  (forall ch resp, rd' = Sending ch resp ->
                   reader s = Sending ch resp
                   \/ (ch = i /\ (c_id c, resp) ∈ arr')) ->
  NoDup (map fst dl') ->
  (forall j resp, (j, resp) ∈ dl' ->
                  ((j, resp) ∈ delivered s /\ (j = i -> pastSelect c'))
                  \/ (j = i /\ pastSelect c' /\ (c_id c, resp) ∈ arr')) ->
  broker_inv (mkSystem sm' (<[i := c']> (callers s)) out rd' clk lg arr' dl').
Proof.
  intros (I1 & I2 & I3 & I4 & I5 & I6 & I7) Hi Hid Hrid Hpend Hbuf Harr Hrd Hnd Hdl.
  assert (Hlt : (i < length (callers s))%nat) by (eapply lookup_lt_Some; exact Hi).
  assert (Hlook : forall j cj, <[i := c']> (callers s) !! j = Some cj ->
                    (j = i /\ cj = c') \/ (j <> i /\ callers s !! j = Some cj)).
  { intros j cj Hj. apply list_lookup_insert_Some in Hj.
    destruct Hj as [(-> & -> & _) | (Hne & Hj)]; [left | right]; auto. }
  assert (Hnew : forall j cj, callers s !! j = Some cj ->
                   exists cj', <[i := c']> (callers s) !! j = Some cj'
                               /\ c_id cj' = c_id cj
                               /\ (j <> i -> cj' = cj) /\ (j = i -> cj' = c' /\ cj = c)).
  { intros j cj Hj. destruct (decide (j = i)) as [-> | Hne].
    - exists c'. rewrite list_lookup_insert_eq by exact Hlt.
      assert (cj = c) by congruence. subst cj.
      split; [reflexivity |]. split; [exact Hid |]. split; [congruence | auto].
    - exists cj. rewrite list_lookup_insert_ne by congruence.
      split; [exact Hj |]. split; [reflexivity |]. split; [auto | congruence]. }
  unfold broker_inv. cbn [sys_sm callers reader arrived delivered].
  split; [rewrite length_insert, Hrid; exact I1 |].
  split.
  { intros j cj Hj. destruct (Hlook j cj Hj) as [[-> ->] | [_ Hj']].
    - rewrite Hid. eauto.
    - eauto. }
  split.
  { intros id ch Hp. destruct (Hpend id ch Hp) as [Hp' Hnr].
    destruct (I3 id ch Hp') as (c0 & Hc0 & Hid0 & Hnr0).
    destruct (Hnew ch c0 Hc0) as (c0' & Hc0' & Hid0' & Hsame & Hat).
    exists c0'. split; [exact Hc0' |]. split; [congruence |].
    destruct (decide (ch = i)) as [-> | Hne].
    - destruct (Hat eq_refl) as [-> _]. auto.
    - rewrite (Hsame Hne). exact Hnr0. }
  split.
  { intros j cj resp Hj Hb. destruct (Hlook j cj Hj) as [[-> ->] | [_ Hj']].
    - rewrite Hid. auto.
    - apply Harr. eauto. }
  split.
  { intros ch resp Hs. destruct (Hrd ch resp Hs) as [Hold | [-> Hin]].
    - destruct (I5 ch resp Hold) as (c0 & Hc0 & Hin).
      destruct (Hnew ch c0 Hc0) as (c0' & Hc0' & Hid0' & _).
      exists c0'. split; [exact Hc0' |]. rewrite Hid0'. apply Harr. exact Hin.
    - exists c'. rewrite list_lookup_insert_eq by exact Hlt.
      split; [reflexivity |]. rewrite Hid. exact Hin. }
  split; [exact Hnd |].
  intros j resp Hin. destruct (Hdl j resp Hin) as [[Hold Hps] | (-> & Hps & Ha)].
  - destruct (I7 j resp Hold) as (c0 & Hc0 & Ha & Hps0).
    destruct (Hnew j c0 Hc0) as (c0' & Hc0' & Hid0' & Hsame & Hat).
    exists c0'. split; [exact Hc0' |]. rewrite Hid0'. split; [apply Harr; exact Ha |].
    destruct (decide (j = i)) as [-> | Hne].
    + destruct (Hat eq_refl) as [-> _]. auto.
    + rewrite (Hsame Hne). exact Hps0.
  - exists c'. rewrite list_lookup_insert_eq by exact Hlt.
    split; [reflexivity |]. rewrite Hid. auto.
Qed.


Lemma pastSelect_AtWrite (c : Caller) : c_pc c = AtWrite -> pastSelect c -> False.
Proof. unfold pastSelect. intros ->. auto. Qed.

Lemma pastSelect_AtSelect (c : Caller) : c_pc c = AtSelect -> pastSelect c -> False.
Proof. unfold pastSelect. intros ->. auto. Qed.

Lemma readerRound_inv (s : System) : broker_inv s -> broker_inv (readerRound s).
Proof.
  intros Hinv. unfold readerRound.
  destruct (readLSPMessage (stdout s)) as [[msg rest] | e |].
  2, 3: (eapply inv_mono; [exact Hinv | reflexivity .. | | auto | reflexivity];
         right; discriminate).
  destruct (decodeBaseMsg msg) as [[id f] | e].
  2: (eapply inv_mono; [exact Hinv | reflexivity .. | | auto | reflexivity];
      right; discriminate).
  match goal with |- context [if ?b then _ else _] => destruct b end.
  - set (idInt := match id with Some id0 => AsInt64 id0 | None => 0 end).
    set (resp := mkLspResponse (bm_result f) (bm_error f)).
    destruct (pending (sys_sm s) !! idInt) as [ch |] eqn:Hp.
    2: (eapply inv_mono; [exact Hinv | reflexivity .. | | | reflexivity];
        [right; discriminate
        | cbn [arrived]; intros x Hx; apply elem_of_app; left; exact Hx]).
    pose proof Hinv as (I1 & I2 & I3 & I4 & I5 & I6 & I7).
    destruct (I3 idInt ch Hp) as (c & Hc & Hid & Hnr). rewrite Hc.
    destruct (c_buf c) as [old |] eqn:Hbuf.
    + rewrite <- (list_insert_id (callers s) ch c Hc).
      eapply (inv_update s ch c c); try reflexivity; try assumption.
      * intros id0 ch0 H0. split; [exact H0 | intros _; exact Hnr].
      * intros r Hr. apply elem_of_app. left. apply (I4 ch c r Hc Hr).
      * intros x Hx. apply elem_of_app. left. exact Hx.
      * intros ch0 r [= <- <-]. right. split; [reflexivity |].
        apply elem_of_app. right. rewrite Hid. apply list_elem_of_singleton. reflexivity.
      * intros j r Hin. left. split; [exact Hin |].
        intros ->. destruct (I7 ch r Hin) as (c0 & Hc0 & _ & Hps). congruence.
    + eapply (inv_update s ch c (set_buf c (Some resp))); try reflexivity; try assumption.
      * intros id0 ch0 H0. split; [exact H0 | intros _; exact Hnr].
      * cbn [c_buf set_buf]. intros r [= <-]. apply elem_of_app. right.
        rewrite Hid. apply list_elem_of_singleton. reflexivity.
      * intros x Hx. apply elem_of_app. left. exact Hx.
      * discriminate.
      * intros j r Hin. left. split; [exact Hin |].
        intros ->. destruct (I7 ch r Hin) as (c0 & Hc0 & _ & Hps).
        assert (c0 = c) by congruence. subst c0. exact Hps.
  - match goal with |- context [if ?b then _ else _] => destruct b end.
    + eapply inv_mono; [exact Hinv | | | reflexivity | | auto | reflexivity].
      * apply handleNotification_broker.
      * apply handleNotification_broker.
      * right. discriminate.
    + eapply inv_mono; [exact Hinv | reflexivity .. | | auto | reflexivity].
      right. discriminate.
Qed.

Lemma stepAction_inv (s s' : System) (a : Action) :
  broker_inv s -> stepAction s a = Some s' -> broker_inv s'.
Proof.
  intros Hinv. pose proof Hinv as (I1 & I2 & I3 & I4 & I5 & I6 & I7).
  destruct a as [method params | i | i | i | i | | | method params | t];
    cbn [stepAction].
  - (* ACall *) apply callBegin_inv. exact Hinv.
  - (* AWrite *)
    destruct (callers s !! i) as [c |] eqn:Hc; [| discriminate].
    destruct (c_pc c) eqn:Hpc; try discriminate.
    pose proof (writeMessage_broker (sys_sm s)
                  (mkMsg (Some (c_id c)) (c_method c) (c_params c))) as [Hw1 Hw2].
    destruct (writeMessage _ _) as [sm1 r]. cbn [fst] in Hw1, Hw2.
    intros [= <-]. unfold set_caller, set_sm.
    cbn [sys_sm callers stdout reader clock logs arrived delivered].
    eapply (inv_update s i c); try reflexivity; try assumption.
    + intros id ch H0. rewrite Hw2 in H0. split; [exact H0 |].
      intros _. unfold notReturned. cbn. destruct r; exact I.
    + cbn [c_buf set_pc]. intros resp Hb. eauto.
    + auto.
    + auto.
    + intros j resp Hin. left. split; [exact Hin |]. intros ->.
      destruct (I7 i resp Hin) as (c0 & Hc0 & _ & Hps).
      assert (c0 = c) by congruence. subst c0.
      destruct (pastSelect_AtWrite c Hpc Hps).
  - (* ARecv *)
    destruct (callers s !! i) as [c |] eqn:Hc; [| discriminate].
    destruct (c_pc c) eqn:Hpc; try discriminate.
    destruct (c_buf c) as [resp |] eqn:Hbuf; [| discriminate].
    intros [= <-].
    assert (Hfresh : forall r, (i, r) ∉ delivered s).
    { intros r Hin. destruct (I7 i r Hin) as (c0 & Hc0 & _ & Hps).
      assert (c0 = c) by congruence. subst c0.
      exact (pastSelect_AtSelect c Hpc Hps). }
    eapply (inv_update s i c); try reflexivity; try assumption.
    + intros id ch H0. split; [exact H0 | intros _; exact I].
    + cbn. discriminate.
    + auto.
    + auto.
    + rewrite map_app. cbn [map fst]. apply NoDup_app. split; [exact I6 |].
      split; [| apply NoDup_singleton].
      intros j Hj Hj'. apply list_elem_of_singleton in Hj'. subst j.
      apply list_elem_of_fmap in Hj. destruct Hj as ([j r] & Heq & Hin).
      cbn in Heq. subst j. exact (Hfresh r Hin).
    + intros j r Hin. apply elem_of_app in Hin. destruct Hin as [Hin | Hin].
      * left. split; [exact Hin | intros _; exact I].
      * apply list_elem_of_singleton in Hin. injection Hin as -> ->.
        right. split; [reflexivity |]. split; [exact I | eauto].
  - (* ADeadline *)
    destruct (callers s !! i) as [c |] eqn:Hc; [| discriminate].
    destruct (c_pc c) eqn:Hpc; try discriminate.
    intros [= <-]. unfold set_caller.
    eapply (inv_update s i c); try reflexivity; try assumption.
    + intros id ch H0. split; [exact H0 | intros _; exact I].
    + cbn [c_buf set_pc]. intros resp Hb. eauto.
    + auto.
    + auto.
    + intros j resp Hin. left. split; [exact Hin | intros _; exact I].
  - (* ACleanup *)
    destruct (callers s !! i) as [c |] eqn:Hc; [| discriminate].
    destruct (c_pc c) eqn:Hpc; try discriminate.
    destruct (lockFree s) eqn:Hlock; [| discriminate].
    intros [= <-]. unfold set_caller, set_sm.
    cbn [sys_sm callers stdout reader clock logs arrived delivered].
    eapply (inv_update s i c); try reflexivity; try assumption.
    + cbn [pending set_pending]. intros id ch H0.
      apply lookup_delete_Some in H0. destruct H0 as [Hne H0].
      split; [exact H0 |]. intros ->.
      destruct (I3 id i H0) as (c0 & Hc0 & Hid0 & _). congruence.
    + cbn [c_buf set_pc]. intros resp Hb. eauto.
    + auto.
    + auto.
    + intros j resp Hin. left. split; [exact Hin | intros _; exact I].
  - (* ARead *)
    destruct (reader s); try discriminate.
    intros [= <-]. apply readerRound_inv. exact Hinv.
  - (* AUnblock *)
    destruct (reader s) as [| ch resp | |] eqn:Hrd; try discriminate.
    destruct (callers s !! ch) as [c |] eqn:Hc; [| discriminate].
    destruct (c_buf c) eqn:Hbuf; [discriminate |].
    intros [= <-].
    destruct (I5 ch resp eq_refl) as (c0 & Hc0 & Ha).
    assert (c0 = c) by congruence. subst c0.
    eapply (inv_update s ch c); try reflexivity; try assumption.
    + intros id ch0 H0. split; [exact H0 |]. intros ->.
      destruct (I3 id ch H0) as (c0 & Hc0' & _ & Hnr).
      assert (c0 = c) by congruence. subst c0. exact Hnr.
    + cbn [c_buf set_buf]. intros r [= <-]. exact Ha.
    + auto.
    + discriminate.
    + intros j r Hin. left. split; [exact Hin |]. intros ->.
      destruct (I7 ch r Hin) as (c0 & Hc0' & _ & Hps).
      assert (c0 = c) by congruence. subst c0. exact Hps.
  - (* AHandle *)
    destruct (handleAPIRequest (sys_sm s) method params (clock s))
      as [sm1 r | m p t] eqn:Hh.
    + intros [= <-]. apply handleAPIRequest_Done_broker in Hh.
      destruct Hh as [Hh1 Hh2].
      eapply inv_mono; [exact Hinv | exact Hh1 | exact Hh2 | reflexivity | | auto
                       | reflexivity].
      left. reflexivity.
    + apply callBegin_inv. exact Hinv.
  - (* ATick *)
    destruct (clock s <=? t); [| discriminate]. intros [= <-].
    eapply inv_mono; [exact Hinv | reflexivity .. | | auto | reflexivity].
    left. reflexivity.
Qed.

(** Every step keeps the invariant, and so every reachable state has
    it. *)
Lemma step_inv (s s' : System) (a : Action) :
  broker_inv s -> step s a = Some s' -> broker_inv s'.
Proof.
  intros Hinv. unfold step.
  destruct (reader s); try discriminate; apply stepAction_inv; exact Hinv.
Qed.

Lemma run_inv (tr : list Action) (s s' : System) :
  broker_inv s -> run s tr = Some s' -> broker_inv s'.
Proof.
  revert s. induction tr as [| a tr IH]; intros s Hinv; cbn [run].
  - intros [= <-]. exact Hinv.
  - destruct (step s a) as [s1 |] eqn:Hstep; [| discriminate].
    apply IH. eapply step_inv; eassumption.
Qed.

Lemma reachable_inv (s : System) : reachable s -> broker_inv s.
Proof.
  intros (sm & out & now & tr & Hrun).
  eapply run_inv; [apply inv_init | exact Hrun].
Qed.


(** Below 2^63 calls the ids are the numbers of the calls, from 1. *)
Lemma caller_id (s : System) (i : nat) (c : Caller) :
  broker_inv s -> Z.of_nat (length (callers s)) < 2 ^ 63 ->
  callers s !! i = Some c -> c_id c = Z.of_nat i + 1.
Proof.
  intros (_ & I2 & _) Hlen Hc. rewrite (I2 i c Hc).
  apply lookup_lt_Some in Hc. apply wrap64_small.
  unfold minInt64, maxInt64. lia.
Qed.

Lemma returned_not_pending (s : System) (i : nat) (c : Caller) (r : result bytes) :
  broker_inv s -> Z.of_nat (length (callers s)) < 2 ^ 63 ->
  callers s !! i = Some c -> c_pc c = Returned r ->
  pending (sys_sm s) !! c_id c = None.
Proof.
  intros Hinv Hlen Hc Hpc.
  destruct (pending (sys_sm s) !! c_id c) as [ch |] eqn:Hp; [| reflexivity].
  exfalso. pose proof Hinv as (_ & _ & I3 & _).
  destruct (I3 _ _ Hp) as (c0 & Hc0 & Hid & Hnr).
  pose proof (caller_id s i c Hinv Hlen Hc) as H1.
  pose proof (caller_id s ch c0 Hinv Hlen Hc0) as H2.
  assert (ch = i) by lia. subst ch.
  assert (c0 = c) by congruence. subst c0.
  unfold notReturned in Hnr. rewrite Hpc in Hnr. exact Hnr.
Qed.

Lemma zero_not_pending (s : System) :
  broker_inv s -> Z.of_nat (length (callers s)) < 2 ^ 63 ->
  pending (sys_sm s) !! 0 = None.
Proof.
  intros Hinv Hlen.
  destruct (pending (sys_sm s) !! 0) as [ch |] eqn:Hp; [| reflexivity].
  exfalso. pose proof Hinv as (_ & _ & I3 & _).
  destruct (I3 _ _ Hp) as (c0 & Hc0 & Hid & _).
  pose proof (caller_id s ch c0 Hinv Hlen Hc0). lia.
Qed.

(** The first response that is looked up under an id does not block the
    reader: it goes into the buffer of the channel, or is dropped when
    there is no entry. No call changes its place, nothing is logged and
    nothing is delivered. *)
Lemma first_response_round (s : System) (id : Z) :
  broker_inv s -> nextResponseFor s id -> firstResponse s id ->
  reader (readerRound s) = Reading
  /\ logs (readerRound s) = logs s
  /\ delivered (readerRound s) = delivered s
  /\ sys_sm (readerRound s) = sys_sm s
  /\ (forall j cj, callers s !! j = Some cj ->
        exists cj', callers (readerRound s) !! j = Some cj' /\ c_pc cj' = c_pc cj).
Proof.
  intros Hinv (msg & rest & jid & f & Hread & Hdec & Hset & Hm & Hid) Hfirst.
  pose proof Hinv as (_ & _ & I3 & I4 & _).
  unfold readerRound. rewrite Hread, Hdec, Hset, Hm, Hid. cbn [String.eqb andb].
  destruct (pending (sys_sm s) !! id) as [ch |] eqn:Hp.
  - destruct (I3 id ch Hp) as (c & Hc & Hcid & _). rewrite Hc.
    destruct (c_buf c) as [old |] eqn:Hbuf.
    + exfalso. apply (Hfirst old). rewrite <- Hcid. eauto.
    + cbn [reader logs delivered sys_sm callers]. repeat split.
      intros j cj Hj. destruct (decide (j = ch)) as [-> | Hne].
      * assert (cj = c) by congruence. subst cj.
        eexists. rewrite list_lookup_insert_eq by (eapply lookup_lt_Some; exact Hc).
        split; reflexivity.
      * exists cj. rewrite list_lookup_insert_ne by congruence. auto.
  - cbn [reader logs delivered sys_sm callers]. repeat split. eauto.
Qed.

(** What an action does to the places of the calls and to the
    deliveries. *)
Lemma stepAction_effect (s s' : System) (a : Action) :
  stepAction s a = Some s' ->
  (forall j cj, callers s !! j = Some cj ->
     exists cj', callers s' !! j = Some cj' /\ (pastSelect cj -> pastSelect cj'))
  /\ (delivered s' = delivered s
      \/ exists j cj resp, callers s !! j = Some cj /\ c_pc cj = AtSelect
                           /\ delivered s' = delivered s ++ [(j, resp)]).
Proof.
  assert (Hupd : forall i c c' (l : list Caller),
            l !! i = Some c -> (pastSelect c -> pastSelect c') ->
            forall j cj, l !! j = Some cj ->
              exists cj', <[i := c']> l !! j = Some cj' /\ (pastSelect cj -> pastSelect cj')).
  { intros i c c' l Hi Hps j cj Hj. destruct (decide (j = i)) as [-> | Hne].
    - exists c'. rewrite list_lookup_insert_eq by (eapply lookup_lt_Some; exact Hi).
      split; [reflexivity |]. assert (cj = c) by congruence. subst cj. exact Hps.
    - exists cj. rewrite list_lookup_insert_ne by congruence. auto. }
  assert (Hbegin : forall m p, callBegin s m p = Some s' ->
            (forall j cj, callers s !! j = Some cj ->
               exists cj', callers s' !! j = Some cj' /\ (pastSelect cj -> pastSelect cj'))
            /\ delivered s' = delivered s).
  { intros m p. unfold callBegin. destruct (lockFree s); [| discriminate].
    intros [= <-]. cbn [callers delivered]. split; [| reflexivity].
    intros j cj Hj. exists cj. split; [apply lookup_app_l_Some; exact Hj | auto]. }
  destruct a as [method params | i | i | i | i | | | method params | t];
    cbn [stepAction].
  - intros H. destruct (Hbegin _ _ H) as [H1 H2]. split; [exact H1 | left; exact H2].
  - destruct (callers s !! i) as [c |] eqn:Hc; [| discriminate].
    destruct (c_pc c) eqn:Hpc; try discriminate.
    destruct (writeMessage _ _) as [sm1 r]. intros [= <-].
    unfold set_caller, set_sm. cbn [callers delivered]. split; [| left; reflexivity].
    apply (Hupd i c); [exact Hc |]. intros Hps.
    destruct (pastSelect_AtWrite c Hpc Hps).
  - destruct (callers s !! i) as [c |] eqn:Hc; [| discriminate].
    destruct (c_pc c) eqn:Hpc; try discriminate.
    destruct (c_buf c) as [resp |] eqn:Hbuf; [| discriminate].
    intros [= <-]. cbn [callers delivered]. split.
    + apply (Hupd i c); [exact Hc |]. intros _. exact I.
    + right. exists i, c, resp. auto.
  - destruct (callers s !! i) as [c |] eqn:Hc; [| discriminate].
    destruct (c_pc c) eqn:Hpc; try discriminate.
    intros [= <-]. unfold set_caller. cbn [callers delivered].
    split; [| left; reflexivity].
    apply (Hupd i c); [exact Hc |]. intros _. exact I.
  - destruct (callers s !! i) as [c |] eqn:Hc; [| discriminate].
    destruct (c_pc c) eqn:Hpc; try discriminate.
    destruct (lockFree s); [| discriminate].
    intros [= <-]. unfold set_caller, set_sm. cbn [callers delivered].
    split; [| left; reflexivity].
    apply (Hupd i c); [exact Hc |]. intros _. exact I.
  - destruct (reader s); try discriminate. intros [= <-].
    assert (Hsame : forall j cj, callers s !! j = Some cj ->
              exists cj', callers s !! j = Some cj' /\ (pastSelect cj -> pastSelect cj')).
    { intros j cj Hj. exists cj. auto. }
    unfold readerRound.
    destruct (readLSPMessage (stdout s)) as [[msg rest] | e |];
      [| split; [exact Hsame | left; reflexivity] ..].
    destruct (decodeBaseMsg msg) as [[id f] | e];
      [| split; [exact Hsame | left; reflexivity]].
    match goal with |- context [if ?b then _ else _] => destruct b end.
    + destruct (pending (sys_sm s) !! _) as [ch |];
        [| split; [exact Hsame | left; reflexivity]].
      destruct (callers s !! ch) as [c |] eqn:Hc;
        [| split; [exact Hsame | left; reflexivity]].
      destruct (c_buf c); [split; [exact Hsame | left; reflexivity] |].
      cbn [callers delivered]. split; [| left; reflexivity].
      apply (Hupd ch c); [exact Hc | auto].
    + match goal with |- context [if ?b then _ else _] => destruct b end;
        (split; [exact Hsame | left; reflexivity]).
  - destruct (reader s) as [| ch resp | |]; try discriminate.
    destruct (callers s !! ch) as [c |] eqn:Hc; [| discriminate].
    destruct (c_buf c); [discriminate |]. intros [= <-].
    cbn [callers delivered]. split; [| left; reflexivity].
    apply (Hupd ch c); [exact Hc | auto].
  - destruct (handleAPIRequest _ _ _ _) as [sm1 r | m p t].
    + intros [= <-]. unfold set_sm. cbn [callers delivered].
      split; [| left; reflexivity]. intros j cj Hj. exists cj. auto.
    + intros H. destruct (Hbegin _ _ H) as [H1 H2]. split; [exact H1 | left; exact H2].
  - destruct (clock s <=? t); [| discriminate]. intros [= <-].
    cbn [callers delivered]. split; [| left; reflexivity].
    intros j cj Hj. exists cj. auto.
Qed.

(** A call that is past its [select] receives nothing any more. *)
Lemma run_no_delivery (tr : list Action) (s s' : System) (i : nat) (c : Caller) :
  run s tr = Some s' ->
  callers s !! i = Some c -> pastSelect c ->
  forall resp, (i, resp) ∈ delivered s' -> (i, resp) ∈ delivered s.
Proof.
  revert s c. induction tr as [| a tr IH]; intros s c; cbn [run].
  - intros [= <-] _ _ resp H. exact H.
  - destruct (step s a) as [s1 |] eqn:Hstep; [| discriminate].
    intros Hrun Hc Hps resp Hin.
    assert (Hact : stepAction s a = Some s1).
    { unfold step in Hstep. destruct (reader s); congruence. }
    destruct (stepAction_effect s s1 a Hact) as [Hcallers Hdel].
    destruct (Hcallers i c Hc) as (c1 & Hc1 & Hps1).
    specialize (IH s1 c1 Hrun Hc1 (Hps1 Hps) resp Hin).
    destruct Hdel as [Heq | (j & cj & r & Hj & Hpc & Heq)]; rewrite Heq in IH.
    + exact IH.
    + apply elem_of_app in IH. destruct IH as [IH | IH]; [exact IH |].
      apply list_elem_of_singleton in IH. injection IH as -> ->.
      assert (cj = c) by congruence. subst cj.
      destruct (pastSelect_AtSelect c Hpc Hps).
Qed.

End BrokerFacts.

Lemma jsonUnmarshalInt64_string (raw : bytes) :
  isJSONString raw -> jsonUnmarshalInt64 raw = Err json_Error.
Proof.
  intros [body ->]. unfold jsonUnmarshalInt64, trimJSONSpace.
  cbn [dropJSONSpace]. change (isJSONSpace (ascii_of_code 34)) with false. cbv iota.
  assert (Hsnoc : forall (l : bytes) (x : ascii),
            isJSONSpace x = false ->
            exists l', dropJSONSpace (l ++ [x]) = l' ++ [x]).
  { intros l x Hx. induction l as [| c l IH].
    - exists []. cbn. rewrite Hx. reflexivity.
    - cbn [app dropJSONSpace]. destruct (isJSONSpace c).
      + exact IH.
      + exists (c :: l). reflexivity. }
  cbn [rev].
  destruct (Hsnoc (rev body) (ascii_of_code 34) eq_refl) as [l' ->].
  rewrite rev_app_distr. cbn [rev app].
  unfold bytes_eqb. rewrite bool_decide_eq_false_2 by discriminate.
  reflexivity.
Qed.

(** An id that is a JSON string whose content is no decimal integer is set
    and has the key 0. *)
Lemma UnmarshalJSON_string_key (raw str : bytes) :
  isJSONString raw ->
  jsonUnmarshalString raw = Ok str ->
  is_Ok (ParseInt str) = false ->
  UnmarshalJSON zeroID raw = Ok (mkID None (Some str))
  /\ IsSet (mkID None (Some str)) = true
  /\ AsInt64 (mkID None (Some str)) = 0.
Proof.
  intros Hraw Hstr Hint. unfold UnmarshalJSON.
  rewrite (jsonUnmarshalInt64_string raw Hraw), Hstr.
  destruct Hraw as [body ->].
  unfold bytes_eqb. rewrite bool_decide_eq_false_2 by discriminate.
  destruct (ParseInt str); [discriminate Hint |]. repeat split.
Qed.

Section BlockedReader.

Context {J : JSON}.

(** The reader that is blocked on the channel of a call that is past its
    [select], with the buffer full, stays blocked: no action empties the
    buffer, and the actions that need [pendingMu] are not enabled. *)
Lemma blocked_step (s s' : System) (a : Action) (ch : nat) (resp old : lspResponse)
    (c : Caller) :
  reader s = Sending ch resp ->
  callers s !! ch = Some c -> c_buf c = Some old -> pastSelect c ->
  step s a = Some s' ->
  reader s' = Sending ch resp
  /\ pending (sys_sm s') = pending (sys_sm s)
  /\ exists c', callers s' !! ch = Some c' /\ c_buf c' = Some old /\ c_pc c' = c_pc c.
Proof.
  intros Hrd Hc Hbuf Hps. unfold step. rewrite Hrd.
  assert (Hlock : lockFree s = false) by (unfold lockFree; rewrite Hrd; reflexivity).
  assert (Hother : forall i ci c', callers s !! i = Some ci ->
            (pastSelect ci -> False) ->
            exists c0, <[i := c']> (callers s) !! ch = Some c0
                       /\ c_buf c0 = Some old /\ c_pc c0 = c_pc c).
  { intros i ci c' Hi Hnot. destruct (decide (i = ch)) as [-> | Hne].
    - assert (ci = c) by congruence. subst ci. destruct (Hnot Hps).
    - exists c. rewrite list_lookup_insert_ne by exact Hne. auto. }
  destruct a as [method params | i | i | i | i | | | method params | t];
    cbn [stepAction].
  - unfold callBegin. rewrite Hlock. discriminate.
  - destruct (callers s !! i) as [ci |] eqn:Hi; [| discriminate].
    destruct (c_pc ci) eqn:Hpc; try discriminate.
    pose proof (writeMessage_broker (sys_sm s)
                  (mkMsg (Some (c_id ci)) (c_method ci) (c_params ci))) as [_ Hw].
    destruct (writeMessage _ _) as [sm1 r]. cbn [fst] in Hw. intros [= <-].
    unfold set_caller, set_sm. cbn [reader callers sys_sm].
    split; [exact Hrd |]. split; [exact Hw |].
    apply (Hother i ci); [exact Hi | apply pastSelect_AtWrite; exact Hpc].
  - destruct (callers s !! i) as [ci |] eqn:Hi; [| discriminate].
    destruct (c_pc ci) eqn:Hpc; try discriminate.
    destruct (c_buf ci); [| discriminate]. intros [= <-].
    cbn [reader callers sys_sm]. split; [exact Hrd |]. split; [reflexivity |].
    apply (Hother i ci); [exact Hi | apply pastSelect_AtSelect; exact Hpc].
  - destruct (callers s !! i) as [ci |] eqn:Hi; [| discriminate].
    destruct (c_pc ci) eqn:Hpc; try discriminate. intros [= <-].
    unfold set_caller. cbn [reader callers sys_sm].
    split; [exact Hrd |]. split; [reflexivity |].
    apply (Hother i ci); [exact Hi | apply pastSelect_AtSelect; exact Hpc].
  - destruct (callers s !! i) as [ci |]; [| discriminate].
    destruct (c_pc ci); try discriminate. rewrite Hlock. discriminate.
  - rewrite Hrd. discriminate.
  - rewrite Hrd, Hc, Hbuf. discriminate.
  - destruct (handleAPIRequest _ _ _ _) as [sm1 r | m p t] eqn:Hh.
    + intros [= <-]. apply handleAPIRequest_Done_broker in Hh.
      unfold set_sm. cbn [reader callers sys_sm].
      split; [exact Hrd |]. split; [apply Hh |]. exists c. auto.
    + unfold callBegin. rewrite Hlock. discriminate.
  - destruct (clock s <=? t); [| discriminate]. intros [= <-].
    cbn [reader callers sys_sm]. split; [exact Hrd |]. split; [reflexivity |].
    exists c. auto.
Qed.

Lemma blocked_forever (tr : list Action) (s s' : System) (ch : nat)
    (resp old : lspResponse) (c : Caller) :
  reader s = Sending ch resp ->
  callers s !! ch = Some c -> c_buf c = Some old -> pastSelect c ->
  run s tr = Some s' ->
  reader s' = Sending ch resp
  /\ pending (sys_sm s') = pending (sys_sm s)
  /\ exists c', callers s' !! ch = Some c' /\ c_pc c' = c_pc c.
Proof.
  revert s c. induction tr as [| a tr IH]; intros s c Hrd Hc Hbuf Hps; cbn [run].
  - intros [= <-]. split; [exact Hrd |]. split; [reflexivity |]. exists c. auto.
  - destruct (step s a) as [s1 |] eqn:Hstep; [| discriminate]. intros Hrun.
    destruct (blocked_step s s1 a ch resp old c Hrd Hc Hbuf Hps Hstep)
      as (Hrd1 & Hp1 & c1 & Hc1 & Hbuf1 & Hpc1).
    assert (Hps1 : pastSelect c1) by (unfold pastSelect in *; rewrite Hpc1; exact Hps).
    destruct (IH s1 c1 Hrd1 Hc1 Hbuf1 Hps1 Hrun) as (Hrd' & Hp' & c' & Hc' & Hpc').
    split; [exact Hrd' |]. split; [congruence |]. exists c'. split; [exact Hc' | congruence].
Qed.

End BlockedReader.

(** C2, the claim as stated fails for a response that arrives after the
    deadline when the server has already answered that id: the call 1 is
    written and its deadline expires; before its deferred [delete] runs, the
    reader handles two responses with the id 1. The first goes into the
    buffer of the channel. The second finds the entry still in [pending] and
    the buffer full: the reader blocks in the send, holding [pendingMu]. It
    stays blocked in every continuation, the call never returns, and its
    entry is never removed. *)
Lemma C2_second_late_response_blocks_the_reader :
  (reader <$> @run exampleJSON (initSystem session0 twoAnswers 0) lateRun)
  = Some (Sending 0 (mkLspResponse (lit "null") None))
  /\ ((fun s => c_pc <$> callers s !! 0%nat)
        <$> @run exampleJSON (initSystem session0 twoAnswers 0) lateRun)
     = Some (Some (AtReturn (Err context_DeadlineExceeded)))
  /\ (forall tr s s',
         @run exampleJSON (initSystem session0 twoAnswers 0) lateRun = Some s ->
         @run exampleJSON s tr = Some s' ->
         reader s' = Sending 0 (mkLspResponse (lit "null") None)
         /\ pending (sys_sm s') !! 1 = Some 0%nat
         /\ exists c, callers s' !! 0%nat = Some c
                      /\ c_pc c = AtReturn (Err context_DeadlineExceeded)).
Proof.
  destruct (@run exampleJSON (initSystem session0 twoAnswers 0) lateRun)
    as [sB |] eqn:HsB; [| vm_compute in HsB; discriminate HsB].
  assert (Hrd : reader sB = Sending 0 (mkLspResponse (lit "null") None)).
  { vm_compute in HsB. injection HsB as <-. reflexivity. }
  assert (Hc : exists c, callers sB !! 0%nat = Some c
                         /\ c_buf c = Some (mkLspResponse (lit "null") None)
                         /\ c_pc c = AtReturn (Err context_DeadlineExceeded)).
  { vm_compute in HsB. injection HsB as <-. eexists. repeat split. }
  assert (Hp : pending (sys_sm sB) !! 1 = Some 0%nat).
  { vm_compute in HsB. injection HsB as <-. reflexivity. }
  destruct Hc as (c & Hc & Hbuf & Hpc).
  split; [cbn; rewrite Hrd; reflexivity |].
  split; [cbn; rewrite Hc; cbn; rewrite Hpc; reflexivity |].
  intros tr s s' [= <-] Hrun.
  destruct (@blocked_forever exampleJSON tr sB s' 0 _ _ c Hrd Hc Hbuf
              ltac:(unfold pastSelect; rewrite Hpc; exact I) Hrun)
    as (Hrd' & Hp' & c' & Hc' & Hpc').
  split; [exact Hrd' |]. split; [rewrite Hp'; exact Hp |].
  exists c'. split; [exact Hc' | congruence].
Qed.

(** C2, amended. In every reachable state with fewer than 2^63 calls of
    [sendRequest]: no two calls have the same id; a call has received at
    most one response, and that response was looked up by the reader under
    the id of the call; the entry of a call that has returned (with a
    result, an error of the server, a write error or an expired deadline) is
    not in the pending map; and when the deadline of a call has expired, the
    first response that the reader looks up under its id does not block the
    read loop (the reader goes on reading), is not logged, and is discarded:
    it is not delivered then, and the call receives nothing in any
    continuation. (A further response with that id that arrives before the
    entry is removed blocks the reader.) *)
Theorem C2_broker_requests `{J : JSON} (s : System) :
  reachable s ->
  Z.of_nat (length (callers s)) < 2 ^ 63 ->
  (forall i j ci cj,
      callers s !! i = Some ci -> callers s !! j = Some cj ->
      c_id ci = c_id cj -> i = j)
  /\ NoDup (map fst (delivered s))
  /\ (forall i resp,
         (i, resp) ∈ delivered s ->
         exists c, callers s !! i = Some c /\ (c_id c, resp) ∈ arrived s)
  /\ (forall i c r,
         callers s !! i = Some c -> c_pc c = Returned r ->
         pending (sys_sm s) !! c_id c = None)
  /\ (forall i c s1,
         callers s !! i = Some c -> expired c ->
         nextResponseFor s (c_id c) -> firstResponse s (c_id c) ->
         step s ARead = Some s1 ->
         reader s1 = Reading /\ logs s1 = logs s /\ delivered s1 = delivered s
         /\ forall tr s' resp,
              run s1 tr = Some s' ->
              (i, resp) ∈ delivered s' -> (i, resp) ∈ delivered s).
Proof.
  intros Hreach Hlen. pose proof (reachable_inv s Hreach) as Hinv.
  pose proof Hinv as (_ & _ & _ & _ & _ & I6 & I7).
  split.
  { intros i j ci cj Hi Hj Heq.
    rewrite (caller_id s i ci Hinv Hlen Hi), (caller_id s j cj Hinv Hlen Hj) in Heq.
    lia. }
  split; [exact I6 |].
  split.
  { intros i resp Hin. destruct (I7 i resp Hin) as (c & Hc & Ha & _). eauto. }
  split.
  { intros i c r Hc Hpc. exact (returned_not_pending s i c r Hinv Hlen Hc Hpc). }
  intros i c s1 Hc Hexp Hnext Hfirst Hstep.
  assert (Hs1 : s1 = readerRound s).
  { unfold step in Hstep. cbn [stepAction] in Hstep.
    destruct (reader s); congruence. }
  subst s1.
  destruct (first_response_round s (c_id c) Hinv Hnext Hfirst)
    as (Hrd & Hlogs & Hdel & _ & Hpcs).
  split; [exact Hrd |]. split; [exact Hlogs |]. split; [exact Hdel |].
  intros tr s' resp Hrun Hin.
  destruct (Hpcs i c Hc) as (c1 & Hc1 & Hpc1).
  rewrite <- Hdel.
  apply (run_no_delivery tr (readerRound s) s' i c1 Hrun Hc1); [| exact Hin].
  unfold pastSelect. rewrite Hpc1. destruct Hexp as [-> | ->]; exact I.
Qed.

Lemma systemExpired_reachable : @reachable exampleJSON systemExpired.
Proof.
  exists session0, twoAnswers, 0,
    [ ACall "textDocument/hover" (PInterface (lit "{}")); AWrite 0; ADeadline 0 ].
  vm_compute. reflexivity.
Qed.

Lemma C2_broker_requests_witness :
  (forall i j ci cj,
      callers systemExpired !! i = Some ci -> callers systemExpired !! j = Some cj ->
      c_id ci = c_id cj -> i = j)
  /\ NoDup (map fst (delivered systemExpired))
  /\ (forall i resp,
         (i, resp) ∈ delivered systemExpired ->
         exists c, callers systemExpired !! i = Some c
                   /\ (c_id c, resp) ∈ arrived systemExpired)
  /\ (forall i c r,
         callers systemExpired !! i = Some c -> c_pc c = Returned r ->
         pending (sys_sm systemExpired) !! c_id c = None)
  /\ (forall i c s1,
         callers systemExpired !! i = Some c -> expired c ->
         @nextResponseFor exampleJSON systemExpired (c_id c) ->
         firstResponse systemExpired (c_id c) ->
         @step exampleJSON systemExpired ARead = Some s1 ->
         reader s1 = Reading /\ logs s1 = logs systemExpired
         /\ delivered s1 = delivered systemExpired
         /\ forall tr s' resp,
              @run exampleJSON s1 tr = Some s' ->
              (i, resp) ∈ delivered s' -> (i, resp) ∈ delivered systemExpired).
Proof.
  apply (@C2_broker_requests exampleJSON systemExpired).
  - exact systemExpired_reachable.
  - vm_compute. reflexivity.
Defined.

(** C10. In every reachable state with fewer than 2^63 calls of
    [sendRequest]: the ids of the calls start from 1, and the key 0 is not
    in the pending map. An id that is a JSON string whose content does not
    parse as a decimal integer is set and has the lookup key 0. So when the
    reader handles a response with such an id, it finds no entry: the
    session, the calls and their channels are as before, nothing is
    delivered or logged, and the reader goes on reading. *)
Theorem C10_string_id_matches_no_entry `{J : JSON} (s : System) :
  reachable s ->
  Z.of_nat (length (callers s)) < 2 ^ 63 ->
  (forall i c, callers s !! i = Some c -> 1 <= c_id c)
  /\ pending (sys_sm s) !! 0 = None
  /\ (forall raw str,
         isJSONString raw -> jsonUnmarshalString raw = Ok str ->
         is_Ok (ParseInt str) = false ->
         exists id, UnmarshalJSON zeroID raw = Ok id
                    /\ IsSet id = true /\ AsInt64 id = 0)
  /\ (forall msg rest f raw str,
         reader s = Reading ->
         readLSPMessage (stdout s) = Ret (msg, rest) ->
         unmarshal_baseMsg msg = Ok f ->
         bm_id f = Some raw -> bm_method f = ""%string ->
         isJSONString raw -> jsonUnmarshalString raw = Ok str ->
         is_Ok (ParseInt str) = false ->
         step s ARead
         = Some (mkSystem (sys_sm s) (callers s) rest Reading (clock s) (logs s)
                   (arrived s ++ [(0, mkLspResponse (bm_result f) (bm_error f))])
                   (delivered s))).
Proof.
  intros Hreach Hlen. pose proof (reachable_inv s Hreach) as Hinv.
  pose proof (zero_not_pending s Hinv Hlen) as Hzero.
  split.
  { intros i c Hc. rewrite (caller_id s i c Hinv Hlen Hc). lia. }
  split; [exact Hzero |].
  split.
  { intros raw str Hraw Hstr Hint.
    destruct (UnmarshalJSON_string_key raw str Hraw Hstr Hint) as (H1 & H2 & H3).
    eexists. split; [exact H1 |]. split; [exact H2 | exact H3]. }
  intros msg rest f raw str Hrd Hread Hf Hid Hm Hraw Hstr Hint.
  destruct (UnmarshalJSON_string_key raw str Hraw Hstr Hint) as (H1 & H2 & H3).
  unfold step. rewrite Hrd. cbn [stepAction]. rewrite Hrd.
  unfold readerRound, decodeBaseMsg. rewrite Hread, Hf, Hid, H1, H2, Hm.
  cbn [andb String.eqb]. rewrite H3, Hzero. reflexivity.
Qed.

Lemma systemStringId_reachable : @reachable exampleJSON systemStringId.
Proof.
  exists session0, (frame (responseBody (quote "abc"))), 0,
    [ ACall "textDocument/hover" (PInterface (lit "{}")); AWrite 0 ].
  vm_compute. reflexivity.
Qed.

Lemma C10_string_id_matches_no_entry_witness :
  (forall i c, callers systemStringId !! i = Some c -> 1 <= c_id c)
  /\ pending (sys_sm systemStringId) !! 0 = None
  /\ (forall raw str,
         isJSONString raw -> jsonUnmarshalString raw = Ok str ->
         is_Ok (ParseInt str) = false ->
         exists id, UnmarshalJSON zeroID raw = Ok id
                    /\ IsSet id = true /\ AsInt64 id = 0)
  /\ (forall msg rest f raw str,
         reader systemStringId = Reading ->
         readLSPMessage (stdout systemStringId) = Ret (msg, rest) ->
         @unmarshal_baseMsg exampleJSON msg = Ok f ->
         bm_id f = Some raw -> bm_method f = ""%string ->
         isJSONString raw -> jsonUnmarshalString raw = Ok str ->
         is_Ok (ParseInt str) = false ->
         @step exampleJSON systemStringId ARead
         = Some (mkSystem (sys_sm systemStringId) (callers systemStringId) rest
                   Reading (clock systemStringId) (logs systemStringId)
                   (arrived systemStringId
                      ++ [(0, mkLspResponse (bm_result f) (bm_error f))])
                   (delivered systemStringId))).
Proof.
  apply (@C10_string_id_matches_no_entry exampleJSON systemStringId).
  - exact systemStringId_reachable.
  - vm_compute. reflexivity.
Defined.

(** The response with the id ["abc"], handled while the call 1 waits: the
    call and its entry are untouched. *)
Example string_id_response_ignored :
  @step exampleJSON systemStringId ARead
  = Some (mkSystem (sys_sm systemStringId) (callers systemStringId) [] Reading 0 []
            [(0, mkLspResponse (lit "null") None)] [])
  /\ pending (sys_sm systemStringId) !! 1 = Some 0%nat
  /\ (c_pc <$> callers systemStringId !! 0%nat) = Some AtSelect.
Proof. repeat split; vm_compute; reflexivity. Qed.

(** ** Further properties of the code *)

Section NumberFacts.

Lemma FormatInt_negative (n : Z) : n < 0 -> FormatInt n = "-"%char :: FormatInt (- n).
Proof.
  intros Hn. unfold FormatInt.
  destruct (Z.ltb_spec n 0) as [_ | ?]; [| lia].
  destruct (Z.ltb_spec (- n) 0) as [? | _]; [lia | reflexivity].
Qed.

(** The shape of a printed integer: an optional minus sign, then the
    digits of the absolute value. *)
Lemma FormatInt_shape (n : Z) :
  exists sg ds : bytes,
    FormatInt n = sg ++ ds
    /\ (sg = [] /\ 0 <= n \/ sg = ["-"%char] /\ n < 0)
    /\ ds <> [] /\ Forall (fun c => isDigit c = true) ds
    /\ digitsValue 0 ds = Some (Z.abs n).
Proof.
  destruct (Z.lt_ge_cases n 0) as [Hneg | Hpos].
  - destruct (FormatInt_nonneg_spec (- n) ltac:(lia)) as (ds & Hf & Hne & Hall & Hval).
    exists ["-"%char], ds. rewrite FormatInt_negative, Hf by assumption.
    split; [reflexivity |]. split; [right; split; [reflexivity | assumption] |].
    split; [assumption |]. split; [assumption |].
    rewrite Hval. f_equal. lia.
  - destruct (FormatInt_nonneg_spec n Hpos) as (ds & Hf & Hne & Hall & Hval).
    exists [], ds. rewrite Hf. split; [reflexivity |].
    split; [left; split; [reflexivity | assumption] |].
    split; [assumption |]. split; [assumption |].
    rewrite Hval. f_equal. lia.
Qed.

(** Parsing what [FormatInt] printed gives the number back, for every
    64-bit integer. *)
Lemma ParseInt_FormatInt (n : Z) :
  minInt64 <= n <= maxInt64 -> ParseInt (FormatInt n) = Ok n.
Proof.
  intros Hn.
  destruct (Z.lt_ge_cases n 0) as [Hneg | Hpos].
  - rewrite FormatInt_negative by assumption.
    destruct (FormatInt_nonneg_spec (- n) ltac:(lia)) as (ds & -> & Hne & Hall & Hval).
    unfold ParseInt. change (code "-"%char =? 45) with true. cbv iota beta.
    destruct ds as [| c ds]; [congruence |].
    rewrite Hval.
    replace (- - n) with n by lia.
    unfold in_int64.
    destruct (Z.leb_spec minInt64 n); [| lia].
    destruct (Z.leb_spec n maxInt64); [reflexivity | lia].
  - apply Atoi_FormatInt. lia.
Qed.

Lemma FormatInt_no_newline (n : Z) : ~ In newline (FormatInt n).
Proof.
  destruct (FormatInt_shape n) as (sg & ds & -> & Hsg & _ & Hall & _).
  intros Hin. apply in_app_or in Hin. destruct Hin as [Hin | Hin].
  - destruct Hsg as [[-> _] | [-> _]]; [destruct Hin |].
    destruct Hin as [Hin | []]. discriminate Hin.
  - rewrite List.Forall_forall in Hall. apply Hall in Hin. discriminate Hin.
Qed.

Lemma plain_minus : plain "-"%char.
Proof. split; reflexivity. Qed.

Lemma FormatInt_plainEnds (n : Z) : plainEnds (FormatInt n).
Proof.
  destruct (FormatInt_shape n) as (sg & ds & -> & Hsg & Hne & Hall & _).
  destruct (digits_plainEnds ds Hne Hall) as [(c & s1 & Hs1 & Hc) (s2 & d & Hs2 & Hd)].
  split.
  - destruct Hsg as [[-> _] | [-> _]].
    + exists c, s1. split; [exact Hs1 | exact Hc].
    + exists "-"%char, ds. split; [reflexivity | exact plain_minus].
  - exists (sg ++ s2), d. split; [| exact Hd].
    rewrite Hs2, app_assoc. reflexivity.
Qed.

End NumberFacts.

Section HeaderFacts.

Lemma lineSpaces_spaces (ws : bytes) :
  lineSpaces ws -> Forall (fun c => isAsciiSpace c = true) ws.
Proof.
  induction 1 as [| c ws [Hc _] _ IH]; constructor; assumption.
Qed.

Lemma lineSpaces_no_newline (ws : bytes) : lineSpaces ws -> ~ In newline ws.
Proof.
  intros Hws Hin. unfold lineSpaces in Hws. rewrite List.Forall_forall in Hws.
  apply Hws in Hin. destruct Hin as [_ Hne]. congruence.
Qed.

Lemma lengthLine_no_newline (ws0 ws1 ws2 : bytes) (n : Z) :
  lineSpaces ws0 -> lineSpaces ws1 -> lineSpaces ws2 ->
  ~ In newline (lengthLine ws0 ws1 n ws2).
Proof.
  intros H0 H1 H2 Hin. unfold lengthLine in Hin.
  repeat (apply in_app_or in Hin; destruct Hin as [Hin | Hin]).
  - exact (lineSpaces_no_newline _ H0 Hin).
  - revert Hin. clear. cbn. intros H.
    repeat (destruct H as [H | H]; [discriminate H |]). exact H.
  - exact (lineSpaces_no_newline _ H1 Hin).
  - exact (FormatInt_no_newline _ Hin).
  - exact (lineSpaces_no_newline _ H2 Hin).
Qed.

Lemma TrimSpace_lengthLine (ws0 ws1 ws2 : bytes) (n : Z) :
  lineSpaces ws0 -> lineSpaces ws1 -> lineSpaces ws2 ->
  TrimSpace (lengthLine ws0 ws1 n ws2 ++ [newline])
  = ContentLengthPrefix ++ ws1 ++ FormatInt n.
Proof.
  intros H0 H1 H2. unfold lengthLine.
  replace ((ws0 ++ ContentLengthPrefix ++ ws1 ++ FormatInt n ++ ws2) ++ [newline])
    with (ws0 ++ (ContentLengthPrefix ++ ws1 ++ FormatInt n) ++ (ws2 ++ [newline]))
    by (rewrite <- !app_assoc; reflexivity).
  apply TrimSpace_plainEnds.
  - destruct (FormatInt_plainEnds n) as [_ (s' & d & Hs & Hd)]. split.
    + eexists _, _. split; [reflexivity |]. split; reflexivity.
    + exists (ContentLengthPrefix ++ ws1 ++ s'), d. split; [| exact Hd].
      rewrite Hs, <- !app_assoc. reflexivity.
  - apply lineSpaces_spaces. exact H0.
  - apply Forall_app. split; [apply lineSpaces_spaces; exact H2 |].
    repeat constructor.
Qed.

(** One round of the header loop on a [Content-Length] line: the value
    replaces the one held before. *)
Lemma readHeaders_lengthLine (fuel : nat) (ws0 ws1 ws2 r : bytes) (n cl0 : Z) :
  lineSpaces ws0 -> lineSpaces ws1 -> lineSpaces ws2 ->
  minInt64 <= n <= maxInt64 ->
  readHeaders (S fuel) (lengthLine ws0 ws1 n ws2 ++ newline :: r) cl0
  = readHeaders fuel r n.
Proof.
  intros H0 H1 H2 Hn. cbn [readHeaders].
  rewrite ReadString_line by (apply lengthLine_no_newline; assumption).
  rewrite TrimSpace_lengthLine by assumption.
  change (ContentLengthPrefix ++ ws1 ++ FormatInt n)
    with ("C"%char :: (lit "ontent-Length:" ++ ws1 ++ FormatInt n)).
  change ("C"%char :: (lit "ontent-Length:" ++ ws1 ++ FormatInt n))
    with (ContentLengthPrefix ++ ws1 ++ FormatInt n).
  rewrite HasPrefix_app, TrimPrefix_app.
  assert (HT : TrimSpace (ws1 ++ FormatInt n) = FormatInt n).
  { rewrite <- (app_nil_r (FormatInt n)) at 1.
    apply (TrimSpace_plainEnds ws1 (FormatInt n) []);
      [apply FormatInt_plainEnds | apply lineSpaces_spaces; exact H1 | constructor]. }
  rewrite HT. unfold Atoi. rewrite ParseInt_FormatInt by assumption.
  destruct (ContentLengthPrefix ++ ws1 ++ FormatInt n) eqn:Hl; [discriminate Hl |].
  reflexivity.
Qed.

(** The round on a blank line ends the header block. *)
Lemma readHeaders_blank (fuel : nat) (ws r : bytes) (cl : Z) :
  lineSpaces ws ->
  readHeaders (S fuel) (ws ++ newline :: r) cl = Ok (cl, r).
Proof.
  intros Hws. cbn [readHeaders].
  rewrite ReadString_line by (apply lineSpaces_no_newline; exact Hws).
  rewrite TrimSpace_spaces; [reflexivity |].
  apply Forall_app. split; [apply lineSpaces_spaces; exact Hws | repeat constructor].
Qed.

Lemma lineSpaces_cr : lineSpaces [ascii_of_code 13].
Proof. repeat constructor. discriminate. Qed.

Lemma lineSpaces_sp : lineSpaces [" "%char].
Proof. repeat constructor. discriminate. Qed.

Lemma lineSpaces_nil : lineSpaces [].
Proof. constructor. Qed.

Lemma lengthHeader_lines (n : Z) (r : bytes) :
  lengthHeader n ++ r
  = lengthLine [] [" "%char] n [ascii_of_code 13]
      ++ newline :: [ascii_of_code 13] ++ newline :: r.
Proof.
  unfold lengthHeader, lengthLine, ContentLengthPrefix, lit.
  cbn [list_ascii_of_string app]. rewrite <- !app_assoc. reflexivity.
Qed.

(** The header block [writeMessage] prints for the length [n] is read back
    as [n]. *)
Lemma readHeaders_lengthHeader (fuel : nat) (n cl0 : Z) (r : bytes) :
  minInt64 <= n <= maxInt64 ->
  readHeaders (S (S fuel)) (lengthHeader n ++ r) cl0 = Ok (n, r).
Proof.
  intros Hn. rewrite lengthHeader_lines.
  rewrite readHeaders_lengthLine
    by (assumption || apply lineSpaces_nil || apply lineSpaces_sp || apply lineSpaces_cr).
  apply readHeaders_blank. apply lineSpaces_cr.
Qed.

Lemma length_lengthHeader (n : Z) (r : bytes) :
  exists k, length (lengthHeader n ++ r) = S (S k).
Proof.
  unfold lengthHeader. rewrite !length_app. cbn [length].
  exists (length (lit "Content-Length: ") + (length (FormatInt n) + 2) + length r)%nat.
  lia.
Qed.

End HeaderFacts.

Section FramedReaderFacts.

Lemma ReadString_split (delim : ascii) (r line rest : bytes) :
  ReadString delim r = (line, rest, None) -> r = line ++ rest /\ line <> [].
Proof.
  revert line rest. induction r as [| c r IH]; intros line rest; cbn [ReadString].
  - discriminate.
  - case_bool_decide.
    + intros [= <- <-]. split; [reflexivity | discriminate].
    + destruct (ReadString delim r) as [[line' rest'] err] eqn:Hrec.
      intros [= <- <- ->]. destruct (IH _ _ eq_refl) as [-> _].
      split; [reflexivity | discriminate].
Qed.

Lemma readHeaders_split (fuel : nat) (r rest : bytes) (cl cl' : Z) :
  readHeaders fuel r cl = Ok (cl', rest) ->
  exists hdr, r = hdr ++ rest /\ hdr <> [].
Proof.
  revert r cl. induction fuel as [| fuel IH]; intros r cl; cbn [readHeaders].
  - discriminate.
  - destruct (ReadString newline r) as [[line rest1] [e |]] eqn:Hread;
      [discriminate |].
    apply ReadString_split in Hread. destruct Hread as [-> Hne].
    assert (Hrec : forall cl1, readHeaders fuel rest1 cl1 = Ok (cl', rest) ->
                     exists hdr, line ++ rest1 = hdr ++ rest /\ hdr <> []).
    { intros cl1 H. apply IH in H. destruct H as (hdr & -> & _).
      exists (line ++ hdr). split; [apply app_assoc |].
      intros Hnil. apply app_eq_nil in Hnil. destruct Hnil. congruence. }
    destruct (TrimSpace line) as [| c l].
    + intros [= <- <-]. exists line. split; [reflexivity | exact Hne].
    + destruct (HasPrefix (c :: l) ContentLengthPrefix).
      * destruct (Atoi _); [| discriminate]. apply Hrec.
      * apply Hrec.
Qed.

Lemma ReadFull_short (n : nat) (r : bytes) :
  (length r < n)%nat ->
  ReadFull n r = Err (match r with [] => io_EOF | _ :: _ => io_ErrUnexpectedEOF end).
Proof.
  intros Hlt. unfold ReadFull.
  destruct (Nat.leb_spec n (length r)); [lia |]. destruct r; reflexivity.
Qed.

End FramedReaderFacts.

Section FramedStreamFacts.

Lemma ReadString_unline (delim : ascii) (r line rest : bytes) :
  ReadString delim r = (line, rest, None) ->
  exists t, line = t ++ [delim] /\ ~ In delim t /\ r = t ++ delim :: rest.
Proof.
  revert line rest. induction r as [| c r IH]; intros line rest; cbn [ReadString].
  - discriminate.
  - case_bool_decide as Hc.
    + intros [= <- <-]. exists []. subst c. split; [reflexivity |].
      split; [intros [] | reflexivity].
    + destruct (ReadString delim r) as [[line' rest'] err] eqn:Hrec.
      intros [= <- <- ->]. destruct (IH _ _ eq_refl) as (t & -> & Hnot & ->).
      exists (c :: t). split; [reflexivity |]. split; [| reflexivity].
      intros [H | H]; [congruence | exact (Hnot H)].
Qed.

(** The header loop reads the lines of a header block and stops after its
    blank line. *)
Lemma readHeaders_announced (lines : list bytes) (blank tail : bytes)
    (fuel : nat) (cl : Z) :
  (length lines < fuel)%nat ->
  Forall headerLine lines -> blankLine blank ->
  readHeaders fuel (headerBlock lines blank ++ tail) cl
  = Ok (announcedFrom cl lines, tail).
Proof.
  intros Hfuel Hlines [Hnb Hblank]. revert fuel cl Hfuel.
  induction Hlines as [| line lines (Hnl & Hne & Hnum) _ IH]; intros fuel cl Hfuel.
  - destruct fuel as [| fuel]; [cbn [length] in Hfuel; lia |].
    rewrite headerBlock_nil. cbn [readHeaders].
    rewrite ReadString_line by exact Hnb. rewrite Hblank. reflexivity.
  - destruct fuel as [| fuel]; [cbn [length] in Hfuel; lia |].
    cbn [length] in Hfuel.
    rewrite headerBlock_cons. cbn [readHeaders].
    rewrite ReadString_line by exact Hnl.
    unfold announcedFrom. cbn [fold_left]. fold (announcedFrom
      (match lengthOfLine line with Some (Ok n) => n | _ => cl end) lines).
    unfold lengthOfLine in *.
    destruct (TrimSpace (line ++ [newline])) as [| c l] eqn:Ht; [congruence |].
    destruct (HasPrefix (c :: l) ContentLengthPrefix).
    + destruct (Atoi (TrimSpace (TrimPrefix (c :: l) ContentLengthPrefix)))
        as [n | e]; [| destruct (Hnum e); reflexivity].
      apply IH. lia.
    + apply IH. lia.
Qed.

(** What the header loop has read, when it comes to its end, is a header
    block. *)
Lemma readHeaders_inv (fuel : nat) (r rest : bytes) (cl cl' : Z) :
  readHeaders fuel r cl = Ok (cl', rest) ->
  exists lines blank,
    r = headerBlock lines blank ++ rest
    /\ Forall headerLine lines /\ blankLine blank
    /\ cl' = announcedFrom cl lines.
Proof.
  revert r cl. induction fuel as [| fuel IH]; intros r cl; cbn [readHeaders].
  - discriminate.
  - destruct (ReadString newline r) as [[line rest1] [e |]] eqn:Hread;
      [discriminate |].
    apply ReadString_unline in Hread. destruct Hread as (t & -> & Hnot & ->).
    assert (Hrec : forall cl1,
              TrimSpace (t ++ [newline]) <> [] ->
              (forall e, lengthOfLine t <> Some (Err e)) ->
              cl1 = match lengthOfLine t with Some (Ok n) => n | _ => cl end ->
              readHeaders fuel rest1 cl1 = Ok (cl', rest) ->
              exists lines blank,
                t ++ newline :: rest1 = headerBlock lines blank ++ rest
                /\ Forall headerLine lines /\ blankLine blank
                /\ cl' = announcedFrom cl lines).
    { intros cl1 Hne Hnum Hcl1 H. apply IH in H.
      destruct H as (lines & blank & -> & Hl & Hb & ->).
      exists (t :: lines), blank. split.
      - rewrite headerBlock_cons. reflexivity.
      - split; [constructor; [repeat split; assumption | exact Hl] |].
        split; [exact Hb |]. unfold announcedFrom. cbn [fold_left].
        rewrite Hcl1. reflexivity. }
    unfold lengthOfLine in Hrec.
    destruct (TrimSpace (t ++ [newline])) as [| c l] eqn:Ht.
    + intros [= <- <-]. exists [], t. split.
      * rewrite headerBlock_nil. reflexivity.
      * split; [constructor |]. split; [split; assumption | reflexivity].
    + destruct (HasPrefix (c :: l) ContentLengthPrefix).
      * destruct (Atoi _) as [n | e]; [| discriminate].
        apply Hrec; [discriminate | intros e; discriminate | reflexivity].
      * apply Hrec; [discriminate | intros e; discriminate | reflexivity].
Qed.

Lemma length_headerBlock (lines : list bytes) (blank : bytes) :
  (length lines < length (headerBlock lines blank))%nat.
Proof.
  unfold headerBlock. rewrite !length_app. cbn [length].
  induction lines as [| l lines IH]; cbn [map concat length]; [lia |].
  rewrite !length_app. cbn [length]. lia.
Qed.

End FramedStreamFacts.

(** X1. [readLSPMessage] returns a message exactly when the stream is a header
    block, then the message, then what the reader is left with, where: the
    header block is lines that each end in a newline, none of them blank and
    every [Content-Length] line with a number, and then a blank line; the
    length of the message is the number of the last [Content-Length] line;
    the message is not empty; and [make] accepts its length and the runtime
    can allocate it. Nothing after the message is consumed, and nothing
    between the blank line and the message. *)
Theorem readLSPMessage_returns_framed_body (heap : Z) (r body rest : bytes) :
  readLSPMessageOn heap r = Finished (Ret (body, rest))
  <-> exists lines blank,
        r = headerBlock lines blank ++ body ++ rest
        /\ Forall headerLine lines /\ blankLine blank
        /\ announcedBy lines = Z.of_nat (length body)
        /\ body <> []
        /\ Z.of_nat (length body) <= Z.min maxAlloc heap.
Proof.
  unfold readLSPMessageOn, make_bytes. split.
  - destruct (readHeaders (S (length r)) r 0) as [[cl rest1] | e] eqn:Hh;
      [| discriminate].
    apply readHeaders_inv in Hh.
    destruct Hh as (lines & blank & -> & Hl & Hb & ->).
    fold (announcedBy lines).
    destruct (Z.eqb_spec (announcedBy lines) 0) as [? | Hnz]; [discriminate |].
    destruct (Z.ltb_spec (announcedBy lines) 0) as [? | Hpos]; [discriminate |].
    destruct (Z.ltb_spec maxAlloc (announcedBy lines)) as [? | Hmax]; [discriminate |].
    cbn [orb].
    destruct (Z.ltb_spec heap (announcedBy lines)) as [? | Hheap]; [discriminate |].
    unfold ReadFull.
    destruct (Nat.leb_spec (Z.to_nat (announcedBy lines)) (length rest1)) as [Hle | Hgt];
      [| destruct rest1; discriminate].
    intros [= <- <-].
    assert (Hlen : length (take (Z.to_nat (announcedBy lines)) rest1)
                   = Z.to_nat (announcedBy lines))
      by (rewrite length_take; lia).
    exists lines, blank. rewrite take_drop.
    split; [reflexivity |]. split; [exact Hl |]. split; [exact Hb |].
    split; [rewrite Hlen; lia |]. split; [| rewrite Hlen; lia].
    intros Hnil. rewrite Hnil in Hlen. cbn [length] in Hlen. lia.
  - intros (lines & blank & -> & Hl & Hb & Hann & Hne & Hmax).
    rewrite (readHeaders_announced lines blank (body ++ rest) _ 0);
      [| rewrite length_app; pose proof (length_headerBlock lines blank); lia
       | exact Hl | exact Hb].
    fold (announcedBy lines). rewrite Hann.
    assert (Hpos : 0 < Z.of_nat (length body))
      by (destruct body; [congruence | cbn [length]; lia]).
    destruct (Z.eqb_spec (Z.of_nat (length body)) 0) as [? | _]; [lia |].
    destruct (Z.ltb_spec (Z.of_nat (length body)) 0) as [? | _]; [lia |].
    destruct (Z.ltb_spec maxAlloc (Z.of_nat (length body))) as [? | _]; [lia |].
    cbn [orb].
    destruct (Z.ltb_spec heap (Z.of_nat (length body))) as [? | _]; [lia |].
    unfold ReadFull. rewrite Nat2Z.id, length_app.
    destruct (Nat.leb_spec (length body) (length body + length rest)); [| lia].
    rewrite take_app_length, drop_app_length. reflexivity.
Qed.

(** A frame after a header line that is no [Content-Length] line, on a
    machine that can allocate 16 MiB; and the same stream with one byte
    between the blank line and the body: the reader takes that byte for the
    first of the body. *)
Example readLSPMessage_returns_framed_body_example :
  readLSPMessageOn (16 * 1024 * 1024)
    (headerBlock [lit "Content-Type: x"; lit "Content-Length: 2"] [] ++ lit "{}" ++ lit "tail")
  = Finished (Ret (lit "{}", lit "tail"))
  /\ readLSPMessageOn (16 * 1024 * 1024)
       (headerBlock [lit "Content-Type: x"; lit "Content-Length: 2"] [] ++ lit " {}" ++ lit "tail")
     = Finished (Ret (lit " {", lit "}tail")).
Proof. split; vm_compute; reflexivity. Qed.

(** X2. The frame [writeMessage] would emit for an empty body is not read
    back: a length of zero is taken for a missing header. *)
Theorem readLSPMessage_empty_body (rest : bytes) :
  readLSPMessage (frame [] ++ rest)
  = Fail (errorf "missing Content-Length header").
Proof.
  change (frame []) with (lengthHeader 0). unfold readLSPMessage.
  destruct (length_lengthHeader 0 rest) as (k & ->).
  rewrite readHeaders_lengthHeader by (vm_compute; split; discriminate).
  reflexivity.
Qed.

(** X3. A header that announces a negative length, or one above the largest
    allocation, makes [readLSPMessage] panic in [make]: the reader does not
    return an error. *)
Theorem readLSPMessage_bad_length_panics (n : Z) (rest : bytes) :
  minInt64 <= n <= maxInt64 ->
  n < 0 \/ maxAlloc < n ->
  readLSPMessage (lengthHeader n ++ rest) = Panic.
Proof.
  intros Hn Hbad. unfold readLSPMessage.
  destruct (length_lengthHeader n rest) as (k & ->).
  rewrite readHeaders_lengthHeader by assumption.
  assert (0 < maxAlloc) by (vm_compute; reflexivity).
  destruct (Z.eqb_spec n 0) as [? | _]; [lia |].
  destruct (Z.ltb_spec n 0); [reflexivity |].
  destruct (Z.ltb_spec maxAlloc n); [reflexivity | lia].
Qed.

Lemma readLSPMessage_bad_length_panics_witness :
  readLSPMessage (lit "Content-Length: -1" ++ [ascii_of_code 13; newline; ascii_of_code 13; newline]
                    ++ lit "{}") = Panic.
Proof.
  apply (readLSPMessage_bad_length_panics (-1) (lit "{}")).
  - vm_compute. split; discriminate.
  - left. reflexivity.
Defined.

(** A stream that ends inside the body, where memory is no limit. *)
Lemma readLSPMessage_short_stream (body : bytes) (k : nat) :
  (k < length body)%nat ->
  Z.of_nat (length body) <= maxAlloc ->
  readHeaders (S (length (frameHeader body ++ take k body)))
    (frameHeader body ++ take k body) 0
  = Ok (Z.of_nat (length body), take k body)
  /\ readLSPMessage (frameHeader body ++ take k body)
     = Fail (if (k =? 0)%nat then io_EOF else io_ErrUnexpectedEOF).
Proof.
  intros Hk Hmax. pose proof maxAlloc_covers_16MiB as [_ Hle].
  change (frameHeader body) with (lengthHeader (Z.of_nat (length body))).
  unfold readLSPMessage.
  destruct (length_lengthHeader (Z.of_nat (length body)) (take k body)) as (f & ->).
  rewrite readHeaders_lengthHeader by (unfold minInt64; lia).
  split; [reflexivity |].
  destruct (Z.eqb_spec (Z.of_nat (length body)) 0) as [? | _]; [lia |].
  destruct (Z.ltb_spec (Z.of_nat (length body)) 0) as [? | _]; [lia |].
  destruct (Z.ltb_spec maxAlloc (Z.of_nat (length body))) as [? | _]; [lia |].
  cbn [orb]. rewrite Nat2Z.id.
  rewrite ReadFull_short by (rewrite length_take; lia).
  destruct k as [| k]; [rewrite take_0; reflexivity |].
  destruct body as [| c body]; [cbn [length] in Hk; lia |]. reflexivity.
Qed.

(** X4. A stream that ends inside the body of a frame. The slice for the
    body is made before the body is read: when the runtime cannot allocate
    the announced length, the process ends with the fatal error of [make],
    however short the stream is; when it can, the error is [io.EOF] if no
    byte of the body has come and [io.ErrUnexpectedEOF] otherwise. *)
Theorem readLSPMessage_truncated_body (heap : Z) (body : bytes) (k : nat) :
  (k < length body)%nat ->
  Z.of_nat (length body) <= maxAlloc ->
  readLSPMessageOn heap (frameHeader body ++ take k body)
  = if heap <? Z.of_nat (length body) then OutOfMemory
    else Finished (Fail (if (k =? 0)%nat then io_EOF else io_ErrUnexpectedEOF)).
Proof.
  intros Hk Hmax.
  destruct (readLSPMessage_short_stream body k Hk Hmax) as [Hh Hr].
  destruct (Z.ltb_spec heap (Z.of_nat (length body))) as [Hlt | Hge].
  - apply (readLSPMessageOn_no_memory heap _ _ _ Hh); lia.
  - rewrite readLSPMessageOn_allocated; [rewrite Hr; reflexivity |].
    rewrite Hh. exact Hge.
Qed.

Lemma readLSPMessage_truncated_body_witness :
  readLSPMessageOn 4 (frameHeader (lit "{...}") ++ take 2 (lit "{...}"))
  = (if 4 <? Z.of_nat (length (lit "{...}")) then OutOfMemory
     else Finished (Fail (if (2 =? 0)%nat then io_EOF else io_ErrUnexpectedEOF))).
Proof.
  apply (readLSPMessage_truncated_body 4 (lit "{...}") 2).
  - cbn. lia.
  - vm_compute. discriminate.
Defined.

(** The same header on two machines: one that can allocate the five bytes
    it announces, one that cannot. *)
Example readLSPMessageOn_two_machines :
  readLSPMessageOn 5 (frameHeader (lit "{...}") ++ lit "{.") = Finished (Fail io_ErrUnexpectedEOF)
  /\ readLSPMessageOn 5 (frameHeader (lit "{...}")) = Finished (Fail io_EOF)
  /\ readLSPMessageOn 4 (frameHeader (lit "{...}") ++ lit "{.") = OutOfMemory.
Proof. repeat split; vm_compute; reflexivity. Qed.

(** X5. The header block is read leniently: white space around the header
    name, the number and the line is skipped, so a frame whose lines end in
    a bare newline is read like one whose lines end in CR LF. *)
Theorem readLSPMessage_lenient_header (ws0 ws1 ws2 ws3 body rest : bytes) :
  lineSpaces ws0 -> lineSpaces ws1 -> lineSpaces ws2 -> lineSpaces ws3 ->
  body <> [] ->
  Z.of_nat (length body) <= maxAlloc ->
  readLSPMessage (lengthLine ws0 ws1 (Z.of_nat (length body)) ws2 ++ newline
                    :: ws3 ++ newline :: body ++ rest)
  = Ret (body, rest).
Proof.
  intros H0 H1 H2 H3 Hne Hmax. pose proof maxAlloc_covers_16MiB as [_ Hle].
  unfold readLSPMessage.
  destruct (length (lengthLine ws0 ws1 (Z.of_nat (length body)) ws2 ++ newline
                      :: ws3 ++ newline :: body ++ rest)) as [| k] eqn:Hk.
  { rewrite length_app in Hk. cbn [length] in Hk. lia. }
  destruct k as [| k].
  { rewrite length_app in Hk. cbn [length] in Hk.
    rewrite length_app in Hk. cbn [length] in Hk. lia. }
  rewrite readHeaders_lengthLine by (assumption || unfold minInt64; lia).
  rewrite readHeaders_blank by assumption.
  assert (0 < Z.of_nat (length body)).
  { destruct body; [congruence | cbn [length]; lia]. }
  destruct (Z.eqb_spec (Z.of_nat (length body)) 0) as [? | _]; [lia |].
  destruct (Z.ltb_spec (Z.of_nat (length body)) 0) as [? | _]; [lia |].
  destruct (Z.ltb_spec maxAlloc (Z.of_nat (length body))) as [? | _]; [lia |].
  cbn [orb]. unfold ReadFull. rewrite Nat2Z.id, length_app.
  destruct (Nat.leb_spec (length body) (length body + length rest)); [| lia].
  rewrite take_app_length, drop_app_length. reflexivity.
Qed.

Lemma readLSPMessage_lenient_header_witness :
  readLSPMessage (lit "  Content-Length:2 " ++ newline :: newline :: lit "{}" ++ lit "x")
  = Ret (lit "{}", lit "x").
Proof.
  apply (readLSPMessage_lenient_header (lit "  ") [] (lit " ") [] (lit "{}") (lit "x")).
  - repeat constructor; discriminate.
  - constructor.
  - repeat constructor; discriminate.
  - constructor.
  - discriminate.
  - vm_compute. discriminate.
Defined.

(** X6. When the header block holds several [Content-Length] lines, the last
    one gives the length of the body. *)
Theorem readLSPMessage_last_length_wins (n1 : Z) (body rest : bytes) :
  minInt64 <= n1 <= maxInt64 ->
  body <> [] ->
  Z.of_nat (length body) <= maxAlloc ->
  readLSPMessage (lengthLine [] [" "%char] n1 [ascii_of_code 13] ++ newline
                    :: frame body ++ rest)
  = Ret (body, rest).
Proof.
  intros Hn1 Hne Hmax. pose proof maxAlloc_covers_16MiB as [_ Hle].
  unfold readLSPMessage, frame.
  change (frameHeader body) with (lengthHeader (Z.of_nat (length body))).
  rewrite <- app_assoc.
  destruct (length_lengthHeader (Z.of_nat (length body)) (body ++ rest)) as (f & Hf).
  rewrite length_app. cbn [length]. rewrite Hf.
  replace (length (lengthLine [] [" "%char] n1 [ascii_of_code 13]) + S (S (S f)))%nat
    with (S (S (length (lengthLine [] [" "%char] n1 [ascii_of_code 13]) + S f)))%nat by lia.
  rewrite readHeaders_lengthLine
    by (assumption || apply lineSpaces_nil || apply lineSpaces_sp || apply lineSpaces_cr).
  rewrite Nat.add_succ_r.
  rewrite readHeaders_lengthHeader by (unfold minInt64; lia).
  assert (0 < Z.of_nat (length body)).
  { destruct body; [congruence | cbn [length]; lia]. }
  destruct (Z.eqb_spec (Z.of_nat (length body)) 0) as [? | _]; [lia |].
  destruct (Z.ltb_spec (Z.of_nat (length body)) 0) as [? | _]; [lia |].
  destruct (Z.ltb_spec maxAlloc (Z.of_nat (length body))) as [? | _]; [lia |].
  cbn [orb]. unfold ReadFull. rewrite Nat2Z.id, length_app.
  destruct (Nat.leb_spec (length body) (length body + length rest)); [| lia].
  rewrite take_app_length, drop_app_length. reflexivity.
Qed.

Lemma readLSPMessage_last_length_wins_witness :
  readLSPMessage (lit "Content-Length: 999" ++ [ascii_of_code 13; newline]
                    ++ frame (lit "{}") ++ lit "x")
  = Ret (lit "{}", lit "x").
Proof.
  apply (readLSPMessage_last_length_wins 999 (lit "{}") (lit "x")).
  - vm_compute. split; discriminate.
  - discriminate.
  - vm_compute. discriminate.
Defined.

Section IdCodecFacts.

(** The most significant digit that [formatDigits] writes for a positive
    number is not [0]. *)
Lemma formatDigits_head (fuel : nat) (n : Z) :
  0 < n < 2 ^ Z.of_nat (S fuel) ->
  exists (c : ascii) (ds : bytes),
    (forall acc, formatDigits (S fuel) n acc = c :: ds ++ acc)
    /\ isDigit c = true /\ code c <> 48
    /\ forallb isDigit ds = true.
Proof.
  revert n. induction fuel as [| fuel IH]; intros n Hn;
    assert (Hmod : 0 <= n mod 10 < 10) by (apply Z.mod_pos_bound; lia);
    destruct (Z.ltb_spec n 10) as [Hlt | Hge].
  1, 3: exists (digitChar (n mod 10)), []; split;
    [ intros acc; cbn [formatDigits];
      destruct (Z.ltb_spec n 10); [reflexivity | lia]
    | split; [apply isDigit_digitChar; assumption |];
      split; [rewrite code_digitChar by assumption;
              rewrite Z.mod_small by lia; lia | reflexivity] ].
  - change (2 ^ Z.of_nat 1) with 2 in Hn. lia.
  - destruct (IH (n / 10)) as (c & ds & Happ & Hc & Hc0 & Hds).
    { split; [apply Z.div_str_pos; lia |].
      apply Z.div_lt_upper_bound; [lia |].
      rewrite (Nat2Z.inj_succ (S fuel)), Z.pow_succ_r in Hn by lia. lia. }
    exists c, (ds ++ [digitChar (n mod 10)]). split.
    + intros acc. cbn [formatDigits]. destruct (Z.ltb_spec n 10); [lia |].
      cbn [formatDigits] in Happ. rewrite Happ, <- app_assoc. reflexivity.
    + split; [exact Hc |]. split; [exact Hc0 |].
      rewrite forallb_app, Hds. cbn [forallb].
      rewrite isDigit_digitChar by assumption. reflexivity.
Qed.

Lemma FormatInt_pos_head (n : Z) :
  0 < n ->
  exists (c : ascii) (ds : bytes),
    FormatInt n = c :: ds /\ isDigit c = true /\ code c <> 48
    /\ forallb isDigit ds = true.
Proof.
  intros Hn. unfold FormatInt. destruct (Z.ltb_spec n 0) as [? | _]; [lia |].
  destruct (formatDigits_head (Z.to_nat (Z.log2 n)) n) as (c & ds & Happ & H).
  { split; [assumption |].
    rewrite Nat2Z.inj_succ, Z2Nat.id by apply Z.log2_nonneg.
    apply Z.log2_spec. lia. }
  exists c, ds. rewrite Happ, app_nil_r. split; [reflexivity | exact H].
Qed.

(** What [FormatInt] prints is a JSON integer. *)
Lemma isJSONInteger_FormatInt (n : Z) : isJSONInteger (FormatInt n) = true.
Proof.
  assert (Hpos : forall m, 0 < m -> isJSONInteger (FormatInt m) = true
                                   /\ exists c ds, FormatInt m = c :: ds
                                        /\ isDigit c = true /\ code c <> 48
                                        /\ forallb isDigit ds = true).
  { intros m Hm. destruct (FormatInt_pos_head m Hm) as (c & ds & Hf & Hc & Hc0 & Hds).
    split; [| exists c, ds; repeat split; assumption].
    rewrite Hf. unfold isJSONInteger.
    assert (Hd : 48 <= code c <= 57).
    { unfold isDigit in Hc. apply andb_true_iff in Hc. destruct Hc as [H1 H2].
      apply Z.leb_le in H1. apply Z.leb_le in H2. lia. }
    destruct (Z.eqb_spec (code c) 45); [lia |].
    destruct (Z.eqb_spec (code c) 48); [lia |].
    rewrite Hc, Hds. reflexivity. }
  destruct (Z.lt_trichotomy n 0) as [Hneg | [-> | Hp]].
  - rewrite FormatInt_negative by assumption.
    destruct (Hpos (- n) ltac:(lia)) as [_ (c & ds & -> & Hc & Hc0 & Hds)].
    unfold isJSONInteger. change (code "-"%char =? 45) with true. cbv iota.
    destruct (Z.eqb_spec (code c) 48); [lia |]. rewrite Hc, Hds. reflexivity.
  - reflexivity.
  - apply (Hpos n Hp).
Qed.

Lemma dropJSONSpace_plain (c : ascii) (s : bytes) :
  isJSONSpace c = false -> dropJSONSpace (c :: s) = c :: s.
Proof. intros H. cbn [dropJSONSpace]. rewrite H. reflexivity. Qed.

(** A value whose first and last bytes are no white space is left as it
    is. *)
Lemma trimJSONSpace_ends (c d : ascii) (s : bytes) :
  isJSONSpace c = false -> isJSONSpace d = false ->
  (exists s1, s = c :: s1) -> (exists s2, s = s2 ++ [d]) ->
  trimJSONSpace s = s.
Proof.
  intros Hc Hd [s1 H1] [s2 H2]. unfold trimJSONSpace.
  rewrite H1 at 1. rewrite dropJSONSpace_plain by exact Hc. rewrite <- H1.
  rewrite H2 at 1. rewrite rev_app_distr. cbn [rev app].
  rewrite dropJSONSpace_plain by exact Hd.
  change (d :: rev s2) with (rev [d] ++ rev s2).
  rewrite <- rev_app_distr, rev_involutive. symmetry. exact H2.
Qed.

Lemma plain_not_JSONSpace (c : ascii) : plain c -> isJSONSpace c = false.
Proof.
  intros [_ H]. unfold isAsciiSpace in H. unfold isJSONSpace.
  repeat (apply orb_false_iff in H; destruct H as [H ?]).
  repeat (apply orb_false_iff; split); assumption.
Qed.

Lemma trimJSONSpace_FormatInt (n : Z) : trimJSONSpace (FormatInt n) = FormatInt n.
Proof.
  destruct (FormatInt_plainEnds n) as [(c & s1 & Hs1 & Hc) (s2 & d & Hs2 & Hd)].
  apply (trimJSONSpace_ends c d); try (apply plain_not_JSONSpace; assumption);
    eauto.
Qed.

Lemma FormatInt_not_null (n : Z) : FormatInt n <> lit "null".
Proof.
  intros H. pose proof (isJSONInteger_FormatInt n) as Hi. rewrite H in Hi.
  discriminate Hi.
Qed.

(** [json.Unmarshal] into an [int64] of what [json.Marshal] printed. *)
Lemma jsonUnmarshalInt64_Marshal (n : Z) :
  minInt64 <= n <= maxInt64 ->
  jsonUnmarshalInt64 (jsonMarshalInt64 n) = Ok n.
Proof.
  intros Hn. unfold jsonUnmarshalInt64, jsonMarshalInt64.
  rewrite trimJSONSpace_FormatInt. unfold bytes_eqb.
  rewrite bool_decide_eq_false_2 by apply FormatInt_not_null.
  rewrite isJSONInteger_FormatInt, ParseInt_FormatInt by assumption. reflexivity.
Qed.

End IdCodecFacts.

(** X7. An id that holds a number is written as that number and read back as
    the same number, for every 64-bit value: the ids the broker allocates
    come back under the key they were stored under. *)
Theorem MarshalJSON_UnmarshalJSON_number (n : Z) (s : option bytes) :
  minInt64 <= n <= maxInt64 ->
  MarshalJSON (mkID (Some n) s) = FormatInt n
  /\ UnmarshalJSON zeroID (MarshalJSON (mkID (Some n) s)) = Ok (mkID (Some n) None)
  /\ AsInt64 (mkID (Some n) None) = n.
Proof.
  intros Hn. split; [reflexivity |]. split; [| reflexivity].
  unfold MarshalJSON, UnmarshalJSON. cbn [intValue strValue zeroID].
  unfold bytes_eqb. rewrite bool_decide_eq_false_2 by apply FormatInt_not_null.
  rewrite jsonUnmarshalInt64_Marshal by assumption. reflexivity.
Qed.

Lemma MarshalJSON_UnmarshalJSON_number_witness :
  MarshalJSON (mkID (Some (-17)) (Some (lit "x"))) = FormatInt (-17)
  /\ UnmarshalJSON zeroID (MarshalJSON (mkID (Some (-17)) (Some (lit "x"))))
     = Ok (mkID (Some (-17)) None)
  /\ AsInt64 (mkID (Some (-17)) None) = -17.
Proof.
  apply (MarshalJSON_UnmarshalJSON_number (-17) (Some (lit "x"))).
  vm_compute. split; discriminate.
Defined.

(** After [UnmarshalJSON] has succeeded on a zero id, the id is unset
    exactly when the data were the literal [null]; every other accepted
    input sets it. *)
Theorem UnmarshalJSON_unset_iff_null (data : bytes) (id : JSONRPCID) :
  UnmarshalJSON zeroID data = Ok id ->
  (IsSet id = false <-> data = lit "null").
Proof.
  unfold UnmarshalJSON, bytes_eqb. case_bool_decide as Hnull.
  - intros [= <-]. split; [intros _; exact Hnull | reflexivity].
  - destruct (jsonUnmarshalInt64 data) as [i | e].
    + intros [= <-]. split; [discriminate | congruence].
    + destruct (jsonUnmarshalString data) as [s | e']; [| discriminate].
      destruct (ParseInt s); intros [= <-]; (split; [discriminate | congruence]).
Qed.

Lemma UnmarshalJSON_unset_iff_null_witness :
  IsSet (mkID None (Some (lit "abc"))) = false <-> quote "abc" = lit "null".
Proof.
  apply (UnmarshalJSON_unset_iff_null (quote "abc") (mkID None (Some (lit "abc")))).
  reflexivity.
Defined.

Section StringCodecFacts.

(** Reading back what [appendString] wrote for one ASCII byte. *)
Lemma unquoteBody_quoteBody_byte (c : ascii) (fuel : nat) (tail : bytes) :
  code c < 128 ->
  unquoteBody (S fuel) (quoteBody 1 [c] ++ tail) = cons c <$> unquoteBody fuel tail.
Proof.
  intros Hc.
  destruct c as [[] [] [] [] [] [] [] []];
    try (exfalso; vm_compute in Hc; discriminate Hc); reflexivity.
Qed.

Lemma quoteBody_cons (c : ascii) (s : bytes) (f : nat) :
  code c < 128 ->
  quoteBody (S f) (c :: s) = quoteBody 1 [c] ++ quoteBody f s.
Proof.
  intros Hc. cbn [quoteBody]. destruct (Z.ltb_spec (code c) 128); [| lia].
  rewrite app_nil_r. reflexivity.
Qed.

Lemma unquoteBody_quoteBody (s : bytes) (f fuel : nat) :
  isASCII s -> (length s <= f)%nat -> (length s < fuel)%nat ->
  unquoteBody fuel (quoteBody f s ++ [ascii_of_code 34]) = Some s.
Proof.
  intros Hs. revert f fuel. induction Hs as [| c s Hc _ IH]; intros f fuel Hf Hfuel.
  - destruct fuel as [| fuel]; [cbn [length] in Hfuel; lia |].
    destruct f; reflexivity.
  - cbn [length] in Hf, Hfuel.
    destruct f as [| f]; [lia |]. destruct fuel as [| fuel]; [lia |].
    rewrite quoteBody_cons, <- app_assoc by exact Hc.
    rewrite unquoteBody_quoteBody_byte by exact Hc.
    rewrite IH by lia. reflexivity.
Qed.

Lemma quoteBody_length (s : bytes) (f : nat) :
  isASCII s -> (length s <= f)%nat -> (length s <= length (quoteBody f s))%nat.
Proof.
  intros Hs. revert f. induction Hs as [| c s Hc _ IH]; intros f Hf.
  - cbn [length]. lia.
  - cbn [length] in Hf. destruct f as [| f]; [lia |].
    rewrite quoteBody_cons, length_app by exact Hc.
    specialize (IH f ltac:(lia)).
    assert (1 <= length (quoteBody 1 [c]))%nat.
    { clear -Hc. destruct c as [[] [] [] [] [] [] [] []];
        try (exfalso; vm_compute in Hc; discriminate Hc); vm_compute; lia. }
    cbn [length]. lia.
Qed.

(** [json.Unmarshal] into a string of what [json.Marshal] wrote for an
    ASCII string. *)
Lemma jsonUnmarshalString_Marshal (s : bytes) :
  isASCII s -> jsonUnmarshalString (jsonMarshalString s) = Ok s.
Proof.
  intros Hs. unfold jsonUnmarshalString, jsonMarshalString.
  rewrite (trimJSONSpace_ends (ascii_of_code 34) (ascii_of_code 34));
    [| reflexivity | reflexivity | eexists; reflexivity
     | exists ([ascii_of_code 34] ++ quoteBody (length s) s);
       rewrite <- app_assoc; reflexivity].
  unfold bytes_eqb. rewrite bool_decide_eq_false_2 by discriminate.
  cbn [app]. change (code (ascii_of_code 34) =? 34) with true. cbv iota.
  rewrite unquoteBody_quoteBody; [reflexivity | exact Hs | lia |].
  pose proof (quoteBody_length s (length s) Hs ltac:(lia)).
  cbn [length]. rewrite length_app. cbn [length]. lia.
Qed.

End StringCodecFacts.

(** X8. An id that holds only an ASCII string is written as a JSON string and
    read back with the same string; the integer field of the result is set
    exactly when the string is a decimal 64-bit integer. *)
Theorem MarshalJSON_UnmarshalJSON_string (s : bytes) :
  isASCII s ->
  UnmarshalJSON zeroID (MarshalJSON (mkID None (Some s)))
  = Ok (mkID (match ParseInt s with Ok n => Some n | Err _ => None end) (Some s)).
Proof.
  intros Hs. unfold MarshalJSON. cbn [intValue strValue].
  unfold UnmarshalJSON.
  rewrite jsonUnmarshalInt64_string by (eexists; reflexivity).
  rewrite jsonUnmarshalString_Marshal by exact Hs.
  unfold bytes_eqb. rewrite bool_decide_eq_false_2 by discriminate.
  destruct (ParseInt s); reflexivity.
Qed.

Lemma MarshalJSON_UnmarshalJSON_string_witness :
  UnmarshalJSON zeroID (MarshalJSON (mkID None (Some (lit "req-<1>"))))
  = Ok (mkID (match ParseInt (lit "req-<1>") with Ok n => Some n | Err _ => None end)
          (Some (lit "req-<1>"))).
Proof.
  apply (MarshalJSON_UnmarshalJSON_string (lit "req-<1>")).
  repeat constructor.
Defined.

Section ScanFacts.

Lemma skipSpace_plain (c : ascii) (s : bytes) :
  plain c -> skipSpace (c :: s) = Some (c :: s).
Proof.
  intros Hc. cbn [skipSpace].
  assert (Hnl : (code c =? 10) = false).
  { destruct Hc as [_ Hs]. unfold isAsciiSpace in Hs.
    destruct (Z.eqb_spec (code c) 10) as [He | _]; [| reflexivity].
    rewrite He in Hs. discriminate Hs. }
  rewrite Hnl, (proj2 Hc).
  destruct s as [| c2 s]; [reflexivity |].
  rewrite plain_space2_l by assumption.
  destruct s as [| c3 s]; [reflexivity |].
  rewrite plain_space3_l by assumption. reflexivity.
Qed.

Lemma isDigit_codes (c : ascii) : isDigit c = true -> 48 <= code c <= 57.
Proof.
  unfold isDigit. intros H. apply andb_true_iff in H. destruct H as [H1 H2].
  apply Z.leb_le in H1. apply Z.leb_le in H2. lia.
Qed.

Lemma spanNumber_digits (ds suf : bytes) :
  Forall (fun c => isDigit c = true) ds -> endsNumber suf ->
  spanNumber (ds ++ suf) = (ds, suf).
Proof.
  intros Hds Hsuf. induction Hds as [| c ds Hc _ IH].
  - destruct suf as [| ch suf]; [reflexivity |].
    cbn [endsNumber] in Hsuf. cbn [app spanNumber]. rewrite Hsuf. reflexivity.
  - cbn [app spanNumber]. rewrite Hc, IH. reflexivity.
Qed.

Lemma digitsValue_nonneg (s : bytes) (acc v : Z) :
  0 <= acc -> digitsValue acc s = Some v -> 0 <= v.
Proof.
  revert acc. induction s as [| c s IH]; intros acc Hacc; cbn [digitsValue].
  - intros [= <-]. exact Hacc.
  - destruct (isDigit c) eqn:Hc; [| discriminate].
    apply isDigit_codes in Hc. apply IH. lia.
Qed.

Lemma ParseInt_range (s : bytes) (n : Z) :
  ParseInt s = Ok n -> minInt64 <= n <= maxInt64.
Proof.
  unfold ParseInt.
  destruct (match s with
            | [] => (false, [])
            | c :: s' => if code c =? 45 then (true, s')
                         else if code c =? 43 then (false, s') else (false, s)
            end) as [neg ds].
  destruct ds as [| d ds]; [discriminate |].
  destruct (digitsValue 0 (d :: ds)) as [un |]; [| discriminate].
  unfold in_int64.
  destruct (Z.leb_spec minInt64 (if neg then - un else un));
    destruct (Z.leb_spec (if neg then - un else un) maxInt64);
    cbn [andb]; try discriminate.
  intros [= <-]. lia.
Qed.

Lemma ParseInt_digit_nonneg (c : ascii) (s : bytes) (n : Z) :
  isDigit c = true -> ParseInt (c :: s) = Ok n -> 0 <= n <= maxInt64.
Proof.
  intros Hc Hp. pose proof (ParseInt_range _ _ Hp) as [_ Hmax].
  split; [| exact Hmax].
  pose proof (isDigit_codes c Hc) as Hcode.
  unfold ParseInt in Hp.
  destruct (Z.eqb_spec (code c) 45) as [? | _]; [lia |].
  destruct (Z.eqb_spec (code c) 43) as [? | _]; [lia |].
  destruct (digitsValue 0 (c :: s)) as [un |] eqn:Hv; [| discriminate Hp].
  apply digitsValue_nonneg in Hv; [| lia].
  destruct (in_int64 un); [| discriminate Hp]. injection Hp as <-. exact Hv.
Qed.

(** A number scanned from a digit is not negative. *)
Lemma scanInt_digit (ch : ascii) (s rest : bytes) (c : Z) :
  isDigit ch = true -> scanInt (ch :: s) = Some (c, rest) -> 0 <= c <= maxInt64.
Proof.
  intros Hch. unfold scanInt.
  rewrite skipSpace_plain by (apply isDigit_plain; exact Hch).
  pose proof (isDigit_codes ch Hch) as Hcode.
  destruct (Z.eqb_spec (code ch) 43) as [? | _]; [lia |].
  destruct (Z.eqb_spec (code ch) 45) as [? | _]; [lia |].
  cbn [orb spanNumber]. rewrite Hch. cbn [orb].
  destruct (spanNumber s) as [tok s3].
  cbn [app]. destruct (ParseInt (ch :: tok)) as [i |] eqn:Hp; [| discriminate].
  intros [= <- <-]. exact (ParseInt_digit_nonneg ch tok i Hch Hp).
Qed.

Lemma scanInt_range (s rest : bytes) (t : Z) :
  scanInt s = Some (t, rest) -> minInt64 <= t <= maxInt64.
Proof.
  unfold scanInt. destruct (skipSpace s) as [s1 |]; [| discriminate].
  destruct (match s1 with
            | [] => ([], [])
            | c :: s' => if (code c =? 43) || (code c =? 45) then ([c], s') else ([], s1)
            end) as [sign s2].
  destruct (spanNumber s2) as [tok s3].
  destruct tok as [| d tok]; [discriminate |].
  destruct (ParseInt (sign ++ d :: tok)) as [i |] eqn:Hp; [| discriminate].
  intros [= <- <-]. exact (ParseInt_range _ _ Hp).
Qed.

(** Scanning a printed number that is followed by a byte that ends it. *)
Lemma scanInt_FormatInt (n : Z) (suf : bytes) :
  0 <= n <= maxInt64 -> endsNumber suf ->
  scanInt (FormatInt n ++ suf) = Some (n, suf).
Proof.
  intros Hn Hsuf.
  destruct (FormatInt_nonneg_spec n ltac:(lia)) as (ds & Hf & Hne & Hall & _).
  pose proof (Atoi_FormatInt n Hn) as Hp. unfold Atoi in Hp.
  rewrite Hf in *. destruct ds as [| d ds]; [congruence |].
  assert (Hd : isDigit d = true) by (inversion Hall; assumption).
  pose proof (isDigit_codes d Hd) as Hcode.
  unfold scanInt. cbn [app].
  rewrite skipSpace_plain by (apply isDigit_plain; exact Hd).
  destruct (Z.eqb_spec (code d) 43) as [? | _]; [lia |].
  destruct (Z.eqb_spec (code d) 45) as [? | _]; [lia |].
  cbn [orb]. change (d :: ds ++ suf) with ((d :: ds) ++ suf).
  rewrite spanNumber_digits by assumption.
  cbn [app]. rewrite Hp. reflexivity.
Qed.

End ScanFacts.

Lemma parseProgressMessage_bounds (msg : bytes) :
  parseProgressMessage msg = (0, 0)
  \/ (0 <= fst (parseProgressMessage msg) <= maxInt64
      /\ 0 < snd (parseProgressMessage msg) <= maxInt64).
Proof.
  induction msg as [| ch msg IH]; [left; reflexivity |].
  cbn [parseProgressMessage].
  destruct (isDigit ch) eqn:Hch; [| exact IH].
  destruct (sscanf_d_slash_d (ch :: msg)) as [[c t] |] eqn:Hs; [| exact IH].
  destruct (Z.ltb_spec 0 t) as [Ht | _]; [| exact IH].
  right. cbn [fst snd]. unfold sscanf_d_slash_d in Hs.
  destruct (scanInt (ch :: msg)) as [[c' s1] |] eqn:Hc; [| discriminate Hs].
  destruct s1 as [| sl s2]; [discriminate Hs |].
  destruct (code sl =? 47); [| discriminate Hs].
  destruct (scanInt s2) as [[t' s3] |] eqn:Ht'; [| discriminate Hs].
  injection Hs as -> ->.
  pose proof (scanInt_digit _ _ _ _ Hch Hc).
  pose proof (scanInt_range _ _ _ Ht'). lia.
Qed.

(** X9. [parseProgressMessage] returns either [(0, 0)] or a total that is
    positive together with a current count that is not negative, both
    64-bit values. *)
Theorem parseProgressMessage_range (msg : bytes) :
  parseProgressMessage msg = (0, 0)
  \/ (0 <= fst (parseProgressMessage msg) <= maxInt64
      /\ 0 < snd (parseProgressMessage msg) <= maxInt64).
Proof.
  destruct (parseProgressMessage_bounds msg) as [H | [H1 H2]];
    [left; exact H | right; split; [exact H1 | exact H2]].
Qed.

(** A message with no digit carries no counts. *)
Lemma parseProgressMessage_no_digit (msg : bytes) :
  Forall (fun ch => isDigit ch = false) msg -> parseProgressMessage msg = (0, 0).
Proof.
  induction 1 as [| ch msg Hch _ IH]; [reflexivity |].
  cbn [parseProgressMessage]. rewrite Hch. exact IH.
Qed.

(** X10. The counts of a message of the form [N/M], after any text without
    digits and before any text that does not begin with a digit (an
    underscore, a letter, a space, the end of the message), are [N] and
    [M]. *)
Theorem parseProgressMessage_counts (pre suf : bytes) (c t : Z) :
  Forall (fun ch => isDigit ch = false) pre ->
  0 <= c <= maxInt64 ->
  0 < t <= maxInt64 ->
  endsNumber suf ->
  parseProgressMessage (pre ++ FormatInt c ++ "/"%char :: FormatInt t ++ suf) = (c, t).
Proof.
  intros Hpre Hc Ht Hsuf. induction Hpre as [| ch pre Hch _ IH].
  - cbn [app].
    assert (Hscan : sscanf_d_slash_d (FormatInt c ++ "/"%char :: FormatInt t ++ suf)
                    = Some (c, t)).
    { unfold sscanf_d_slash_d.
      rewrite scanInt_FormatInt by (assumption || reflexivity).
      change (code "/"%char =? 47) with true. cbv iota.
      rewrite scanInt_FormatInt by (assumption || lia). reflexivity. }
    destruct (FormatInt_nonneg_spec c ltac:(lia)) as (ds & Hf & Hne & Hall & _).
    rewrite Hf in *. destruct ds as [| d ds]; [congruence |].
    cbn [app parseProgressMessage] in *.
    replace (isDigit d) with true by (inversion Hall; congruence).
    rewrite Hscan. destruct (Z.ltb_spec 0 t); [reflexivity | lia].
  - cbn [app parseProgressMessage]. rewrite Hch. exact IH.
Qed.

Lemma parseProgressMessage_counts_witness :
  parseProgressMessage (lit "Indexing: " ++ FormatInt 120 ++ "/"%char :: FormatInt 4500
                          ++ lit " files")
  = (120, 4500).
Proof.
  apply (parseProgressMessage_counts (lit "Indexing: ") (lit " files") 120 4500).
  - repeat constructor.
  - vm_compute. split; discriminate.
  - vm_compute. split; [reflexivity | discriminate].
  - reflexivity.
Defined.

(** The number ends where the digits end: an underscore is not part of it. *)
Example parseProgressMessage_underscore :
  parseProgressMessage (lit "5/3_") = (5, 3)
  /\ parseProgressMessage (lit "12/34x56/78") = (12, 34)
  /\ parseProgressMessage (lit "7/0 8/9") = (8, 9).
Proof. repeat split; vm_compute; reflexivity. Qed.

Section ProgressFacts.

Lemma trackProgress_snoc (ix : IndexingState) (events : list (ProgressValue * Time))
    (v : ProgressValue) (now : Time) :
  trackProgress ix (events ++ [(v, now)])
  = handleProgress (trackProgress ix events) v now.
Proof. unfold trackProgress. rewrite fold_left_app. reflexivity. Qed.

Lemma indexingActive_handleProgress (ix : IndexingState) (v : ProgressValue)
    (now : Time) :
  indexingActive (handleProgress ix v now)
  = default (indexingActive ix) (phaseOf v).
Proof.
  unfold handleProgress, phaseOf.
  destruct (String.eqb_spec (pv_kind v) "begin") as [Hb | Hb].
  - destruct (Time_IsZero _ || _); reflexivity.
  - destruct (String.eqb_spec (pv_kind v) "report") as [Hr | Hr].
    + rewrite Hr. destruct (parseProgressMessage (pv_message v)) as [c t].
      reflexivity.
    + destruct (String.eqb (pv_kind v) "end"); reflexivity.
Qed.

Lemma counters_handleProgress (ix : IndexingState) (v : ProgressValue) (now : Time) :
  0 <= indexingCurrent ix <= maxInt64 ->
  0 <= indexingTotal ix <= maxInt64 ->
  0 <= indexingCurrent (handleProgress ix v now) <= maxInt64
  /\ 0 <= indexingTotal (handleProgress ix v now) <= maxInt64.
Proof.
  intros Hc Ht. assert (0 <= maxInt64) by (vm_compute; discriminate).
  unfold handleProgress.
  destruct (String.eqb (pv_kind v) "begin").
  - destruct (Time_IsZero _ || _); cbn; lia.
  - destruct (String.eqb (pv_kind v) "report").
    + pose proof (parseProgressMessage_bounds (pv_message v)) as Hr.
      destruct (parseProgressMessage (pv_message v)) as [c t].
      cbn [fst snd indexingCurrent indexingTotal] in *.
      destruct Hr as [[= -> ->] | Hr]; [cbn; lia |].
      destruct (Z.ltb_spec 0 t); lia.
    + destruct (String.eqb (pv_kind v) "end"); [| lia].
      cbn [indexingCurrent indexingTotal].
      destruct (Z.ltb_spec 0 (indexingTotal ix)); lia.
Qed.

End ProgressFacts.

Section NotificationFacts.

Context {J : JSON}.

Lemma handleNotifications_snoc (sm : SessionManager)
    (ns : list (string * bytes * Time)) (n : string * bytes * Time) :
  handleNotifications sm (ns ++ [n])
  = handleNotification (handleNotifications sm ns) (fst (fst n)) (snd (fst n)) (snd n).
Proof.
  unfold handleNotifications. rewrite fold_left_app. destruct n as [[m b] t].
  reflexivity.
Qed.

Lemma IsIndexing_handleNotification (sm : SessionManager) (method : string)
    (msg : bytes) (now : Time) :
  IsIndexing (handleNotification sm method msg now)
  = default (IsIndexing sm) (phaseOfNotification (method, msg, now)).
Proof.
  unfold handleNotification, phaseOfNotification, IsIndexing.
  destruct (String.eqb method "$/progress"); [| reflexivity].
  destruct (unmarshal_progress msg) as [v | e]; [| reflexivity].
  cbn [indexing set_indexing]. apply indexingActive_handleProgress.
Qed.

End NotificationFacts.

(** X11. After any sequence of notifications, the indexing flag is the one set
    by the last [$/progress] notification among them that decodes and whose
    kind is [begin] or [end]. Reports, other kinds, other methods, and
    [$/progress] messages that do not decode (a [begin] or [end] whose token
    is a number, for one) leave the flag as it is. *)
Theorem IsIndexing_after_notifications `{J : JSON} (sm : SessionManager)
    (ns : list (string * bytes * Time)) :
  IsIndexing (handleNotifications sm ns)
  = default (IsIndexing sm) (last (omap phaseOfNotification ns)).
Proof.
  induction ns as [| n ns IH] using rev_ind; [reflexivity |].
  rewrite handleNotifications_snoc, IsIndexing_handleNotification, IH.
  rewrite omap_app. destruct n as [[method msg] now]. cbn [fst snd].
  change (omap phaseOfNotification [(method, msg, now)])
    with (match phaseOfNotification (method, msg, now) with
          | Some b => [b]
          | None => []
          end).
  destruct (phaseOfNotification (method, msg, now)) as [b |]; cbn [default].
  - rewrite last_snoc. reflexivity.
  - rewrite app_nil_r. reflexivity.
Qed.

(** Indexing begins, and the [end] that follows has a number for its token:
    the session goes on as indexing. With a token that is a string the
    [end] clears the flag. *)
Example indexingActive_undecoded_end :
  IsIndexing (@handleNotifications exampleJSON session0
                [ ("$/progress"%string, progressBody "begin" "", 1 * Second);
                  ("$/progress"%string, progressEndNumericToken, 2 * Second);
                  ("window/logMessage"%string, progressBody "end" "", 3 * Second) ])
  = true
  /\ IsIndexing (@handleNotifications exampleJSON session0
                   [ ("$/progress"%string, progressBody "begin" "", 1 * Second);
                     ("$/progress"%string, progressBody "end" "", 2 * Second) ])
     = false.
Proof. split; vm_compute; reflexivity. Qed.

(** X12. From the state of a new session, whatever progress notifications
    arrive, the counts of files stay within [0] and the largest 64-bit
    integer. *)
Theorem trackProgress_counters (events : list (ProgressValue * Time)) :
  0 <= indexingCurrent (trackProgress IndexingState_zero events) <= maxInt64
  /\ 0 <= indexingTotal (trackProgress IndexingState_zero events) <= maxInt64.
Proof.
  induction events as [| [v now] events IH] using rev_ind.
  - vm_compute. repeat split; discriminate.
  - rewrite trackProgress_snoc. apply counters_handleProgress; apply IH.
Qed.

(** X13. A report whose message holds no digit changes neither the counts nor
    the speed: it updates the message, the percentage and the time of the
    last update only. *)
Theorem report_without_counts (ix : IndexingState) (v : ProgressValue) (now : Time) :
  pv_kind v = "report"%string ->
  Forall (fun ch => isDigit ch = false) (pv_message v) ->
  handleProgress ix v now
  = mkIndexing (indexingActive ix) (indexingTitle ix) (pv_message v)
      (indexingCurrent ix) (indexingTotal ix) (pv_percentage v)
      (indexingStartedAt ix) (indexingFirstStartedAt ix) now (indexingSpeed ix).
Proof.
  intros Hk Hmsg. unfold handleProgress. rewrite Hk.
  rewrite parseProgressMessage_no_digit by exact Hmsg. reflexivity.
Qed.

Lemma report_without_counts_witness :
  handleProgress indexingBegunLate (mkProgress "report" [] (lit "parsing modules") 40)
    (13 * Second)
  = mkIndexing (indexingActive indexingBegunLate) (indexingTitle indexingBegunLate)
      (lit "parsing modules")
      (indexingCurrent indexingBegunLate) (indexingTotal indexingBegunLate) 40
      (indexingStartedAt indexingBegunLate) (indexingFirstStartedAt indexingBegunLate)
      (13 * Second) (indexingSpeed indexingBegunLate).
Proof.
  apply (report_without_counts indexingBegunLate
           (mkProgress "report" [] (lit "parsing modules") 40) (13 * Second)).
  - reflexivity.
  - repeat constructor.
Defined.

(** X14. After an [end] notification the status is never [indexing]: it is
    [complete] when a total was known and [idle] otherwise, the current
    count is the total, there is no estimate of the time left, the watcher
    is no longer held back, and the status does not depend on the time at
    which it is asked for. *)
Theorem status_after_end `{J : JSON} (sm : SessionManager) (msg : bytes)
    (v : ProgressValue) (now : Time) :
  unmarshal_progress msg = Ok v ->
  pv_kind v = "end"%string ->
  let sm' := handleNotification sm "$/progress" msg now in
  IsIndexing sm' = false
  /\ (forall t,
        st_state (st_indexing (getStatus sm' t))
        = (if 0 <? indexingTotal (indexing sm)
           then "complete"%string else "idle"%string)
        /\ st_eta_seconds (st_indexing (getStatus sm' t)) = None
        /\ (0 < indexingTotal (indexing sm) ->
            st_current (st_indexing (getStatus sm' t)) = indexingTotal (indexing sm)))
  /\ (forall t1 t2, getStatus sm' t1 = getStatus sm' t2).
Proof.
  intros Hv Hk sm'. subst sm'. unfold handleNotification. cbn [String.eqb Ascii.eqb].
  rewrite Hv. unfold handleProgress, IsIndexing. rewrite Hk.
  cbn [String.eqb Ascii.eqb Bool.eqb].
  set (ix := indexing sm).
  unfold getStatus, status_isActive, status_isComplete.
  cbn [indexing set_indexing indexingActive indexingTotal indexingCurrent
       indexingSpeed indexingFirstStartedAt indexingStartedAt indexingLastUpdate
       indexingMessage st_indexing st_state st_eta_seconds st_current orb].
  split; [reflexivity |].
  destruct (Z.ltb_spec 0 (indexingTotal ix)) as [Hpos | Hle].
  - destruct (Z.ltb_spec (indexingTotal ix) (indexingTotal ix)); [lia |].
    destruct (Z.leb_spec (indexingTotal ix) (indexingTotal ix)); [| lia].
    cbn [andb]. split; [intros t; repeat split |].
    intros t1 t2. reflexivity.
  - cbn [andb]. split; [intros t; repeat split; lia |].
    intros t1 t2. reflexivity.
Qed.

Lemma status_after_end_witness :
  let sm' := @handleNotification exampleJSON
               (set_indexing session0 indexingAllReported) "$/progress"
               (progressBody "end" "") (4 * Second) in
  IsIndexing sm' = false
  /\ (forall t,
        st_state (st_indexing (getStatus sm' t))
        = (if 0 <? indexingTotal (indexing (set_indexing session0 indexingAllReported))
           then "complete"%string else "idle"%string)
        /\ st_eta_seconds (st_indexing (getStatus sm' t)) = None
        /\ (0 < indexingTotal (indexing (set_indexing session0 indexingAllReported)) ->
            st_current (st_indexing (getStatus sm' t))
            = indexingTotal (indexing (set_indexing session0 indexingAllReported))))
  /\ (forall t1 t2, getStatus sm' t1 = getStatus sm' t2).
Proof.
  apply (@status_after_end exampleJSON (set_indexing session0 indexingAllReported)
           (progressBody "end" "") (mkProgress "end" [] [] 0) (4 * Second)).
  - reflexivity.
  - reflexivity.
Defined.

Section RegistryFacts.

Context {J : JSON}.

Lemma openDocs_sendNotification (sm : SessionManager) (method : string)
    (params : Params) :
  openDocs (fst (sendNotification sm method params)) = openDocs sm.
Proof.
  unfold sendNotification.
  destruct (writeMessage_fields sm (mkMsg None method params)) as [p ->].
  reflexivity.
Qed.

Lemma openDocs_handleDidOpen (sm : SessionManager) (params : bytes) :
  openDocs (fst (handleDidOpen sm params))
  = match unmarshal_didOpen params with
    | Ok p => <[do_uri p := true]> (openDocs sm)
    | Err _ => openDocs sm
    end.
Proof.
  unfold handleDidOpen.
  destruct (unmarshal_didOpen params) as [p | e]; [| reflexivity].
  destruct (default false (openDocs sm !! do_uri p)).
  - match goal with
    | |- context [sendNotification ?s ?m ?q] =>
        pose proof (openDocs_sendNotification s m q) as H1;
        destruct (sendNotification s m q) as [sm1 [[] | e]]
    end; cbn [fst] in *.
    + rewrite openDocs_sendNotification. exact H1.
    + exact H1.
  - apply openDocs_sendNotification.
Qed.

Lemma openDocs_handleDidClose (sm : SessionManager) (params : bytes) :
  openDocs (fst (handleDidClose sm params))
  = match unmarshal_didClose params with
    | Ok p => delete (dc_uri p) (openDocs sm)
    | Err _ => openDocs sm
    end.
Proof.
  unfold handleDidClose.
  destruct (unmarshal_didClose params) as [p | e]; [| reflexivity].
  apply openDocs_sendNotification.
Qed.

Lemma openDocs_docCall (sm : SessionManager) (c : DocCall) :
  openDocs (docCall sm c)
  = match docCallTarget c with
    | Some (u, true) => <[u := true]> (openDocs sm)
    | Some (u, false) => delete u (openDocs sm)
    | None => openDocs sm
    end.
Proof.
  destruct c as [params | params]; cbn [docCall docCallTarget].
  - rewrite openDocs_handleDidOpen. destruct (unmarshal_didOpen params); reflexivity.
  - rewrite openDocs_handleDidClose. destruct (unmarshal_didClose params); reflexivity.
Qed.

End RegistryFacts.

(** X15. Whether a document is in the registry after any sequence of [didOpen]
    and [didClose] calls depends on the last call that named it only: it
    is open after a [didOpen] and not after a [didClose], whether or not the
    notifications could be written to the server. *)
Theorem openDocs_last_call `{J : JSON} (sm : SessionManager) (cs : list DocCall)
    (U : string) :
  openDocs (docCalls sm cs) !! U
  = match last (filter (fun t => fst t = U) (omap docCallTarget cs)) with
    | Some (_, true) => Some true
    | Some (_, false) => None
    | None => openDocs sm !! U
    end.
Proof.
  induction cs as [| c cs IH] using rev_ind; [reflexivity |].
  unfold docCalls. rewrite fold_left_app. cbn [fold_left]. fold (docCalls sm cs).
  rewrite openDocs_docCall, omap_app, filter_app.
  change (omap docCallTarget [c])
    with (match docCallTarget c with Some t => [t] | None => [] end).
  destruct (docCallTarget c) as [[u b] |].
  - destruct (decide (u = U)) as [-> | Hne].
    + rewrite filter_cons_True by reflexivity. rewrite filter_nil, last_snoc.
      destruct b; [apply lookup_insert_eq | apply lookup_delete_eq].
    + rewrite filter_cons_False by exact Hne. rewrite filter_nil, app_nil_r.
      destruct b; [rewrite lookup_insert_ne by exact Hne
                  | rewrite lookup_delete_ne by exact Hne]; exact IH.
  - rewrite filter_nil, app_nil_r. exact IH.
Qed.

Lemma handleDidClose_ok `{J : JSON} (sm : SessionManager) (params : bytes)
    (p : DidCloseParams) :
  unmarshal_didClose params = Ok p ->
  canWrite (sm_stdin sm) 2 ->
  snd (handleDidClose sm params) = Ok tt
  /\ written (sm_stdin (fst (handleDidClose sm params)))
     = written (sm_stdin sm)
         ++ frame (json_Marshal (mkMsg None "textDocument/didClose" (PDidCloseStruct p)))
  /\ openDocs (fst (handleDidClose sm params)) = delete (dc_uri p) (openDocs sm).
Proof.
  intros Hp Hw. unfold handleDidClose. rewrite Hp.
  destruct (sendNotification_ok (set_openDocs sm (delete (dc_uri p) (openDocs sm)))
              "textDocument/didClose" (PDidCloseStruct p) 0 Hw)
    as (q & -> & Hq & _).
  cbn [fst snd sm_stdin set_stdin openDocs set_openDocs].
  split; [reflexivity |]. split; [exact Hq | reflexivity].
Qed.

(** X16. The handler of [didClose] forwards the notification whether or not the
    document was open: on a pipe that takes the two writes the server gets
    one [didClose] frame, and afterwards the document is not in the
    registry while every other document is as before. *)
Theorem handleDidClose_forwards `{J : JSON} (sm : SessionManager) (params : bytes)
    (p : DidCloseParams) (U : string) :
  unmarshal_didClose params = Ok p ->
  canWrite (sm_stdin sm) 2 ->
  snd (handleDidClose sm params) = Ok tt
  /\ written (sm_stdin (fst (handleDidClose sm params)))
     = written (sm_stdin sm)
         ++ frame (json_Marshal (mkMsg None "textDocument/didClose" (PDidCloseStruct p)))
  /\ openDocs (fst (handleDidClose sm params)) !! dc_uri p = None
  /\ (U <> dc_uri p ->
      openDocs (fst (handleDidClose sm params)) !! U = openDocs sm !! U).
Proof.
  intros Hp Hw. destruct (handleDidClose_ok sm params p Hp Hw) as (Hr & Hwr & Hdocs).
  split; [exact Hr |]. split; [exact Hwr |]. rewrite Hdocs.
  split; [apply lookup_delete_eq |].
  intros Hne. apply lookup_delete_ne. congruence.
Qed.

Lemma handleDidClose_forwards_witness :
  snd (@handleDidClose documentJSON session0 (didCloseBody "file:///X")) = Ok tt
  /\ written (sm_stdin (fst (@handleDidClose documentJSON session0
                               (didCloseBody "file:///X"))))
     = written (sm_stdin session0)
         ++ frame (exampleMarshal
                     (mkMsg None "textDocument/didClose"
                        (PDidCloseStruct (mkDidClose "file:///X"))))
  /\ openDocs (fst (@handleDidClose documentJSON session0 (didCloseBody "file:///X")))
       !! dc_uri (mkDidClose "file:///X") = None
  /\ ("file:///Y"%string <> dc_uri (mkDidClose "file:///X") ->
      openDocs (fst (@handleDidClose documentJSON session0 (didCloseBody "file:///X")))
        !! "file:///Y"%string
      = openDocs session0 !! "file:///Y"%string).
Proof.
  apply (@handleDidClose_forwards documentJSON session0 (didCloseBody "file:///X")
           (mkDidClose "file:///X") "file:///Y").
  - reflexivity.
  - exact I.
Defined.

(** X17. Opening a document that is not open and closing it again: the server
    gets a [didOpen] frame and a [didClose] frame, and the registry and the
    count of open documents in the status are as before. *)
Theorem didOpen_then_didClose `{J : JSON} (sm : SessionManager)
    (params1 params2 : bytes) (p1 : DidOpenParams) (p2 : DidCloseParams)
    (U : string) (t : Time) :
  unmarshal_didOpen params1 = Ok p1 ->
  unmarshal_didClose params2 = Ok p2 ->
  do_uri p1 = U -> dc_uri p2 = U ->
  openDocs sm !! U = None ->
  canWrite (sm_stdin sm) 4 ->
  let sm1 := fst (handleDidOpen sm params1) in
  let sm2 := fst (handleDidClose sm1 params2) in
  snd (handleDidOpen sm params1) = Ok tt
  /\ snd (handleDidClose sm1 params2) = Ok tt
  /\ written (sm_stdin sm2)
     = written (sm_stdin sm)
         ++ frame (json_Marshal (mkMsg None "textDocument/didOpen" (PDidOpenStruct p1)))
         ++ frame (json_Marshal (mkMsg None "textDocument/didClose" (PDidCloseStruct p2)))
  /\ openDocs sm2 = openDocs sm
  /\ st_openDocuments (getStatus sm2 t) = st_openDocuments (getStatus sm t).
Proof.
  intros Hp1 Hp2 HU1 HU2 Hclosed Hw. cbv zeta. subst U.
  destruct (handleDidOpen_closed sm params1 p1 2 Hp1) as (q1 & -> & Hq1 & Hc1);
    [rewrite Hclosed; reflexivity | exact Hw |].
  cbn [fst snd].
  destruct (handleDidClose_ok
              (set_stdin (set_openDocs sm (<[do_uri p1 := true]> (openDocs sm))) q1)
              params2 p2 Hp2 Hc1) as (Hr & Hwr & Hdocs).
  cbn [sm_stdin set_stdin openDocs set_openDocs] in Hwr, Hdocs.
  rewrite HU2, delete_insert_id in Hdocs by exact Hclosed.
  split; [reflexivity |]. split; [exact Hr |].
  split; [rewrite Hwr, Hq1, <- app_assoc; reflexivity |].
  split; [exact Hdocs |].
  unfold getStatus. cbn [st_openDocuments]. rewrite Hdocs. reflexivity.
Qed.

Lemma didOpen_then_didClose_witness :
  let sm1 := fst (@handleDidOpen documentJSON session0 (didOpenBody "file:///X" "old")) in
  let sm2 := fst (@handleDidClose documentJSON sm1 (didCloseBody "file:///X")) in
  snd (@handleDidOpen documentJSON session0 (didOpenBody "file:///X" "old")) = Ok tt
  /\ snd (@handleDidClose documentJSON sm1 (didCloseBody "file:///X")) = Ok tt
  /\ written (sm_stdin sm2)
     = written (sm_stdin session0)
         ++ frame (exampleMarshal
                     (mkMsg None "textDocument/didOpen"
                        (PDidOpenStruct (mkDidOpen "file:///X" (lit "bsl") 1 (lit "old")))))
         ++ frame (exampleMarshal
                     (mkMsg None "textDocument/didClose"
                        (PDidCloseStruct (mkDidClose "file:///X"))))
  /\ openDocs sm2 = openDocs session0
  /\ st_openDocuments (getStatus sm2 0) = st_openDocuments (getStatus session0 0).
Proof.
  apply (@didOpen_then_didClose documentJSON session0
           (didOpenBody "file:///X" "old") (didCloseBody "file:///X")
           (mkDidOpen "file:///X" (lit "bsl") 1 (lit "old")) (mkDidClose "file:///X")
           "file:///X" 0).
  - reflexivity.
  - reflexivity.
  - reflexivity.
  - reflexivity.
  - reflexivity.
  - exact I.
Defined.

(** X18. The handler of [didOpen] records the document before it writes: when
    the pipe to the server is broken the call fails and nothing is
    written, but the document is in the registry and counts as open. *)
Theorem handleDidOpen_failed_write `{J : JSON} (sm : SessionManager)
    (params : bytes) (p : DidOpenParams) (t : Time) :
  unmarshal_didOpen params = Ok p ->
  openDocs sm !! do_uri p = None ->
  writesLeft (sm_stdin sm) = Some O ->
  let sm' := fst (handleDidOpen sm params) in
  snd (handleDidOpen sm params) = Err io_ErrClosedPipe
  /\ written (sm_stdin sm') = written (sm_stdin sm)
  /\ openDocs sm' !! do_uri p = Some true
  /\ st_openDocuments (getStatus sm' t) = st_openDocuments (getStatus sm t) + 1.
Proof.
  intros Hp Hclosed Hpipe. cbv zeta.
  unfold handleDidOpen. rewrite Hp, Hclosed. cbn [default].
  unfold sendNotification, writeMessage, Pipe_Write.
  cbn [sm_stdin set_openDocs]. rewrite Hpipe.
  cbn [fst snd sm_stdin set_stdin openDocs set_openDocs].
  split; [reflexivity |]. split; [reflexivity |].
  split; [apply lookup_insert_eq |].
  unfold getStatus. cbn [st_openDocuments openDocs set_stdin set_openDocs].
  rewrite map_size_insert_None by exact Hclosed. lia.
Qed.

Lemma handleDidOpen_failed_write_witness :
  let sm' := fst (@handleDidOpen exampleJSON sessionBroken (didOpenBody "file:///X" "old")) in
  snd (@handleDidOpen exampleJSON sessionBroken (didOpenBody "file:///X" "old"))
  = Err io_ErrClosedPipe
  /\ written (sm_stdin sm') = written (sm_stdin sessionBroken)
  /\ openDocs sm' !! do_uri (mkDidOpen "file:///X" (lit "bsl") 1 (lit "old")) = Some true
  /\ st_openDocuments (getStatus sm' 0) = st_openDocuments (getStatus sessionBroken 0) + 1.
Proof.
  apply (@handleDidOpen_failed_write exampleJSON sessionBroken
           (didOpenBody "file:///X" "old")
           (mkDidOpen "file:///X" (lit "bsl") 1 (lit "old")) 0).
  - reflexivity.
  - reflexivity.
  - reflexivity.
Defined.

Section DiffFacts.

Lemma NoDup_omap_inj {A B : Type} (f : A -> option B) (l : list A) :
  NoDup l ->
  (forall x y b, x ∈ l -> y ∈ l -> f x = Some b -> f y = Some b -> x = y) ->
  NoDup (omap f l).
Proof.
  induction 1 as [| a l Ha Hl IH]; intros Hinj; [constructor |].
  change (omap f (a :: l))
    with (match f a with Some y => y :: omap f l | None => omap f l end).
  assert (Hrec : NoDup (omap f l)).
  { apply IH. intros x y b Hx Hy. apply Hinj; right; assumption. }
  destruct (f a) as [b |] eqn:Hfa; [| exact Hrec].
  constructor; [| exact Hrec].
  intros Hin. apply list_elem_of_omap in Hin. destruct Hin as (x & Hx & Hfx).
  assert (a = x) by (apply (Hinj a x b); [left | right; exact Hx | exact Hfa | exact Hfx]).
  subst x. contradiction.
Qed.

Lemma pathToURI_absolute (path : string) :
  String.prefix "/" path = true -> pathToURI path = ("file://" +:+ path)%string.
Proof. intros H. unfold pathToURI, ToSlash. rewrite H. reflexivity. Qed.

Lemma pathToURI_inj (p q : string) :
  String.prefix "/" p = true -> String.prefix "/" q = true ->
  pathToURI p = pathToURI q -> p = q.
Proof.
  intros Hp Hq. rewrite !pathToURI_absolute by assumption.
  cbn [String.append]. intros [= H]. exact H.
Qed.

(** The entries of the two loops of [checkForChanges], by path. *)
Lemma elem_of_changes (oldFiles newFiles : snapshot) (c : FileChange) :
  c ∈ changesNew oldFiles newFiles ++ changesDeleted oldFiles newFiles
  <-> exists path, URI c = pathToURI path
                   /\ changeOf oldFiles newFiles path = Some (ChangeType c).
Proof.
  rewrite elem_of_app. unfold changesNew, changesDeleted, changeOf.
  rewrite !list_elem_of_omap. split.
  - intros [([path m2] & Hin & Hf) | ([path m1] & Hin & Hf)];
      apply elem_of_map_to_list in Hin; exists path.
    + rewrite Hin. destruct (oldFiles !! path) as [m1 |].
      * case_bool_decide; [discriminate Hf |]. injection Hf as <-.
        split; reflexivity.
      * injection Hf as <-. split; reflexivity.
    + rewrite Hin. destruct (newFiles !! path) as [m2 |]; [discriminate Hf |].
      injection Hf as <-. split; reflexivity.
  - intros (path & Huri & Hch). destruct c as [uri ty]. cbn [URI ChangeType] in *.
    subst uri.
    destruct (oldFiles !! path) as [m1 |] eqn:Hold;
      destruct (newFiles !! path) as [m2 |] eqn:Hnew; try discriminate Hch.
    + left. exists (path, m2). split; [apply elem_of_map_to_list; exact Hnew |].
      rewrite Hold. case_bool_decide; [discriminate Hch |]. congruence.
    + right. exists (path, m1). split; [apply elem_of_map_to_list; exact Hold |].
      rewrite Hnew. congruence.
    + left. exists (path, m2). split; [apply elem_of_map_to_list; exact Hnew |].
      rewrite Hold. congruence.
Qed.

Lemma changes_nil_iff (oldFiles newFiles : snapshot) :
  changesNew oldFiles newFiles ++ changesDeleted oldFiles newFiles = []
  <-> newFiles = oldFiles.
Proof.
  split.
  - intros Hnil. apply map_eq. intros path.
    assert (Hno : forall c, c ∉ changesNew oldFiles newFiles
                                  ++ changesDeleted oldFiles newFiles).
    { intros c. rewrite Hnil. apply not_elem_of_nil. }
    destruct (changeOf oldFiles newFiles path) as [ty |] eqn:Hch.
    + exfalso. apply (Hno (mkFileChange (pathToURI path) ty)).
      apply elem_of_changes. exists path. split; [reflexivity | exact Hch].
    + unfold changeOf in Hch.
      destruct (oldFiles !! path) as [m1 |], (newFiles !! path) as [m2 |];
        try discriminate Hch; [| reflexivity].
      case_bool_decide; [congruence | discriminate Hch].
  - intros ->. destruct (changesNew oldFiles oldFiles ++ changesDeleted oldFiles oldFiles)
      as [| c cs] eqn:Hc; [reflexivity |].
    assert (Hin : c ∈ changesNew oldFiles oldFiles ++ changesDeleted oldFiles oldFiles)
      by (rewrite Hc; left).
    apply elem_of_changes in Hin. destruct Hin as (path & _ & Hch).
    unfold changeOf in Hch. destruct (oldFiles !! path) as [m |]; [| discriminate Hch].
    rewrite bool_decide_eq_true_2 in Hch by reflexivity. discriminate Hch.
Qed.

End DiffFacts.

(** X19. The notification of a scan describes the difference between the
    snapshot and the scan, and nothing else: a file is reported as created
    when only the scan has it, as changed when both have it with different
    modification times, as deleted when only the snapshot has it. *)
Theorem checkForChanges_reports_the_diff (pw : PollingWatcher) (newFiles : snapshot)
    (changes : list FileChange) (c : FileChange) :
  snd (checkForChanges pw newFiles false) = Some changes ->
  (c ∈ changes
   <-> exists path,
         URI c = pathToURI path
         /\ ((ChangeType c = Created
              /\ fileMap pw !! path = None /\ is_Some (newFiles !! path))
             \/ (ChangeType c = Changed
                 /\ exists m1 m2, fileMap pw !! path = Some m1
                                  /\ newFiles !! path = Some m2 /\ m1 <> m2)
             \/ (ChangeType c = Deleted
                 /\ is_Some (fileMap pw !! path) /\ newFiles !! path = None))).
Proof.
  intros Hsent.
  assert (Hch : changes = changesNew (fileMap pw) newFiles
                            ++ changesDeleted (fileMap pw) newFiles).
  { revert Hsent. unfold checkForChanges.
    cbn [pw_hasIsIndexingFunc pw_hasNotifyFunc set_fileMap]. rewrite andb_false_r.
    destruct (0 <? _)%nat; [| discriminate].
    destruct (pw_hasNotifyFunc pw); [| discriminate]. intros [= <-]. reflexivity. }
  subst changes. rewrite elem_of_changes. unfold changeOf.
  split; intros (path & Huri & H); exists path; (split; [exact Huri |]).
  - destruct (fileMap pw !! path) as [m1 |], (newFiles !! path) as [m2 |];
      try discriminate H.
    + case_bool_decide; [discriminate H |]. injection H as <-.
      right. left. split; [reflexivity |]. exists m1, m2. split_and!; congruence.
    + injection H as <-. right. right. split_and!; [reflexivity | eauto | reflexivity].
    + injection H as <-. left. split_and!; [reflexivity | reflexivity | eauto].
  - destruct H as [(Hty & Hold & [m2 Hnew]) | [(Hty & m1 & m2 & Hold & Hnew & Hne)
                                              | (Hty & [m1 Hold] & Hnew)]];
      rewrite Hold, Hnew, Hty; [reflexivity | | reflexivity].
    rewrite bool_decide_eq_false_2 by congruence. reflexivity.
Qed.

Lemma checkForChanges_reports_the_diff_witness :
  mkFileChange "file:///projects/a.bsl" Changed
    ∈ [mkFileChange "file:///projects/a.bsl" Changed]
  <-> exists path,
        URI (mkFileChange "file:///projects/a.bsl" Changed) = pathToURI path
        /\ ((ChangeType (mkFileChange "file:///projects/a.bsl" Changed) = Created
             /\ fileMap watcher0 !! path = None /\ is_Some (scan_a 200 !! path))
            \/ (ChangeType (mkFileChange "file:///projects/a.bsl" Changed) = Changed
                /\ exists m1 m2, fileMap watcher0 !! path = Some m1
                                 /\ scan_a 200 !! path = Some m2 /\ m1 <> m2)
            \/ (ChangeType (mkFileChange "file:///projects/a.bsl" Changed) = Deleted
                /\ is_Some (fileMap watcher0 !! path) /\ scan_a 200 !! path = None)).
Proof.
  apply (checkForChanges_reports_the_diff watcher0 (scan_a 200)
           [mkFileChange "file:///projects/a.bsl" Changed]
           (mkFileChange "file:///projects/a.bsl" Changed)).
  vm_compute. reflexivity.
Defined.

(** X20. Outside indexing, a scan sends no notification exactly when it equals
    the snapshot; so a second scan that finds what the first one found
    sends nothing. *)
Theorem checkForChanges_silent_iff_unchanged (pw : PollingWatcher)
    (newFiles : snapshot) :
  pw_hasNotifyFunc pw = true ->
  (snd (checkForChanges pw newFiles false) = None <-> newFiles = fileMap pw)
  /\ forall indexing indexing',
       snd (checkForChanges (fst (checkForChanges pw newFiles indexing))
              newFiles indexing') = None.
Proof.
  intros Hn. split.
  - rewrite <- changes_nil_iff. unfold checkForChanges.
    cbn [pw_hasIsIndexingFunc pw_hasNotifyFunc set_fileMap].
    rewrite Hn, andb_false_r.
    destruct (changesNew (fileMap pw) newFiles
                ++ changesDeleted (fileMap pw) newFiles) as [| c cs]; cbn.
    + split; reflexivity.
    + split; discriminate.
  - intros indexing indexing'.
    pose proof (fileMap_checkForChanges pw newFiles indexing) as Hmap.
    destruct (checkForChanges pw newFiles indexing) as [pw1 sent]. cbn [fst] in *.
    unfold checkForChanges. rewrite Hmap.
    rewrite (proj2 (changes_nil_iff newFiles newFiles) eq_refl). reflexivity.
Qed.

Lemma checkForChanges_silent_iff_unchanged_witness :
  (snd (checkForChanges watcher0 (scan_a 100) false) = None
   <-> scan_a 100 = fileMap watcher0)
  /\ forall indexing indexing',
       snd (checkForChanges (fst (checkForChanges watcher0 (scan_a 100) indexing))
              (scan_a 100) indexing') = None.
Proof.
  apply (checkForChanges_silent_iff_unchanged watcher0 (scan_a 100)).
  reflexivity.
Defined.

(** X21. When the paths of the snapshot and of the scan are absolute, a
    notification names every file at most once. *)
Theorem checkForChanges_names_a_file_once (pw : PollingWatcher) (newFiles : snapshot)
    (indexing : bool) (changes : list FileChange) :
  absolutePaths (fileMap pw) -> absolutePaths newFiles ->
  snd (checkForChanges pw newFiles indexing) = Some changes ->
  NoDup (URI <$> changes).
Proof.
  intros Hold Hnew Hsent.
  assert (Hch : changes = changesNew (fileMap pw) newFiles
                            ++ changesDeleted (fileMap pw) newFiles).
  { revert Hsent. unfold checkForChanges.
    destruct (0 <? _)%nat; [| discriminate].
    destruct (_ && _); [discriminate |].
    destruct (pw_hasNotifyFunc _); [| discriminate]. intros [= <-]. reflexivity. }
  clear Hsent. subst changes. set (oldFiles := fileMap pw) in *.
  assert (Hinj : forall c1 c2 : FileChange,
            c1 ∈ changesNew oldFiles newFiles ++ changesDeleted oldFiles newFiles ->
            c2 ∈ changesNew oldFiles newFiles ++ changesDeleted oldFiles newFiles ->
            URI c1 = URI c2 -> c1 = c2).
  { intros c1 c2 H1 H2 Huri.
    apply elem_of_changes in H1. destruct H1 as (p1 & Hu1 & Hc1).
    apply elem_of_changes in H2. destruct H2 as (p2 & Hu2 & Hc2).
    assert (Habs : forall p ty, changeOf oldFiles newFiles p = Some ty ->
                                String.prefix "/" p = true).
    { intros p ty. unfold changeOf.
      destruct (oldFiles !! p) as [m1 |] eqn:Ho;
        [intros _; apply Hold; rewrite Ho; eauto |].
      destruct (newFiles !! p) as [m2 |] eqn:Hn; [| discriminate].
      intros _. apply Hnew. rewrite Hn. eauto. }
    assert (p1 = p2).
    { apply pathToURI_inj; [eapply Habs; eassumption | eapply Habs; eassumption |].
      congruence. }
    subst p2. destruct c1 as [u1 t1], c2 as [u2 t2].
    cbn [URI ChangeType] in *. congruence. }
  apply NoDup_fmap_2_strong.
  - intros c1 c2 H1 H2. apply Hinj; assumption.
  - apply NoDup_app. split_and!.
    + unfold changesNew. apply NoDup_omap_inj; [apply NoDup_map_to_list |].
      intros [p1 m1] [p2 m2] b H1 H2 Hf1 Hf2.
      apply elem_of_map_to_list in H1. apply elem_of_map_to_list in H2.
      assert (Hb1 : URI b = pathToURI p1).
      { destruct (oldFiles !! p1); [case_bool_decide; [discriminate |] |];
          injection Hf1 as <-; reflexivity. }
      assert (Hb2 : URI b = pathToURI p2).
      { destruct (oldFiles !! p2); [case_bool_decide; [discriminate |] |];
          injection Hf2 as <-; reflexivity. }
      assert (p1 = p2).
      { apply pathToURI_inj; [apply Hnew; eauto | apply Hnew; eauto | congruence]. }
      subst p2. congruence.
    + intros c H1 H2.
      unfold changesNew in H1. unfold changesDeleted in H2.
      apply list_elem_of_omap in H1. destruct H1 as ([p1 m1] & Hin1 & Hf1).
      apply list_elem_of_omap in H2. destruct H2 as ([p2 m2] & Hin2 & Hf2).
      apply elem_of_map_to_list in Hin1. apply elem_of_map_to_list in Hin2.
      destruct (newFiles !! p2) eqn:Hn2; [discriminate Hf2 |].
      injection Hf2 as <-. unfold Created, Changed, Deleted in Hf1.
      destruct (oldFiles !! p1); [case_bool_decide; [discriminate |] |];
        discriminate Hf1.
    + unfold changesDeleted. apply NoDup_omap_inj; [apply NoDup_map_to_list |].
      intros [p1 m1] [p2 m2] b H1 H2 Hf1 Hf2.
      apply elem_of_map_to_list in H1. apply elem_of_map_to_list in H2.
      destruct (newFiles !! p1); [discriminate Hf1 |].
      destruct (newFiles !! p2); [discriminate Hf2 |].
      injection Hf1 as <-. apply (f_equal (fmap URI)) in Hf2.
      cbn [fmap option_fmap option_map URI] in Hf2.
      assert (p2 = p1).
      { apply pathToURI_inj; [apply Hold; eauto | apply Hold; eauto | congruence]. }
      subst p2. congruence.
Qed.

Lemma absolutePaths_scan_a (mtime : Z) : absolutePaths (scan_a mtime).
Proof.
  intros path [m H]. unfold scan_a in H.
  apply lookup_singleton_Some in H. destruct H as [<- _]. reflexivity.
Qed.

Lemma checkForChanges_names_a_file_once_witness :
  NoDup (URI <$> [mkFileChange "file:///projects/a.bsl" Changed]).
Proof.
  apply (checkForChanges_names_a_file_once watcher0 (scan_a 200) false
           [mkFileChange "file:///projects/a.bsl" Changed]).
  - exact (absolutePaths_scan_a 100).
  - exact (absolutePaths_scan_a 200).
  - vm_compute. reflexivity.
Defined.

(** X22. [GetPollingWorkers] never returns less than one worker. The default of
    8 stands for a variable that is not set, and for a number below 1; a
    number from 1 on, as [strconv] prints it, is returned as it is. *)
Theorem GetPollingWorkers_spec (env : gmap string bytes) :
  1 <= GetPollingWorkers env <= maxInt64
  /\ (env !! "FILE_WATCHER_WORKERS"%string = None -> GetPollingWorkers env = 8)
  /\ (forall n, minInt64 <= n <= maxInt64 ->
        env !! "FILE_WATCHER_WORKERS"%string = Some (FormatInt n) ->
        GetPollingWorkers env = if n <? 1 then 8 else n).
Proof.
  assert (Hmax : 8 <= maxInt64) by (vm_compute; discriminate).
  unfold GetPollingWorkers, Getenv. split; [| split].
  - destruct (default [] (env !! "FILE_WATCHER_WORKERS"%string)) as [| c s] eqn:Hv;
      [lia |].
    destruct (Atoi (c :: s)) as [w | e] eqn:Ha; [| lia].
    apply ParseInt_range in Ha. destruct (Z.ltb_spec w 1); lia.
  - intros ->. reflexivity.
  - intros n Hn ->. cbn [default].
    pose proof (ParseInt_FormatInt n Hn) as Hp.
    destruct (FormatInt n) as [| c s]; [discriminate Hp |].
    unfold Atoi, id. rewrite Hp. reflexivity.
Qed.

Lemma GetPollingWorkers_spec_witness :
  GetPollingWorkers {[ "FILE_WATCHER_WORKERS"%string := FormatInt 0 ]}
  = if 0 <? 1 then 8 else 0.
Proof.
  apply (proj2 (proj2 (GetPollingWorkers_spec
                         {[ "FILE_WATCHER_WORKERS"%string := FormatInt 0 ]})) 0).
  - vm_compute. split; discriminate.
  - reflexivity.
Defined.

Section ReaderGone.

Context {J : JSON}.

Lemma writeMessage_error (sm : SessionManager) (msg : Msg) (e : goerr) :
  snd (writeMessage sm msg) = Err e -> e = io_ErrClosedPipe.
Proof.
  unfold writeMessage, Pipe_Write.
  destruct (writesLeft (sm_stdin sm)) as [[| n] |]; cbn [fst snd].
  - intros [= <-]. reflexivity.
  - destruct n; cbn [writesLeft snd]; [intros [= <-]; reflexivity | discriminate].
  - cbn [writesLeft snd]. discriminate.
Qed.

Lemma callBegin_callers (s s' : System) (method : string) (params : Params) :
  callBegin s method params = Some s' ->
  reader s' = reader s
  /\ callers s' = callers s ++ [mkCaller (wrap64 (requestID (sys_sm s) + 1))
                                  method params None AtWrite].
Proof.
  unfold callBegin. destruct (lockFree s); [| discriminate].
  intros [= <-]. split; reflexivity.
Qed.

(** Once the reader has returned, a step keeps it so, and a call without
    a response stays without one. *)
Lemma reader_gone_step (s s' : System) (a : Action) (e : goerr) (i : nat) :
  reader s = ReaderReturned e ->
  (forall c, callers s !! i = Some c -> withoutResponse c) ->
  step s a = Some s' ->
  reader s' = ReaderReturned e
  /\ (forall c, callers s' !! i = Some c -> withoutResponse c).
Proof.
  intros Hrd Hgood Hstep.
  assert (Hact : stepAction s a = Some s').
  { unfold step in Hstep. rewrite Hrd in Hstep. exact Hstep. }
  clear Hstep.
  assert (Hupd : forall j c0 c1,
            callers s !! j = Some c0 ->
            (withoutResponse c0 -> withoutResponse c1) ->
            forall c, <[j := c1]> (callers s) !! i = Some c -> withoutResponse c).
  { intros j c0 c1 Hj Himp c Hc. destruct (decide (j = i)) as [-> | Hne].
    - rewrite list_lookup_insert_eq in Hc by (eapply lookup_lt_Some; exact Hj).
      injection Hc as <-. apply Himp. apply Hgood. exact Hj.
    - rewrite list_lookup_insert_ne in Hc by exact Hne. apply Hgood. exact Hc. }
  assert (Hnew : forall s1 method params,
            callBegin s method params = Some s1 ->
            reader s1 = ReaderReturned e
            /\ (forall c, callers s1 !! i = Some c -> withoutResponse c)).
  { intros s1 method params Hb. apply callBegin_callers in Hb.
    destruct Hb as [Hr Hc]. split; [congruence |].
    intros c. rewrite Hc. intros Hl.
    apply lookup_app_Some in Hl. destruct Hl as [Hl | [_ Hl]]; [auto |].
    apply list_lookup_singleton_Some in Hl. destruct Hl as [_ <-].
    split; [reflexivity | exact I]. }
  destruct a as [method params | j | j | j | j | | | method params | t];
    cbn [stepAction] in Hact.
  - exact (Hnew _ _ _ Hact).
  - destruct (callers s !! j) as [c0 |] eqn:Hj; [| discriminate].
    destruct (c_pc c0) eqn:Hpc; try discriminate.
    pose proof (writeMessage_error (sys_sm s)
                  (mkMsg (Some (c_id c0)) (c_method c0) (c_params c0))) as Hw.
    destruct (writeMessage (sys_sm s) _) as [sm r]. cbn [snd] in Hw.
    injection Hact as <-. split; [exact Hrd |].
    cbn [callers set_caller set_sm]. apply (Hupd j c0); [exact Hj |].
    intros [Hb _]. split; [exact Hb |]. cbn [c_pc set_pc].
    destruct r as [[] | e']; [exact I |]. right. f_equal. apply Hw. reflexivity.
  - destruct (callers s !! j) as [c0 |] eqn:Hj; [| discriminate].
    destruct (c_pc c0) eqn:Hpc; try discriminate.
    destruct (c_buf c0) as [resp |] eqn:Hbuf; [| discriminate].
    injection Hact as <-. split; [exact Hrd |]. cbn [callers].
    intros c Hc. destruct (decide (j = i)) as [-> | Hne].
    + destruct (Hgood c0 Hj) as [Hb _]. congruence.
    + rewrite list_lookup_insert_ne in Hc by exact Hne. apply Hgood. exact Hc.
  - destruct (callers s !! j) as [c0 |] eqn:Hj; [| discriminate].
    destruct (c_pc c0) eqn:Hpc; try discriminate.
    injection Hact as <-. split; [exact Hrd |].
    cbn [callers set_caller]. apply (Hupd j c0); [exact Hj |].
    intros [Hb _]. split; [exact Hb |]. cbn [c_pc set_pc]. left. reflexivity.
  - destruct (callers s !! j) as [c0 |] eqn:Hj; [| discriminate].
    destruct (c_pc c0) eqn:Hpc; try discriminate.
    destruct (lockFree s); [| discriminate].
    injection Hact as <-. split; [exact Hrd |].
    cbn [callers set_caller set_sm]. apply (Hupd j c0); [exact Hj |].
    intros [Hb Hr]. split; [exact Hb |]. rewrite Hpc in Hr. exact Hr.
  - rewrite Hrd in Hact. discriminate.
  - rewrite Hrd in Hact. discriminate.
  - destruct (handleAPIRequest (sys_sm s) method params (clock s)) as [sm r | m p d].
    + injection Hact as <-. split; [exact Hrd | exact Hgood].
    + exact (Hnew _ _ _ Hact).
  - destruct (clock s <=? t); [| discriminate].
    injection Hact as <-. split; [exact Hrd | exact Hgood].
Qed.

Lemma reader_gone_run (tr : list Action) (s s' : System) (e : goerr) (i : nat) :
  reader s = ReaderReturned e ->
  (forall c, callers s !! i = Some c -> withoutResponse c) ->
  run s tr = Some s' ->
  reader s' = ReaderReturned e
  /\ (forall c, callers s' !! i = Some c -> withoutResponse c).
Proof.
  revert s. induction tr as [| a tr IH]; intros s Hrd Hgood; cbn [run].
  - intros [= <-]. split; assumption.
  - destruct (step s a) as [s1 |] eqn:Hstep; [| discriminate]. intros Hrun.
    destruct (reader_gone_step s s1 a e i Hrd Hgood Hstep) as [Hrd1 Hgood1].
    exact (IH s1 Hrd1 Hgood1 Hrun).
Qed.

End ReaderGone.

(** X23. After the read loop has returned (the server closed its output, or a
    header block had no length), a call of [sendRequest] that has no
    response in its channel, and every call made later, never returns a
    result: it returns the error of the write or, when its deadline has
    passed, [context deadline exceeded]; and the reader stays gone. *)
Theorem no_result_after_reader_returned `{J : JSON} (s s' : System)
    (tr : list Action) (e : goerr) (i : nat) (c' : Caller) (r : result bytes) :
  reader s = ReaderReturned e ->
  (forall c, callers s !! i = Some c -> c_buf c = None /\ ~ pastSelect c) ->
  run s tr = Some s' ->
  callers s' !! i = Some c' ->
  c_pc c' = Returned r ->
  reader s' = ReaderReturned e
  /\ (r = Err context_DeadlineExceeded \/ r = Err io_ErrClosedPipe).
Proof.
  intros Hrd Hc Hrun Hc' Hpc.
  destruct (reader_gone_run tr s s' e i Hrd) as [Hrd' Hgood]; [| exact Hrun |].
  - intros c Hi. destruct (Hc c Hi) as [Hb Hps]. split; [exact Hb |].
    unfold pastSelect in Hps. destruct (c_pc c); tauto.
  - split; [exact Hrd' |]. destruct (Hgood c' Hc') as [_ Hr].
    rewrite Hpc in Hr. exact Hr.
Qed.

Lemma no_result_after_reader_returned_witness :
  reader systemAfterLateCall = ReaderReturned (errorf "missing Content-Length header")
  /\ (@Err bytes context_DeadlineExceeded = Err context_DeadlineExceeded
      \/ @Err bytes context_DeadlineExceeded = Err io_ErrClosedPipe).
Proof.
  apply (@no_result_after_reader_returned exampleJSON systemReaderGone
           systemAfterLateCall lateCall (errorf "missing Content-Length header") 0
           (mkCaller 1 "textDocument/hover" (PInterface (lit "{}")) None
              (Returned (Err context_DeadlineExceeded)))
           (Err context_DeadlineExceeded)).
  - vm_compute. reflexivity.
  - intros c H. vm_compute in H. discriminate H.
  - vm_compute. reflexivity.
  - vm_compute. reflexivity.
  - reflexivity.
Defined.

Section EntriesKept.

Context {J : JSON}.

Lemma kept_update (s : System) (i0 : nat) (c0 c1 : Caller) (pend : gmap Z nat)
    (i : nat) (c : Caller) :
  callers s !! i0 = Some c0 ->
  <[i0 := c1]> (callers s) !! i = Some c ->
  c_id c1 = c_id c0 -> (notReturned c1 -> notReturned c0) ->
  pend = pending (sys_sm s) ->
  entriesKept s ->
  notReturned c ->
  pend !! c_id c = Some i.
Proof.
  intros H0 Hc Hid Hnr -> Hk Hn.
  apply list_lookup_insert_Some in Hc.
  destruct Hc as [(-> & <- & _) | (Hne & Hc)].
  - rewrite Hid. apply Hk; auto.
  - apply Hk; assumption.
Qed.

Lemma readerRound_kept (s : System) : entriesKept s -> entriesKept (readerRound s).
Proof.
  intros Hk. unfold readerRound.
  destruct (readLSPMessage (stdout s)) as [[msg rest] | e |]; try exact Hk.
  destruct (decodeBaseMsg msg) as [[id f] | e]; [| exact Hk].
  destruct (match id with
            | Some id0 => IsSet id0 && String.eqb (bm_method f) ""
            | None => false
            end).
  - destruct (pending (sys_sm s) !! _) as [ch |]; [| exact Hk].
    destruct (callers s !! ch) as [c |] eqn:Hc; [| exact Hk].
    destruct (c_buf c); [exact Hk |].
    intros i c' Hi Hn. cbn [callers sys_sm] in *.
    exact (kept_update s ch c _ _ i c' Hc Hi eq_refl (fun H => H) eq_refl Hk Hn).
  - destruct (negb _); [| exact Hk].
    intros i c Hi Hn. cbn [callers sys_sm] in *.
    rewrite (proj2 (handleNotification_broker _ _ _ _)). apply Hk; assumption.
Qed.

Lemma callBegin_kept (s s' : System) (method : string) (params : Params) :
  broker_inv s -> Z.of_nat (length (callers s')) < 2 ^ 63 ->
  entriesKept s -> callBegin s method params = Some s' -> entriesKept s'.
Proof.
  intros Hinv Hlen Hk Hb. pose proof Hinv as (I1 & _).
  unfold callBegin in Hb. destruct (lockFree s); [| discriminate].
  injection Hb as <-. cbn [callers] in Hlen. rewrite length_app in Hlen.
  cbn [length] in Hlen.
  assert (Hid : wrap64 (requestID (sys_sm s) + 1) = Z.of_nat (length (callers s)) + 1).
  { rewrite I1, wrap64_succ. apply wrap64_small. unfold minInt64, maxInt64. lia. }
  intros i c Hc Hn. cbn [callers sys_sm pending set_pending] in *.
  rewrite Hid in *.
  apply lookup_app_Some in Hc. destruct Hc as [Hc | [Hge Hc]].
  - assert (c_id c = Z.of_nat i + 1).
    { apply (caller_id s i c Hinv); [lia | exact Hc]. }
    apply lookup_lt_Some in Hc as Hlt.
    rewrite lookup_insert_ne by lia. apply Hk; [| exact Hn].
    apply lookup_lt_is_Some in Hlt. destruct Hlt as [c0 Hc0].
    rewrite Hc0. f_equal.
    assert (callers s !! i = Some c) by assumption. congruence.
  - apply list_lookup_singleton_Some in Hc. destruct Hc as [Hi <-].
    cbn [c_id]. assert (i = length (callers s)) by lia. subst i.
    apply lookup_insert_eq.
Qed.

Lemma stepAction_kept (s s' : System) (a : Action) :
  broker_inv s -> Z.of_nat (length (callers s')) < 2 ^ 63 ->
  entriesKept s -> stepAction s a = Some s' -> entriesKept s'.
Proof.
  intros Hinv Hlen Hk Hact.
  destruct a as [method params | j | j | j | j | | | method params | t];
    cbn [stepAction] in Hact.
  - eapply callBegin_kept; eauto.
  - destruct (callers s !! j) as [c0 |] eqn:Hj; [| discriminate].
    destruct (c_pc c0) eqn:Hpc; try discriminate.
    pose proof (writeMessage_broker (sys_sm s)
                  (mkMsg (Some (c_id c0)) (c_method c0) (c_params c0))) as [_ Hp].
    destruct (writeMessage (sys_sm s) _) as [sm r]. cbn [fst] in Hp.
    injection Hact as <-. intros i c Hi Hn. cbn [callers sys_sm set_caller set_sm] in *.
    refine (kept_update s j c0 _ _ i c Hj Hi eq_refl _ Hp Hk Hn).
    intros _. unfold notReturned. rewrite Hpc. exact I.
  - destruct (callers s !! j) as [c0 |] eqn:Hj; [| discriminate].
    destruct (c_pc c0) eqn:Hpc; try discriminate.
    destruct (c_buf c0) as [resp |]; [| discriminate].
    injection Hact as <-. intros i c Hi Hn. cbn [callers sys_sm] in *.
    refine (kept_update s j c0 _ _ i c Hj Hi eq_refl _ eq_refl Hk Hn).
    intros _. unfold notReturned. rewrite Hpc. exact I.
  - destruct (callers s !! j) as [c0 |] eqn:Hj; [| discriminate].
    destruct (c_pc c0) eqn:Hpc; try discriminate.
    injection Hact as <-. intros i c Hi Hn. cbn [callers sys_sm set_caller] in *.
    refine (kept_update s j c0 _ _ i c Hj Hi eq_refl _ eq_refl Hk Hn).
    intros _. unfold notReturned. rewrite Hpc. exact I.
  - destruct (callers s !! j) as [c0 |] eqn:Hj; [| discriminate].
    destruct (c_pc c0) eqn:Hpc; try discriminate.
    destruct (lockFree s); [| discriminate].
    injection Hact as <-. cbn [callers set_caller set_sm] in Hlen.
    rewrite length_insert in Hlen.
    intros i c Hi Hn.
    cbn [callers sys_sm set_caller set_sm pending set_pending] in *.
    apply list_lookup_insert_Some in Hi.
    destruct Hi as [(-> & <- & _) | (Hne & Hi)].
    + unfold notReturned in Hn. cbn [c_pc set_pc] in Hn. destruct Hn.
    + pose proof (caller_id s i c Hinv Hlen Hi).
      pose proof (caller_id s j c0 Hinv Hlen Hj).
      rewrite lookup_delete_ne by lia. apply Hk; assumption.
  - destruct (reader s); try discriminate. injection Hact as <-.
    apply readerRound_kept. exact Hk.
  - destruct (reader s) as [| ch resp | |]; try discriminate.
    destruct (callers s !! ch) as [c0 |] eqn:Hj; [| discriminate].
    destruct (c_buf c0); [discriminate |].
    injection Hact as <-. intros i c Hi Hn. cbn [callers sys_sm] in *.
    exact (kept_update s ch c0 _ _ i c Hj Hi eq_refl (fun H => H) eq_refl Hk Hn).
  - destruct (handleAPIRequest (sys_sm s) method params (clock s))
      as [sm r | m p d] eqn:Hh.
    + injection Hact as <-. intros i c Hi Hn. cbn [callers sys_sm set_sm] in *.
      rewrite (proj2 (handleAPIRequest_Done_broker _ _ _ _ _ _ Hh)).
      apply Hk; assumption.
    + eapply callBegin_kept; eauto.
  - destruct (clock s <=? t); [| discriminate].
    injection Hact as <-. exact Hk.
Qed.

Lemma stepAction_length (s s' : System) (a : Action) :
  stepAction s a = Some s' -> (length (callers s) <= length (callers s'))%nat.
Proof.
  intros Hact. destruct (stepAction_effect s s' a Hact) as [Hc _].
  destruct (Nat.le_gt_cases (length (callers s)) (length (callers s'))) as [? | Hgt];
    [assumption |].
  assert (Hlt : (length (callers s') < length (callers s))%nat) by lia.
  apply lookup_lt_is_Some in Hlt. destruct Hlt as [c Hl].
  destruct (Hc _ _ Hl) as (c1 & Hl1 & _). apply lookup_lt_Some in Hl1. lia.
Qed.

Lemma run_kept (tr : list Action) (s s' : System) :
  broker_inv s -> entriesKept s -> run s tr = Some s' ->
  Z.of_nat (length (callers s')) < 2 ^ 63 ->
  entriesKept s' /\ (length (callers s) <= length (callers s'))%nat.
Proof.
  revert s. induction tr as [| a tr IH]; intros s Hinv Hk; cbn [run].
  - intros [= <-] _. split; [exact Hk | lia].
  - destruct (step s a) as [s1 |] eqn:Hstep; [| discriminate]. intros Hrun Hlen.
    assert (Hact : stepAction s a = Some s1).
    { unfold step in Hstep. destruct (reader s); congruence. }
    pose proof (step_inv s s1 a Hinv Hstep) as Hinv1.
    pose proof (stepAction_length s s1 a Hact) as Hl1.
    assert (Hk1 : entriesKept s1 -> entriesKept s'
                                    /\ (length (callers s1) <= length (callers s'))%nat).
    { intros Hk1. exact (IH s1 Hinv1 Hk1 Hrun Hlen). }
    assert (Hmono : forall tr' s2 s3, run s2 tr' = Some s3 ->
                      (length (callers s2) <= length (callers s3))%nat).
    { clear. induction tr' as [| a' tr' IH']; intros s2 s3; cbn [run].
      - intros [= <-]. lia.
      - destruct (step s2 a') as [s4 |] eqn:Hs; [| discriminate]. intros Hr.
        assert (stepAction s2 a' = Some s4).
        { unfold step in Hs. destruct (reader s2); congruence. }
        pose proof (stepAction_length _ _ _ H). pose proof (IH' _ _ Hr). lia. }
    pose proof (Hmono tr s1 s' Hrun) as Hl2.
    destruct Hk1 as [Hk' Hl'].
    + apply (stepAction_kept s s1 a Hinv); [lia | exact Hk | exact Hact].
    + split; [exact Hk' | lia].
Qed.

Lemma reachable_kept (s : System) :
  reachable s -> Z.of_nat (length (callers s)) < 2 ^ 63 -> entriesKept s.
Proof.
  intros (sm & out & now & tr & Hrun) Hlen.
  apply (run_kept tr (initSystem sm out now) s); [apply inv_init | | exact Hrun | exact Hlen].
  intros i c Hc. cbn [initSystem callers] in Hc. rewrite lookup_nil in Hc. discriminate Hc.
Qed.

End EntriesKept.

(** X24. A response that arrives while its call waits is returned by that call
    of [sendRequest]: when the next message on the stream is a response
    with the id of a call that waits in its [select], the reader hands it
    over without blocking, the call returns the result of the response (or
    the error [lsp error <code>: <message>] when the response carries an
    error), and its entry leaves the pending map. *)
Theorem response_in_time_is_returned `{J : JSON} (s : System) (i : nat) (c : Caller)
    (msg rest : bytes) (jid : JSONRPCID) (f : BaseMsgFields) :
  reachable s ->
  Z.of_nat (length (callers s)) < 2 ^ 63 ->
  reader s = Reading ->
  callers s !! i = Some c -> c_pc c = AtSelect -> c_buf c = None ->
  readLSPMessage (stdout s) = Ret (msg, rest) ->
  decodeBaseMsg msg = Ok (Some jid, f) ->
  IsSet jid = true -> bm_method f = ""%string -> AsInt64 jid = c_id c ->
  exists s',
    run s [ARead; ARecv i; ACleanup i] = Some s'
    /\ callers s' !! i
       = Some (mkCaller (c_id c) (c_method c) (c_params c) None
                 (Returned (responseResult (mkLspResponse (bm_result f) (bm_error f)))))
    /\ pending (sys_sm s') !! c_id c = None
    /\ delivered s' = delivered s ++ [(i, mkLspResponse (bm_result f) (bm_error f))]
    /\ reader s' = Reading /\ stdout s' = rest.
Proof.
  intros Hreach Hlen Hrd Hc Hpc Hbuf Hread Hdec Hset Hm Hid.
  pose proof (reachable_kept s Hreach Hlen) as Hk.
  assert (Hp : pending (sys_sm s) !! c_id c = Some i).
  { apply Hk; [exact Hc |]. unfold notReturned. rewrite Hpc. exact I. }
  assert (Hlt : (i < length (callers s))%nat) by (eapply lookup_lt_Some; exact Hc).
  set (resp := mkLspResponse (bm_result f) (bm_error f)).
  assert (Hround : readerRound s
                   = mkSystem (sys_sm s) (<[i := set_buf c (Some resp)]> (callers s))
                       rest Reading (clock s) (logs s)
                       (arrived s ++ [(c_id c, resp)]) (delivered s)).
  { unfold readerRound. rewrite Hread, Hdec, Hset, Hm, Hid. cbn [String.eqb andb].
    rewrite Hp, Hc, Hbuf. reflexivity. }
  eexists. split.
  { cbn [run]. unfold step at 1. rewrite Hrd. cbn [stepAction]. rewrite Hrd, Hround.
    unfold step at 1. cbn [reader stepAction callers].
    rewrite list_lookup_insert_eq by exact Hlt.
    cbn [c_pc c_buf set_buf]. rewrite Hpc.
    unfold step at 1. cbn [reader stepAction callers].
    rewrite list_lookup_insert_eq by (rewrite length_insert; exact Hlt).
    cbn [c_pc set_pc set_buf lockFree reader]. reflexivity. }
  cbn [callers set_caller set_sm sys_sm pending set_pending delivered reader stdout
       c_id c_method c_params c_buf c_pc set_pc set_buf].
  split.
  { rewrite list_lookup_insert_eq by (rewrite !length_insert; exact Hlt). reflexivity. }
  split; [apply lookup_delete_eq |]. repeat split.
Qed.

Lemma systemAnswered_reachable : @reachable exampleJSON systemAnswered.
Proof.
  exists session0, (frame (responseBody (lit "1"))), 0,
    [ ACall "textDocument/hover" (PInterface (lit "{}")); AWrite 0 ].
  vm_compute. reflexivity.
Qed.

Lemma response_in_time_is_returned_witness :
  exists s',
    @run exampleJSON systemAnswered [ARead; ARecv 0; ACleanup 0] = Some s'
    /\ callers s' !! 0%nat
       = Some (mkCaller 1 "textDocument/hover" (PInterface (lit "{}")) None
                 (Returned (responseResult (mkLspResponse (lit "null") None))))
    /\ pending (sys_sm s') !! 1 = None
    /\ delivered s' = delivered systemAnswered ++ [(0%nat, mkLspResponse (lit "null") None)]
    /\ reader s' = Reading /\ stdout s' = [].
Proof.
  apply (@response_in_time_is_returned exampleJSON systemAnswered 0
           (mkCaller 1 "textDocument/hover" (PInterface (lit "{}")) None AtSelect)
           (responseBody (lit "1")) [] (mkID (Some 1) None)
           (mkBaseMsgFields (Some (lit "1")) "" (lit "null") None)).
  - exact systemAnswered_reachable.
  - vm_compute. reflexivity.
  - vm_compute. reflexivity.
  - vm_compute. reflexivity.
  - reflexivity.
  - reflexivity.
  - vm_compute. reflexivity.
  - vm_compute. reflexivity.
  - reflexivity.
  - reflexivity.
  - reflexivity.
Defined.

Example Ext_examples :
  Ext "/projects/src/Module.BSL" = ".BSL"%string
  /\ Ext "/projects/a.b/c" = ""%string
  /\ Ext "/projects/.hidden" = ".hidden"%string
  /\ Ext "archive.tar.gz" = ".gz"%string
  /\ Ext "dir/" = ""%string /\ Ext "" = ""%string.
Proof. repeat split; reflexivity. Qed.

Section FsnotifyFacts.

Context {J : JSON}.
Variable ToLower : string -> string.

Lemma recordEvent_lookup (pend : gmap string Z) (uri U : string) (op : Z) :
  recordEvent pend uri op !! U
  = if bool_decide (uri = U) then
      match eventKind op with
      | Some k => if bool_decide (k = Changed)
                  then match pend !! U with Some k0 => Some k0 | None => Some Changed end
                  else Some k
      | None => pend !! U
      end
    else pend !! U.
Proof.
  unfold recordEvent, eventKind.
  case_bool_decide as HU.
  - subst U. destruct (Op_Has op fsnotify_Create).
    { rewrite lookup_insert_eq. reflexivity. }
    destruct (Op_Has op fsnotify_Write).
    { rewrite bool_decide_eq_true_2 by reflexivity.
      destruct (pend !! uri) eqn:Hp; [exact Hp | apply lookup_insert_eq]. }
    destruct (Op_Has op fsnotify_Remove || Op_Has op fsnotify_Rename); [| reflexivity].
    rewrite lookup_insert_eq. reflexivity.
  - destruct (Op_Has op fsnotify_Create).
    { apply lookup_insert_ne. exact HU. }
    destruct (Op_Has op fsnotify_Write).
    { destruct (pend !! uri); [reflexivity | apply lookup_insert_ne; exact HU]. }
    destruct (Op_Has op fsnotify_Remove || Op_Has op fsnotify_Rename); [| reflexivity].
    apply lookup_insert_ne. exact HU.
Qed.

Lemma fsnotifyRound_event (st : FsnotifyLoop) (name : string) (op : Z)
    (dir : option string) (U : string) :
  fw_returned st = false ->
  fw_returned (fsnotifyRound ToLower st (CaseEvent name op dir)) = false
  /\ fw_sm (fsnotifyRound ToLower st (CaseEvent name op dir)) = fw_sm st
  /\ pendingChanges (fsnotifyRound ToLower st (CaseEvent name op dir)) !! U
     = match kindsFor ToLower U [CaseEvent name op dir] with
       | [] => pendingChanges st !! U
       | k :: _ =>
           if bool_decide (k = Changed)
           then match pendingChanges st !! U with
                | Some k0 => Some k0
                | None => Some Changed
                end
           else Some k
       end.
Proof.
  intros Hrun. unfold fsnotifyRound, kindsFor. rewrite Hrun.
  change (omap ?f [?c]) with (match f c with Some y => [y] | None => [] end).
  cbv beta iota.
  destruct (isSourceName ToLower name) eqn:Hsrc; cbn [andb].
  - cbn [fw_returned fw_sm pendingChanges]. split; [reflexivity |].
    split; [reflexivity |]. rewrite recordEvent_lookup.
    destruct (String.eqb_spec (fsnotifyURI name) U) as [HU | HU].
    + rewrite bool_decide_eq_true_2 by exact HU.
      destruct (eventKind op); reflexivity.
    + rewrite bool_decide_eq_false_2 by exact HU. reflexivity.
  - destruct (Op_Has op fsnotify_Create); [| repeat split; assumption].
    destruct dir as [dname |]; [| repeat split; assumption].
    destruct (skippedDir dname); repeat split; assumption.
Qed.

End FsnotifyFacts.

Section FsnotifyRun.

Context {J : JSON}.
Variable ToLower : string -> string.

Lemma runFsnotifyWatcher_snoc (st : FsnotifyLoop) (cases : list FsnotifyCase)
    (c : FsnotifyCase) :
  runFsnotifyWatcher ToLower st (cases ++ [c])
  = fsnotifyRound ToLower (runFsnotifyWatcher ToLower st cases) c.
Proof. unfold runFsnotifyWatcher. rewrite fold_left_app. reflexivity. Qed.

Lemma runFsnotifyWatcher_quiet (st : FsnotifyLoop) (cases : list FsnotifyCase) :
  fw_returned st = false -> Forall quietCase cases ->
  fw_returned (runFsnotifyWatcher ToLower st cases) = false
  /\ fw_sm (runFsnotifyWatcher ToLower st cases) = fw_sm st.
Proof.
  intros Hrun Hq. induction cases as [| c cases IH] using rev_ind;
    [split; [exact Hrun | reflexivity] |].
  apply Forall_app in Hq. destruct Hq as [Hq Hc].
  destruct (IH Hq) as [IH1 IH2]. rewrite runFsnotifyWatcher_snoc.
  inversion Hc as [| c' l' Hc' _]; subst.
  destruct c as [| name op dir | | | |]; try destruct Hc'.
  - destruct (fsnotifyRound_event ToLower _ name op dir ""%string IH1) as (H1 & H2 & _).
    split; [exact H1 | congruence].
  - unfold fsnotifyRound. rewrite IH1. split; assumption.
Qed.

Lemma kindsFor_app (U : string) (l1 l2 : list FsnotifyCase) :
  kindsFor ToLower U (l1 ++ l2) = kindsFor ToLower U l1 ++ kindsFor ToLower U l2.
Proof. unfold kindsFor. apply omap_app. Qed.

End FsnotifyRun.

(** X25. Between two flushes the watcher keeps one change type for each file:
    that of its last create or remove (or rename) event; a write is
    reported only when the file has seen no create and no remove since the
    last flush, and it never replaces one. Events of files with another
    extension leave the pending changes as they are. *)
Theorem fsnotify_coalesces_events `{J : JSON} (ToLower : string -> string)
    (st : FsnotifyLoop) (cases : list FsnotifyCase) (U : string) :
  fw_returned st = false ->
  Forall quietCase cases ->
  pendingChanges (runFsnotifyWatcher ToLower st cases) !! U
  = match last (filter (fun k => k <> Changed) (kindsFor ToLower U cases)) with
    | Some k => Some k
    | None =>
        match pendingChanges st !! U with
        | Some k0 => Some k0
        | None =>
            if bool_decide (Changed ∈ kindsFor ToLower U cases)
            then Some Changed else None
        end
    end.
Proof.
  intros Hrun Hq. induction cases as [| c cases IH] using rev_ind.
  - cbn. destruct (pendingChanges st !! U); reflexivity.
  - apply Forall_app in Hq. destruct Hq as [Hq Hc].
    specialize (IH Hq).
    destruct (runFsnotifyWatcher_quiet ToLower st cases Hrun Hq) as [Hrun' _].
    rewrite runFsnotifyWatcher_snoc.
    rewrite kindsFor_app.
    inversion Hc as [| c' l' Hc' _]; subst.
    destruct c as [| name op dir | | | |]; try destruct Hc'.
    + destruct (fsnotifyRound_event ToLower _ name op dir U Hrun') as (_ & _ & ->).
      destruct (kindsFor ToLower U [CaseEvent name op dir]) as [| k [| k' ks]] eqn:Hk.
      * rewrite app_nil_r. exact IH.
      * rewrite filter_app. destruct (decide (k = Changed)) as [-> | Hch].
        -- rewrite (bool_decide_eq_true_2 (Changed = Changed)) by reflexivity.
           rewrite filter_cons_False by (intros H; apply H; reflexivity).
           rewrite filter_nil, app_nil_r, IH.
           destruct (last (filter _ (kindsFor ToLower U cases))); [reflexivity |].
           destruct (pendingChanges st !! U); [reflexivity |].
           rewrite (bool_decide_eq_true_2 (Changed ∈ _ ++ [Changed]))
             by (apply elem_of_app; right; left).
           destruct (bool_decide _); reflexivity.
        -- rewrite (bool_decide_eq_false_2 (k = Changed)) by exact Hch.
           rewrite filter_cons_True by exact Hch.
           rewrite filter_nil, last_snoc. reflexivity.
      * exfalso. revert Hk. unfold kindsFor.
        change (omap ?f [?c]) with (match f c with Some y => [y] | None => [] end).
        cbv beta iota.
        destruct (isSourceName ToLower name && String.eqb (fsnotifyURI name) U);
          [destruct (eventKind op) |]; discriminate.
    + unfold fsnotifyRound. rewrite Hrun'.
      change (kindsFor ToLower U [CaseError]) with (@nil Z).
      rewrite app_nil_r. exact IH.
Qed.

Lemma fsnotify_coalesces_events_witness :
  pendingChanges
    (@runFsnotifyWatcher exampleJSON asciiToLower fsnotifyIndexing
       [ CaseEvent "/projects/a.bsl" fsnotify_Create None;
         CaseEvent "/projects/notes.txt" fsnotify_Write None;
         CaseEvent "/projects/a.bsl" fsnotify_Write None ])
    !! "file:///projects/a.bsl"%string
  = match last (filter (fun k => k <> Changed)
                  (kindsFor asciiToLower "file:///projects/a.bsl"
                     [ CaseEvent "/projects/a.bsl" fsnotify_Create None;
                       CaseEvent "/projects/notes.txt" fsnotify_Write None;
                       CaseEvent "/projects/a.bsl" fsnotify_Write None ])) with
    | Some k => Some k
    | None =>
        match pendingChanges fsnotifyIndexing !! "file:///projects/a.bsl"%string with
        | Some k0 => Some k0
        | None =>
            if bool_decide
                 (Changed ∈ kindsFor asciiToLower "file:///projects/a.bsl"
                    [ CaseEvent "/projects/a.bsl" fsnotify_Create None;
                      CaseEvent "/projects/notes.txt" fsnotify_Write None;
                      CaseEvent "/projects/a.bsl" fsnotify_Write None ])
            then Some Changed else None
        end
    end.
Proof.
  apply (@fsnotify_coalesces_events exampleJSON asciiToLower fsnotifyIndexing
           [ CaseEvent "/projects/a.bsl" fsnotify_Create None;
             CaseEvent "/projects/notes.txt" fsnotify_Write None;
             CaseEvent "/projects/a.bsl" fsnotify_Write None ]
           "file:///projects/a.bsl").
  - reflexivity.
  - repeat constructor.
Defined.

Example fsnotify_create_then_write :
  pendingChanges
    (@runFsnotifyWatcher exampleJSON asciiToLower fsnotifyIndexing
       [ CaseEvent "/projects/a.bsl" fsnotify_Create None;
         CaseEvent "/projects/notes.txt" fsnotify_Write None;
         CaseEvent "/projects/a.bsl" fsnotify_Write None;
         CaseEvent "/projects/B.OS" (Z.lor fsnotify_Write fsnotify_Chmod) None ])
  = {[ "file:///projects/a.bsl"%string := Created;
       "file:///projects/B.OS"%string := Changed ]}.
Proof. vm_compute. reflexivity. Qed.

Section FlushFacts.

(** The entries a [range] yields are those of the map, each once. *)
Lemma pendingList_entries (order : list string) (pend : gmap string Z) :
  rangeOrder order pend ->
  pendingList order pend ≡ₚ pendingEntries pend.
Proof.
  unfold rangeOrder, pendingList, pendingEntries. intros ->.
  assert (H : forall l : list (string * Z),
            (forall k v, (k, v) ∈ l -> pend !! k = Some v) ->
            omap (fun uri => mkFileChange uri <$> pend !! uri) l.*1
            = map (fun '(uri, changeType) => mkFileChange uri changeType) l).
  { induction l as [| [k v] l IH]; intros Hl; [reflexivity |].
    cbn [fmap list_fmap map].
    change (omap ?f (?x :: ?r))
      with (match f x with Some y => y :: omap f r | None => omap f r end).
    cbv beta. cbn [fst]. rewrite (Hl k v) by left. cbn [fmap option_fmap option_map].
    f_equal. apply IH. intros k' v' Hin. apply Hl. right. exact Hin. }
  rewrite H; [reflexivity |].
  intros k v Hin. apply elem_of_map_to_list. exact Hin.
Qed.

Lemma pendingList_URI (order : list string) (pend : gmap string Z) :
  rangeOrder order pend -> map URI (pendingList order pend) = order.
Proof.
  unfold rangeOrder, pendingList. intros Hperm.
  assert (H : forall l : list string,
            (forall k, k ∈ l -> is_Some (pend !! k)) ->
            map URI (omap (fun uri => mkFileChange uri <$> pend !! uri) l) = l).
  { induction l as [| k l IH]; intros Hl; [reflexivity |].
    change (omap ?f (?x :: ?r))
      with (match f x with Some y => y :: omap f r | None => omap f r end).
    cbv beta. destruct (Hl k ltac:(left)) as [v ->].
    cbn [fmap option_fmap option_map map URI]. f_equal.
    apply IH. intros k' Hin. apply Hl. right. exact Hin. }
  apply H. intros k Hin. rewrite Hperm in Hin.
  apply list_elem_of_fmap in Hin. destruct Hin as ([k' v] & -> & Hin).
  apply elem_of_map_to_list in Hin. exists v. exact Hin.
Qed.

End FlushFacts.

(** X26. The fsnotify watcher does not ask whether indexing is active: when
    the timer fires with changes pending, on a pipe that takes the two
    writes, it sends them to the server in one notification and empties the
    pending map. The notification has one entry for each pending path, each
    once, with its change type; they come in the order in which the [range]
    over the map yields the paths, which may be any. A timer that fires
    with nothing pending sends nothing. *)
Theorem fsnotify_flush_sends_during_indexing `{J : JSON} (ToLower : string -> string)
    (st : FsnotifyLoop) (order : list string) :
  fw_returned st = false ->
  pendingChanges st <> ∅ ->
  rangeOrder order (pendingChanges st) ->
  canWrite (sm_stdin (fw_sm st)) 2 ->
  let st' := fsnotifyRound ToLower st (CaseTimer order) in
  let changes := pendingList order (pendingChanges st) in
  written (sm_stdin (fw_sm st'))
  = written (sm_stdin (fw_sm st))
      ++ frame (json_Marshal
                  (mkMsg None "workspace/didChangeWatchedFiles" (PChanges changes)))
  /\ changes ≡ₚ pendingEntries (pendingChanges st)
  /\ map URI changes = order
  /\ IsIndexing (fw_sm st') = IsIndexing (fw_sm st)
  /\ pendingChanges st' = ∅
  /\ (forall order', fsnotifyRound ToLower st' (CaseTimer order') = st').
Proof.
  intros Hrun Hne Horder Hw. cbv zeta.
  assert (Hsize : (0 <? size (pendingChanges st))%nat = true).
  { apply Nat.ltb_lt. destruct (size (pendingChanges st)) eqn:Hs; [| lia].
    apply map_size_empty_inv in Hs. contradiction. }
  destruct (sendNotification_ok (fw_sm st) "workspace/didChangeWatchedFiles"
              (PChanges (pendingList order (pendingChanges st))) 0 Hw)
    as (q & Hsend & Hq & _).
  assert (Hst : fsnotifyRound ToLower st (CaseTimer order)
                = mkFsnotifyLoop (set_stdin (fw_sm st) q) ∅ (fw_added st) false).
  { unfold fsnotifyRound. rewrite Hrun, Hsize, Hsend. reflexivity. }
  rewrite Hst. cbn [fw_sm pendingChanges sm_stdin set_stdin].
  split; [exact Hq |].
  split; [apply pendingList_entries; exact Horder |].
  split; [apply pendingList_URI; exact Horder |].
  split; [reflexivity |]. split; [reflexivity |].
  intros order'. reflexivity.
Qed.

Lemma fsnotify_flush_sends_during_indexing_witness :
  let order := ["file:///projects/b.os"; "file:///projects/a.bsl"]%string in
  let st' := @fsnotifyRound exampleJSON asciiToLower fsnotifyPending (CaseTimer order) in
  let changes := pendingList order (pendingChanges fsnotifyPending) in
  written (sm_stdin (fw_sm st'))
  = written (sm_stdin (fw_sm fsnotifyPending))
      ++ frame (exampleMarshal
                  (mkMsg None "workspace/didChangeWatchedFiles" (PChanges changes)))
  /\ changes ≡ₚ pendingEntries (pendingChanges fsnotifyPending)
  /\ map URI changes = order
  /\ IsIndexing (fw_sm st') = IsIndexing (fw_sm fsnotifyPending)
  /\ pendingChanges st' = ∅
  /\ (forall order', @fsnotifyRound exampleJSON asciiToLower st' (CaseTimer order') = st').
Proof.
  apply (@fsnotify_flush_sends_during_indexing exampleJSON asciiToLower fsnotifyPending
           ["file:///projects/b.os"; "file:///projects/a.bsl"]%string).
  - reflexivity.
  - intros H. apply (f_equal size) in H. vm_compute in H. discriminate H.
  - unfold rangeOrder.
    apply (bool_decide_unpack _ (dec := Permutation_dec _ _)). vm_compute. exact I.
  - exact I.
Defined.

(** Two files are pending while indexing is active, and the flush names
    them in the order of the [range]: either order can come. *)
Example fsnotifyPending_indexing :
  IsIndexing (fw_sm fsnotifyPending) = true
  /\ pendingList ["file:///projects/b.os"; "file:///projects/a.bsl"]%string
       (pendingChanges fsnotifyPending)
     = [ mkFileChange "file:///projects/b.os" Changed;
         mkFileChange "file:///projects/a.bsl" Created ]
  /\ pendingList ["file:///projects/a.bsl"; "file:///projects/b.os"]%string
       (pendingChanges fsnotifyPending)
     = [ mkFileChange "file:///projects/a.bsl" Created;
         mkFileChange "file:///projects/b.os" Changed ].
Proof. repeat split; vm_compute; reflexivity. Qed.

Lemma String_cons_neq (c : ascii) (s : string) : s <> String c s.
Proof.
  intros H. apply (f_equal String.length) in H. cbn [String.length] in H. lia.
Qed.

(** X27. The two watchers name a file by the same URI exactly when its path is
    absolute: for a relative path the polling watcher puts a slash before
    it and the fsnotify watcher does not. *)
Theorem fsnotifyURI_pathToURI (name : string) :
  fsnotifyURI name = pathToURI name <-> String.prefix "/" name = true.
Proof.
  unfold fsnotifyURI, pathToURI, ToSlash. split.
  - destruct (String.prefix "/" name); [reflexivity |].
    cbn [String.append]. intros [= H]. destruct (String_cons_neq _ _ H).
  - intros ->. reflexivity.
Qed.

Section ClientFacts.

Context {J : JSON}.





End ClientFacts.




Example HandleClient_example :
  snd (@HandleClient exampleJSON session0
         (joinLines clientLines ++ lit "{partial") (fun _ => (0, None)))
  = [ RespError 7 (-32603) "unknown method: textDocument/foo";
      RespResult 8 (VRaw []) ].
Proof. vm_compute. reflexivity. Qed.

Section ForwardFacts.

Context {J : JSON}.


End ForwardFacts.



Example handleLine_forwards_example :
  snd (@handleLine hoverJSON session0 (requestLine 5 "textDocument/hover") 0
         (Some (mkLspResponse [] (Some (mkResponseError (-32801) (lit "busy"))))))
  = Some (RespError 5 (-32603) "lsp error -32801: busy").
Proof. vm_compute. reflexivity. Qed.

Section InitializeFacts.

Context {J : JSON}.


End InitializeFacts.



(** A server that answers [initialize] with an error leaves the session
    uninitialized. *)
Example initialize_refused :
  let r := @initialize exampleJSON (fun _ => Ok []) session0
             (Some (mkLspResponse [] (Some (mkResponseError (-32002) (lit "not ready"))))) in
  snd r = Err (errorf "initialize request failed: lsp error -32002: not ready")
  /\ sm_initialized (fst r) = false.
Proof. vm_compute. split; reflexivity. Qed.
